(** * Donlon dataset multiplication

    A shallow embedding of [generate_donlon_dataset_copies.py]: the grid
    offset calculator, the coordinate rewriting, the collector that walks
    the reference chain from the EADD airport, and the clone engine.

    Conventions of the embedding.
    - A Python [str] is a [string]; its characters are the code points
      0..255, and [isspace] is Python's [str.isspace] on that range.
    - A Python [int] is a [Z]; [//] and [%] are [Z.div] and [Z.modulo]
      (both round towards minus infinity, as Python does).
    - A Python [float] is a binary64 [float] (primitive floats).
    - A [dict] is an insertion-ordered association list with [dict_set]
      replacing the value of a key that is present; a [set] is a list
      without duplicates, only its membership is observed.
    - An lxml element is a tree [Element]; a node whose [tag] is [None] is
      a comment or processing instruction (its tag is not a [str]).  The
      [tail] of a node is not modelled: no modelled function reads it.
    - Elements are mutable objects: the top-level feature elements live in
      a [store] and are named by their index; [copy.deepcopy] allocates a
      new cell and the in-place updates of the clone engine write to it.
    - A raised exception is [Raise e]; [try]/[except] is a [match]. *)

From Stdlib Require Import ZArith List String Ascii Bool Lia Floats DecimalString
  DecimalZ.
Import ListNotations.

Set Warnings "-inexact-float,-register-all".
Local Open Scope string_scope.
Local Open Scope list_scope.

Infix "^^" := String.append (at level 60, right associativity).

(** ** Exceptions *)

Inductive exn : Type :=
| ValueError
| KeyError
| ZeroDivisionError
| OverflowError
| AttributeError
| DanglingRef. (* not a Python exception: a store index without a cell *)

Inductive result (A : Type) : Type :=
| Ok (a : A)
| Raise (e : exn).
Arguments Ok {A} a.
Arguments Raise {A} e.

Definition rbind {A B} (r : result A) (k : A -> result B) : result B :=
  match r with
  | Ok a => k a
  | Raise e => Raise e
  end.

Notation "x <- c1 ;; c2" := (rbind c1 (fun x => c2))
  (at level 61, c1 at next level, right associativity).
Notation "' pat <- c1 ;; c2" := (rbind c1 (fun x => match x with pat => c2 end))
  (at level 61, pat pattern, c1 at next level, right associativity).

(** ** Python strings *)

Definition isspace (c : ascii) : bool :=
  let n := nat_of_ascii c in
  (Nat.leb 9 n && Nat.leb n 13) || (Nat.leb 28 n && Nat.leb n 32)
  || Nat.eqb n 133 || Nat.eqb n 160.

Definition nonempty (s : string) : bool :=
  match s with
  | EmptyString => false
  | String _ _ => true
  end.

Fixpoint str_lstrip (s : string) : string :=
  match s with
  | EmptyString => EmptyString
  | String c r => if isspace c then str_lstrip r else s
  end.

Fixpoint str_rstrip (s : string) : string :=
  match s with
  | EmptyString => EmptyString
  | String c r =>
      let r' := str_rstrip r in
      if isspace c && negb (nonempty r') then EmptyString else String c r'
  end.

Definition str_strip (s : string) : string := str_rstrip (str_lstrip s).

(** [s.split()]: the maximal runs of characters that are not whitespace. *)
Fixpoint str_split (s : string) : list string :=
  match s with
  | EmptyString => []
  | String c r =>
      if isspace c then str_split r
      else
        match r with
        | EmptyString => [String c EmptyString]
        | String c' _ =>
            if isspace c' then String c EmptyString :: str_split r
            else
              match str_split r with
              | w :: ws => String c w :: ws
              | [] => [String c EmptyString]
              end
        end
  end.

Definition str_startswith (s pat : string) : bool := String.prefix pat s.

(** [pat in s] *)
Fixpoint str_contains (pat s : string) : bool :=
  String.prefix pat s
  || match s with
     | EmptyString => false
     | String _ r => str_contains pat r
     end.

(** [s.replace(pat, '')]: the occurrences of [pat] are found from the left
    and do not overlap; [skip] counts the characters of the occurrence
    under deletion that are still to drop. *)
Fixpoint replace_del_aux (pat : string) (skip : nat) (s : string) : string :=
  match s with
  | EmptyString => EmptyString
  | String c r =>
      match skip with
      | S k => replace_del_aux pat k r
      | O =>
          if String.prefix pat s
          then replace_del_aux pat (String.length pat - 1) r
          else String c (replace_del_aux pat 0 r)
      end
  end.

Definition str_replace_del (s pat : string) : string :=
  if nonempty pat then replace_del_aux pat 0 s else s.

Fixpoint str_join (sep : string) (l : list string) : string :=
  match l with
  | [] => EmptyString
  | [x] => x
  | x :: r => x ^^ sep ^^ str_join sep r
  end.

(** [str(n)] for an [int]. *)
Definition str_of_int (n : Z) : string := NilZero.string_of_int (Z.to_int n).

(** [f"{n:02d}"]: at least two characters, padded with a zero on the left
    (a negative number already has its sign and a digit). *)
Definition fmt_02d (n : Z) : string :=
  let s := str_of_int n in
  if Nat.ltb (String.length s) 2 then "0" ^^ s else s.

(** ** dict and set *)

Definition dict (V : Type) : Type := list (string * V).

Fixpoint dict_get {V} (d : dict V) (k : string) : option V :=
  match d with
  | [] => None
  | (k', v) :: r => if String.eqb k' k then Some v else dict_get r k
  end.

Definition dict_mem {V} (d : dict V) (k : string) : bool :=
  match dict_get d k with
  | Some _ => true
  | None => false
  end.

Fixpoint dict_set {V} (d : dict V) (k : string) (v : V) : dict V :=
  match d with
  | [] => [(k, v)]
  | (k', v') :: r =>
      if String.eqb k' k then (k', v) :: r else (k', v') :: dict_set r k v
  end.

Definition dict_keys {V} (d : dict V) : list string := map fst d.
Definition dict_values {V} (d : dict V) : list V := map snd d.

(** [d[k]] *)
Definition dict_index {V} (d : dict V) (k : string) : result V :=
  match dict_get d k with
  | Some v => Ok v
  | None => Raise KeyError
  end.

Definition pyset : Type := list string.

Definition set_mem (x : string) (s : pyset) : bool :=
  existsb (String.eqb x) s.

Definition set_add (s : pyset) (x : string) : pyset :=
  if set_mem x s then s else s ++ [x].

Definition set_union (a b : pyset) : pyset := fold_left set_add b a.

(** [a & b] is truthy *)
Definition set_meets (a b : pyset) : bool :=
  existsb (fun x => set_mem x b) a.

(** ** lxml elements *)

Inductive Element : Type :=
| Elem (tag : option string) (attrib : list (string * string))
       (text : option string) (children : list Element).

Definition tag (e : Element) : option string :=
  match e with Elem t _ _ _ => t end.
Definition attrib (e : Element) : list (string * string) :=
  match e with Elem _ a _ _ => a end.
Definition text (e : Element) : option string :=
  match e with Elem _ _ x _ => x end.
Definition children (e : Element) : list Element :=
  match e with Elem _ _ _ cs => cs end.

Definition set_text (x : option string) (e : Element) : Element :=
  Elem (tag e) (attrib e) x (children e).
Definition set_children (cs : list Element) (e : Element) : Element :=
  Elem (tag e) (attrib e) (text e) cs.

(** [elem.get(key)]: a comment or processing instruction has no attribute *)
Definition elem_get (e : Element) (key : string) : option string :=
  match tag e with
  | Some _ => dict_get (attrib e) key
  | None => None
  end.

(** [elem.set(key, value)] *)
Definition elem_set (e : Element) (key value : string) : Element :=
  Elem (tag e) (dict_set (attrib e) key value) (text e) (children e).

(** [isinstance(tag, str) and tag == name] *)
Definition tag_is (name : string) (e : Element) : bool :=
  match tag e with
  | Some t => String.eqb t name
  | None => false
  end.

(** [isinstance(tag, str) and pat in tag] *)
Definition tag_contains (pat : string) (e : Element) : bool :=
  match tag e with
  | Some t => str_contains pat t
  | None => false
  end.

(** [elem.iter()]: the element and its descendants in document order *)
Fixpoint elem_iter (e : Element) : list Element :=
  match e with
  | Elem _ _ _ cs => e :: List.concat (map elem_iter cs)
  end.

(** [elem.find(name)]: the first child with that tag *)
Definition elem_find (e : Element) (name : string) : option Element :=
  List.find (tag_is name) (children e).

(** [x.text] of an optional element, with [None] for a missing one *)
Definition text_of (o : option Element) : option string :=
  match o with
  | Some e => text e
  | None => None
  end.

(** A Python truth test on an optional string: neither [None] nor [''] *)
Definition truthy (o : option string) : bool :=
  match o with
  | Some s => nonempty s
  | None => false
  end.

(** The update of the first element of a list that [upd] accepts. *)
Definition update_first_in {A} (upd : A -> option A) : list A -> option (list A) :=
  fix go (l : list A) : option (list A) :=
    match l with
    | [] => None
    | c :: r =>
        match upd c with
        | Some c' => Some (c' :: r)
        | None => option_map (cons c) (go r)
        end
    end.

(** [for child in e.iter(): if p(child): f(child); break], as an update:
    [None] when no node satisfies [p]. *)
Fixpoint update_first (p : Element -> bool) (f : Element -> Element)
         (e : Element) : option Element :=
  if p e then Some (f e)
  else
    match e with
    | Elem t a x cs =>
        option_map (Elem t a x) (update_first_in (update_first p f) cs)
    end.

(** The same loop with the guard [child is not e]. *)
Definition update_first_desc (p : Element -> bool) (f : Element -> Element)
           (e : Element) : option Element :=
  option_map (fun cs => set_children cs e)
             (update_first_in (update_first p f) (children e)).

Definition or_else {A} (o : option A) (d : A) : A :=
  match o with
  | Some a => a
  | None => d
  end.

(** The first node of [e.iter()] that satisfies [p]. *)
Definition find_first (p : Element -> bool) (e : Element) : option Element :=
  List.find p (elem_iter e).

(** The same, with the guard [child is not e]. *)
Definition find_first_desc (p : Element -> bool) (e : Element) : option Element :=
  List.find p (List.concat (map elem_iter (children e))).

(** An in-place change of the first child with the given tag:
    [c = e.find(name); if c is not None: f(c)]. *)
Fixpoint update_child_in (name : string) (f : Element -> Element)
         (cs : list Element) : list Element :=
  match cs with
  | [] => []
  | c :: r => if tag_is name c then f c :: r else c :: update_child_in name f r
  end.

Definition update_child (name : string) (f : Element -> Element)
           (e : Element) : Element :=
  set_children (update_child_in name f (children e)) e.

(** [for elem in e.iter(): f(elem)] where [f] changes the attributes and
    the text of the node it is given (never its tag or its children). *)
Fixpoint iter_update (f : Element -> Element) (e : Element) : Element :=
  match e with
  | Elem _ _ _ cs =>
      let e' := f e in
      Elem (tag e) (attrib e') (text e') (map (iter_update f) cs)
  end.

(** ** Constants *)

Definition GML_NS : string := "http://www.opengis.net/gml/3.2".
Definition AIXM_NS : string := "http://www.aixm.aero/schema/5.1.1".
Definition XLINK_NS : string := "http://www.w3.org/1999/xlink".
Definition XSI_NS : string := "http://www.w3.org/2001/XMLSchema-instance".

Definition qname (ns local : string) : string := "{" ^^ ns ^^ "}" ^^ local.

Definition GML_ID : string := "{http://www.opengis.net/gml/3.2}id".
Definition XLINK_HREF : string := "{http://www.w3.org/1999/xlink}href".

Definition EADD_UUID : string := "1b54b2d6-a5ff-4e57-94c2-f4047a381c64".

Definition FEATURE_TYPES : list string :=
  ["AirportHeliport"; "Runway"; "RunwayDirection"; "RunwayElement";
   "RunwayCentrelinePoint"; "TouchDownLiftOff"; "Taxiway"; "TaxiwayElement";
   "Apron"; "ApronElement"; "AircraftStand"; "Navaid"; "VOR"; "DME"; "NDB";
   "TACAN"; "Localizer"; "Glidepath"; "VerticalStructure"; "Airspace"].

Definition NAVAID_EQUIPMENT_TYPES : list string :=
  ["VOR"; "DME"; "NDB"; "TACAN"; "Localizer"; "Glidepath"].

Definition AIRSPACE_DESIGNATORS : list string :=
  ["EAR1"; "EAV10"; "EAP2"; "EAV8"; "EAD4"; "EAV11"; "EAD5"; "EAR4"].

Definition VS_PROPERTIES_TO_REMOVE : list string :=
  ["hostedPassengerService"; "supportedGroundLight"; "hostedSpecialNavStation";
   "hostedUnit"; "hostedOrganisation"; "supportedService"].

Definition in_list (x : string) (l : list string) : bool :=
  existsb (String.eqb x) l.

(** ** Grid offset *)

(** The conversion of an [int] operand of a float product: the nearest
    binary64 value, ties to even; [OverflowError] beyond the range. *)
Definition float_of_int (z : Z) : result float :=
  match binary_normalize prec emax z 0 false with
  | S754_infinity _ => Raise OverflowError
  | sf => Ok (SF2Prim sf)
  end.

Definition calculate_grid_offset (index grid_cols : Z) (distance_nm : float)
  : result (float * float) :=
  if Z.eqb grid_cols 0 then Raise ZeroDivisionError
  else
    let row := (index / grid_cols)%Z in
    let col := (index mod grid_cols)%Z in
    let lat_per_nm := (1 / 60)%float in
    let lon_per_nm := (1 / (60 * 0.6157))%float in
    r <- float_of_int row ;;
    c <- float_of_int col ;;
    Ok ((r * distance_nm * lat_per_nm)%float,
        (c * distance_nm * lon_per_nm)%float).

(** ** The program

    The builtins the script relies on are parameters: [float(s)] and
    [int(s)] ([None] stands for [ValueError]), the text [f"{x}"] of a
    float, and the sequence of strings drawn from [str(uuid.uuid4())]. *)

Section Donlon.

Variable py_float : string -> option float.
Variable float_repr : float -> string.
Variable py_int : string -> option Z.
Variable uuid4 : nat -> string.

(** *** Coordinates *)

Definition offset_coordinate (coord_str : string) (lat_offset lon_offset : float)
  : string :=
  match str_split (str_strip coord_str) with
  | p0 :: p1 :: _ =>
      match py_float p0 with
      | Some lat =>
          match py_float p1 with
          | Some lon =>
              float_repr (lat + lat_offset) ^^ " " ^^ float_repr (lon + lon_offset)
          | None => coord_str
          end
      | None => coord_str
      end
  | _ => coord_str
  end.

(** The body of the first loop of [offset_pos_list] for one index [i]
    with [i + 1 < len(values)]. *)
Definition shift_pair (v0 v1 : string) (lat_offset lon_offset : float) : string :=
  match py_float v0 with
  | Some lat =>
      match py_float v1 with
      | Some lon =>
          float_repr (lat + lat_offset) ^^ " " ^^ float_repr (lon + lon_offset)
      | None => v0 ^^ " " ^^ v1
      end
  | None => v0 ^^ " " ^^ v1
  end.

(** [for i in range(0, len(values), 2): if i + 1 < len(values): ...] *)
Fixpoint coord_pairs (values : list string) (lat_offset lon_offset : float)
  : list string :=
  match values with
  | v0 :: v1 :: rest =>
      shift_pair v0 v1 lat_offset lon_offset
      :: coord_pairs rest lat_offset lon_offset
  | _ => []
  end.

Definition wrap_step (max_line_length : nat) (st : list string * string)
           (pair : string) : list string * string :=
  let '(lines, current) := st in
  let test := if nonempty current then current ^^ " " ^^ pair else pair in
  if Nat.ltb max_line_length (String.length test) && nonempty current
  then (lines ++ [current], pair)
  else (lines, test).

Definition newline : string := String "010"%char EmptyString.

Definition wrap_lines (max_line_length : nat) (pairs : list string) : list string :=
  let '(lines, current) := fold_left (wrap_step max_line_length) pairs ([], "") in
  if nonempty current then lines ++ [current] else lines.

Definition offset_pos_list (pos_list_str : string) (lat_offset lon_offset : float)
           (max_line_length : nat) : string :=
  let values := str_split (str_strip pos_list_str) in
  let pairs := coord_pairs values lat_offset lon_offset in
  str_join newline (wrap_lines max_line_length pairs).

Definition GML_POS : string := "{http://www.opengis.net/gml/3.2}pos".
Definition GML_POSLIST : string := "{http://www.opengis.net/gml/3.2}posList".

Definition offset_pos (lat_offset lon_offset : float) (pos : Element) : Element :=
  if tag_is GML_POS pos then
    match text pos with
    | Some s =>
        if nonempty s && nonempty (str_strip s)
        then set_text (Some (offset_coordinate s lat_offset lon_offset)) pos
        else pos
    | None => pos
    end
  else pos.

Definition offset_poslist (lat_offset lon_offset : float) (pos_list : Element)
  : Element :=
  if tag_is GML_POSLIST pos_list then
    match text pos_list with
    | Some s =>
        if nonempty s && nonempty (str_strip s)
        then set_text (Some (offset_pos_list s lat_offset lon_offset 200)) pos_list
        else pos_list
    | None => pos_list
    end
  else pos_list.

Definition offset_all_coordinates (feature_elem : Element)
           (lat_offset lon_offset : float) : Element :=
  iter_update (offset_poslist lat_offset lon_offset)
    (iter_update (offset_pos lat_offset lon_offset) feature_elem).

(** The texts of [feature_elem.iter(name)], in document order. *)
Definition texts_of (name : string) (e : Element) : list (option string) :=
  map text (filter (tag_is name) (elem_iter e)).

(** What the first loop of [offset_all_coordinates] makes of the text of a
    [gml:pos], and the second loop of the text of a [gml:posList]. *)
Definition shifted_pos (lat_offset lon_offset : float) (x : option string)
  : option string :=
  match x with
  | Some s =>
      if nonempty s && nonempty (str_strip s)
      then Some (offset_coordinate s lat_offset lon_offset)
      else x
  | None => None
  end.

Definition shifted_poslist (lat_offset lon_offset : float) (x : option string)
  : option string :=
  match x with
  | Some s =>
      if nonempty s && nonempty (str_strip s)
      then Some (offset_pos_list s lat_offset lon_offset 200)
      else x
  | None => None
  end.

(** An element whose text the coordinate pass rewrites. *)
Definition has_coordinates (x : Element) : bool :=
  (tag_is GML_POS x || tag_is GML_POSLIST x)
  && match text x with
     | Some s => nonempty s && nonempty (str_strip s)
     | None => false
     end.

(** *** Links *)

(** The identifier an element links to: its [xlink:href] in [urn:uuid:]
    form, with the scheme removed as the script removes it. *)
Definition href_target (elem : Element) : option string :=
  match elem_get elem XLINK_HREF with
  | Some href =>
      if nonempty href && str_startswith href "urn:uuid:"
      then Some (str_replace_del href "urn:uuid:")
      else None
  | None => None
  end.

Definition get_xlink_hrefs (feature_elem : Element) : pyset :=
  fold_left
    (fun uuids elem =>
       match href_target elem with
       | Some u => set_add uuids u
       | None => uuids
       end)
    (elem_iter feature_elem) [].

Definition update_href (uuid_map : dict string) (elem : Element) : Element :=
  match href_target elem with
  | Some old_uuid =>
      match dict_get uuid_map old_uuid with
      | Some new_uuid => elem_set elem XLINK_HREF ("urn:uuid:" ^^ new_uuid)
      | None => elem
      end
  | None => elem
  end.

Definition update_xlink_refs (feature_elem : Element) (uuid_map : dict string)
  : Element :=
  iter_update (update_href uuid_map) feature_elem.

(** *** Identifiers *)

Definition GML_IDENTIFIER : string := "{http://www.opengis.net/gml/3.2}identifier".
Definition AIXM_SEQUENCE_NUMBER : string :=
  "{http://www.aixm.aero/schema/5.1.1}sequenceNumber".
Definition AIXM_CORRECTION_NUMBER : string :=
  "{http://www.aixm.aero/schema/5.1.1}correctionNumber".
Definition AIXM_DESIGNATOR : string :=
  "{http://www.aixm.aero/schema/5.1.1}designator".
Definition AIXM_NAME : string := "{http://www.aixm.aero/schema/5.1.1}name".
Definition AIXM_VS_PART : string :=
  "{http://www.aixm.aero/schema/5.1.1}VerticalStructurePart".
Definition XSI_NIL : string := "{http://www.w3.org/2001/XMLSchema-instance}nil".

Definition is_timeslice (e : Element) : bool := tag_contains "TimeSlice" e.

(** [int(x.text) if x is not None and x.text else default] with
    [x = timeslice.find(name)] *)
Definition read_number (timeslice : Element) (name : string) (default : Z)
  : result Z :=
  match text_of (elem_find timeslice name) with
  | Some s =>
      if nonempty s then
        match py_int s with
        | Some n => Ok n
        | None => Raise ValueError
        end
      else Ok default
  | None => Ok default
  end.

Definition map_state {A S} (f : A -> S -> A * S) : list A -> S -> list A * S :=
  fix go (l : list A) (s : S) : list A * S :=
    match l with
    | [] => ([], s)
    | a :: r =>
        let '(a', s1) := f a s in
        let '(r', s2) := go r s1 in
        (a' :: r', s2)
    end.

(** The last loop of [update_feature_ids] from one element on: the
    elements that carry a [gml:id] are numbered in document order. *)
Fixpoint renumber (ts_id : string) (elem : Element) (child_idx : Z)
  : Element * Z :=
  match elem with
  | Elem t a x cs =>
      let '(a1, idx1) :=
        match elem_get elem GML_ID with
        | Some _ =>
            (attrib (elem_set elem GML_ID (ts_id ^^ "_" ^^ str_of_int child_idx)),
             (child_idx + 1)%Z)
        | None => (a, child_idx)
        end in
      let '(cs', idx2) := map_state (renumber ts_id) cs idx1 in
      (Elem t a1 x cs', idx2)
  end.

Definition retag_timeslice (ts_id : string) (timeslice : Element) : Element :=
  let ts := elem_set timeslice GML_ID ts_id in
  set_children (fst (map_state (renumber ts_id) (children ts) 1%Z)) ts.

Definition timeslice_id (new_uuid : string) (seq corr : Z) : string :=
  "id_" ^^ new_uuid ^^ "_" ^^ str_of_int seq ^^ "_" ^^ str_of_int corr ^^ "_B".

Definition update_feature_ids (feature_elem : Element) (new_uuid : string)
  : result Element :=
  let e1 := elem_set feature_elem GML_ID ("uuid." ^^ new_uuid) in
  let e2 := update_child GML_IDENTIFIER (set_text (Some new_uuid)) e1 in
  match find_first_desc is_timeslice e2 with
  | None => Ok e2
  | Some timeslice =>
      seq <- read_number timeslice AIXM_SEQUENCE_NUMBER 1 ;;
      corr <- read_number timeslice AIXM_CORRECTION_NUMBER 0 ;;
      Ok (or_else
            (update_first_desc is_timeslice
               (retag_timeslice (timeslice_id new_uuid seq corr)) e2)
            e2)
  end.

(** *** Type-specific updates *)

(** [if d.text: d.text = d.text + suffix] *)
Definition suffix_text (suffix : string) (d : Element) : Element :=
  match text d with
  | Some s => if nonempty s then set_text (Some (s ^^ suffix)) d else d
  | None => d
  end.

Definition is_airport_timeslice (e : Element) : bool :=
  tag_contains "AirportHeliportTimeSlice" e.

Definition airport_designator (index : Z) : string :=
  "E" ^^ fmt_02d (index + 1) ^^ "D".
Definition airport_name (index : Z) : string :=
  "DONLON INTL. " ^^ fmt_02d (index + 1).
Definition copy_suffix (index : Z) : string := "-" ^^ fmt_02d (index + 1).

Definition relabel_airport (index : Z) (new_elem : Element) : Element :=
  or_else
    (update_first is_airport_timeslice
       (fun ts =>
          update_child AIXM_NAME (set_text (Some (airport_name index)))
            (update_child AIXM_DESIGNATOR
               (set_text (Some (airport_designator index))) ts))
       new_elem)
    new_elem.

(** Navaid, navaid equipment and airspace share this update. *)
Definition relabel_suffix (index : Z) (new_elem : Element) : Element :=
  or_else
    (update_first_desc is_timeslice
       (fun child =>
          update_child AIXM_NAME (suffix_text (copy_suffix index))
            (update_child AIXM_DESIGNATOR (suffix_text (copy_suffix index)) child))
       new_elem)
    new_elem.

Definition suffix_part_designator (suffix : string) (pd : Element) : Element :=
  match text pd with
  | Some s =>
      if nonempty s && nonempty (str_strip s) && negb (truthy (elem_get pd XSI_NIL))
      then set_text (Some (s ^^ suffix)) pd
      else pd
  | None => pd
  end.

(** [for part_elem in child.iter(VerticalStructurePart): ...].  The loop
    visits the parts in document order; the update at one part writes the
    text of its own designator child only, which the update at no other
    part reads or writes, so the parts below a node are done first here. *)
Fixpoint suffix_parts (suffix : string) (e : Element) : Element :=
  match e with
  | Elem t a x cs =>
      let cs' := map (suffix_parts suffix) cs in
      Elem t a x
        (if tag_is AIXM_VS_PART e
         then update_child_in AIXM_DESIGNATOR (suffix_part_designator suffix) cs'
         else cs')
  end.

(** [for prop_elem in list(child.findall(name)): child.remove(prop_elem)] *)
Definition remove_children (child : Element) (name : string) : Element :=
  set_children (filter (fun c => negb (tag_is name c)) (children child)) child.

Definition remove_properties (child : Element) : Element :=
  fold_left
    (fun c prop_name => remove_children c (qname AIXM_NS prop_name))
    VS_PROPERTIES_TO_REMOVE child.

Definition relabel_vertical_structure (index : Z) (new_elem : Element) : Element :=
  or_else
    (update_first_desc is_timeslice
       (fun child =>
          remove_properties
            (suffix_parts (copy_suffix index)
               (update_child AIXM_NAME (suffix_text (copy_suffix index)) child)))
       new_elem)
    new_elem.

(** *** The store of feature elements and the uuid source *)

Definition ref : Type := nat.

Record state : Type := mkState {
  store : list Element; (* the feature elements allocated so far *)
  drawn : nat           (* how many uuids were drawn *)
}.

Definition M (A : Type) : Type := state -> result (A * state).

Definition mret {A} (a : A) : M A := fun s => Ok (a, s).

Definition mbind {A B} (m : M A) (k : A -> M B) : M B :=
  fun s =>
    match m s with
    | Ok (a, s') => k a s'
    | Raise e => Raise e
    end.

Definition mlift {A} (r : result A) : M A :=
  fun s =>
    match r with
    | Ok a => Ok (a, s)
    | Raise e => Raise e
    end.

Notation "x <~ c1 ;; c2" := (mbind c1 (fun x => c2))
  (at level 61, c1 at next level, right associativity).
Notation "' pat <~ c1 ;; c2" := (mbind c1 (fun x => match x with pat => c2 end))
  (at level 61, pat pattern, c1 at next level, right associativity).

Fixpoint mfor {A B} (f : A -> M B) (l : list A) : M (list B) :=
  match l with
  | [] => mret []
  | a :: r => b <~ f a ;; bs <~ mfor f r ;; mret (b :: bs)
  end.

Fixpoint list_set {A} (l : list A) (i : nat) (a : A) : list A :=
  match l, i with
  | [], _ => []
  | _ :: r, O => a :: r
  | b :: r, S j => b :: list_set r j a
  end.

Definition deref (st : list Element) (r : ref) : result Element :=
  match nth_error st r with
  | Some e => Ok e
  | None => Raise DanglingRef
  end.

Definition generate_new_uuid : M string :=
  fun s => Ok (uuid4 (drawn s), mkState (store s) (S (drawn s))).

(** [copy.deepcopy(elem)]: a new element with the same content *)
Definition deepcopy (r : ref) : M ref :=
  fun s =>
    e <- deref (store s) r ;;
    Ok (List.length (store s), mkState (store s ++ [e]) (drawn s)).

(** A call that updates the element [r] in place. *)
Definition mutate (r : ref) (f : Element -> result Element) : M unit :=
  fun s =>
    e <- deref (store s) r ;;
    e' <- f e ;;
    Ok (tt, mkState (list_set (store s) r e') (drawn s)).

(** *** Cloning *)

Definition navaid_types : list string := "Navaid" :: NAVAID_EQUIPMENT_TYPES.

(** [for old_uuid in collected_features: uuid_map[old_uuid] = generate_new_uuid()] *)
Fixpoint build_uuid_map (keys : list string) (uuid_map : dict string)
  : M (dict string) :=
  match keys with
  | [] => mret uuid_map
  | old_uuid :: r =>
      u <~ generate_new_uuid ;;
      build_uuid_map r (dict_set uuid_map old_uuid u)
  end.

Definition when (b : bool) (m : M unit) : M unit := if b then m else mret tt.

(** The body of the loop of [clone_feature_set]. *)
Definition clone_one (index : Z) (offset offset_nav : float * float)
           (uuid_map : dict string) (eadd_navaid_uuids : pyset)
           (item : string * (string * ref)) : M (string * ref) :=
  let '(old_uuid, (feat_type, orig_elem)) := item in
  new_elem <~ deepcopy orig_elem ;;
  new_uuid <~ mlift (dict_index uuid_map old_uuid) ;;
  _ <~ mutate new_elem (fun e => update_feature_ids e new_uuid) ;;
  _ <~ mutate new_elem (fun e => Ok (update_xlink_refs e uuid_map)) ;;
  _ <~ (if in_list feat_type navaid_types && negb (set_mem old_uuid eadd_navaid_uuids)
        then mutate new_elem
               (fun e => Ok (offset_all_coordinates e (fst offset_nav) (snd offset_nav)))
        else mutate new_elem
               (fun e => Ok (offset_all_coordinates e (fst offset) (snd offset)))) ;;
  _ <~ when (String.eqb feat_type "AirportHeliport")
         (mutate new_elem (fun e => Ok (relabel_airport index e))) ;;
  _ <~ when (in_list feat_type navaid_types)
         (mutate new_elem (fun e => Ok (relabel_suffix index e))) ;;
  _ <~ when (String.eqb feat_type "VerticalStructure")
         (mutate new_elem (fun e => Ok (relabel_vertical_structure index e))) ;;
  _ <~ when (String.eqb feat_type "Airspace")
         (mutate new_elem (fun e => Ok (relabel_suffix index e))) ;;
  mret (feat_type, new_elem).

Definition clone_feature_set (collected_features : dict (string * ref))
           (index grid_cols : Z) (distance_nm : float)
           (eadd_navaid_uuids : option pyset)
  : M (list (string * ref) * string) :=
  let eadd_navaid_uuids := or_else eadd_navaid_uuids [] in
  offset <~ mlift (calculate_grid_offset index grid_cols distance_nm) ;;
  offset_nav <~ mlift (calculate_grid_offset index grid_cols (distance_nm / 10)%float) ;;
  uuid_map <~ build_uuid_map (dict_keys collected_features) [] ;;
  cloned <~ mfor (clone_one index offset offset_nav uuid_map eadd_navaid_uuids)
                 collected_features ;;
  new_ahp <~ mlift (dict_index uuid_map EADD_UUID) ;;
  mret (cloned, new_ahp).

(** *** Collecting the features of the EADD airport *)

Definition features : Type := dict (dict ref).

Fixpoint rfold {A S} (f : S -> A -> result S) (l : list A) (s : S) : result S :=
  match l with
  | [] => Ok s
  | a :: r => s' <- f s a ;; rfold f r s'
  end.

(** *** Reading the features of the document *)

Definition MESSAGE_HAS_MEMBER : string :=
  "{http://www.aixm.aero/schema/5.1.1/message}hasMember".

(** [ident.text.strip() if ident is not None and ident.text else None] *)
Definition get_feature_uuid (feature_elem : Element) : option string :=
  match elem_find feature_elem GML_IDENTIFIER with
  | Some ident =>
      if truthy (text ident) then option_map str_strip (text ident) else None
  | None => None
  end.

(** The loop over the types, left at the first type [ft] for which
    [member.find('aixm:' + ft)] is an element. *)
Fixpoint member_feature (member : Element) (types : list string)
  : option (string * Element) :=
  match types with
  | [] => None
  | ft :: rest =>
      match elem_find member (qname AIXM_NS ft) with
      | Some elem => Some (ft, elem)
      | None => member_feature member rest
      end
  end.

(** The body of the loop over the members.  The elements the catalog
    refers to are gathered in a store, in document order. *)
Definition extract_member (acc : list Element * features) (member : Element)
  : result (list Element * features) :=
  let '(st, result) := acc in
  match member_feature member FEATURE_TYPES with
  | Some (ft, elem) =>
      match get_feature_uuid elem with
      | Some feat_uuid =>
          if nonempty feat_uuid then
            feats <- dict_index result ft ;;
            Ok (st ++ [elem],
                dict_set result ft (dict_set feats feat_uuid (List.length st)))
          else Ok acc
      | None => Ok acc
      end
  | None => Ok acc
  end.

(** [root.findall('message:hasMember', NSMAP)] *)
Definition members (root : Element) : list Element :=
  filter (tag_is MESSAGE_HAS_MEMBER) (children root).

Definition extract_features_by_type (root : Element)
  : result (list Element * features) :=
  rfold extract_member (members root)
        ([], fold_left (fun d ft => dict_set d ft []) FEATURE_TYPES []).

Definition hrefs_at (st : list Element) (felem : ref) : result pyset :=
  e <- deref st felem ;; Ok (get_xlink_hrefs e).

Definition find_referencing (st : list Element) (features_by_type : features)
           (collected : dict (string * ref)) (feat_type : string)
           (target_uuids : pyset) : result (dict ref) :=
  feats <- dict_index features_by_type feat_type ;;
  rfold
    (fun found '(fuuid, felem) =>
       if dict_mem collected fuuid then Ok found
       else
         refs <- hrefs_at st felem ;;
         Ok (if set_meets refs target_uuids then dict_set found fuuid felem
             else found))
    feats [].

(** [for u, e in found.items(): collected[u] = (feat_type, e)] *)
Definition add_found (collected : dict (string * ref)) (feat_type : string)
           (found : dict ref) : dict (string * ref) :=
  fold_left (fun c '(u, e) => dict_set c u (feat_type, e)) found collected.

(** Step 11: every navaid, those linked to the airport's features noted. *)
Definition navaid_pass (st : list Element) (features_by_type : features)
           (eadd_uuids_so_far : pyset)
           (acc : dict (string * ref) * pyset)
  : result (dict (string * ref) * pyset) :=
  feats <- dict_index features_by_type "Navaid" ;;
  rfold
    (fun '(collected, eadd_navaid_uuids) '(fuuid, felem) =>
       if negb (dict_mem collected fuuid) then
         refs <- hrefs_at st felem ;;
         Ok (dict_set collected fuuid ("Navaid", felem),
             if set_meets refs eadd_uuids_so_far
             then set_add eadd_navaid_uuids fuuid else eadd_navaid_uuids)
       else Ok (collected, eadd_navaid_uuids))
    feats acc.

(** Step 12: every navaid equipment, bottom-up. *)
Definition equipment_pass (st : list Element) (features_by_type : features)
           (eadd_plus_navaid : pyset)
           (acc : dict (string * ref) * pyset)
  : result (dict (string * ref) * pyset) :=
  rfold
    (fun acc eq_type =>
       feats <- dict_index features_by_type eq_type ;;
       rfold
         (fun '(collected, eadd_navaid_uuids) '(fuuid, felem) =>
            if negb (dict_mem collected fuuid) then
              refs <- hrefs_at st felem ;;
              Ok (dict_set collected fuuid (eq_type, felem),
                  if set_meets refs eadd_plus_navaid
                  then set_add eadd_navaid_uuids fuuid else eadd_navaid_uuids)
            else Ok (collected, eadd_navaid_uuids))
         feats acc)
    NAVAID_EQUIPMENT_TYPES acc.

(** The innermost loop of the top-down pass, for one [ref_uuid]. *)
Definition mark_equipment (features_by_type : features)
           (eadd_navaid_uuids : pyset) (ref_uuid : string) : result pyset :=
  rfold
    (fun marked eq_type =>
       feats <- dict_index features_by_type eq_type ;;
       Ok (if dict_mem feats ref_uuid then set_add marked ref_uuid else marked))
    NAVAID_EQUIPMENT_TYPES eadd_navaid_uuids.

(** The top-down pass: the equipment the noted navaids link to.  The loop
    runs over a copy of the set as it was before the pass. *)
Definition topdown_pass (st : list Element) (features_by_type : features)
           (eadd_navaid_uuids : pyset) : result pyset :=
  rfold
    (fun marked fuuid =>
       match dict_get (or_else (dict_get features_by_type "Navaid") []) fuuid with
       | Some _ =>
           navaids <- dict_index features_by_type "Navaid" ;;
           felem <- dict_index navaids fuuid ;;
           refs <- hrefs_at st felem ;;
           rfold (mark_equipment features_by_type) refs marked
       | None => Ok marked
       end)
    eadd_navaid_uuids eadd_navaid_uuids.

(** Step 13 *)
Definition vertical_structure_pass (features_by_type : features)
           (collected : dict (string * ref)) : result (dict (string * ref)) :=
  feats <- dict_index features_by_type "VerticalStructure" ;;
  Ok (fold_left
        (fun c '(fuuid, felem) =>
           if negb (dict_mem c fuuid)
           then dict_set c fuuid ("VerticalStructure", felem) else c)
        feats collected).

(** Step 14: the test of one airspace, on its first [AirspaceTimeSlice] *)
Definition airspace_selected (felem : Element) : bool :=
  match find_first (tag_contains "AirspaceTimeSlice") felem with
  | Some child =>
      match text_of (elem_find child AIXM_DESIGNATOR) with
      | Some d => in_list d AIRSPACE_DESIGNATORS
      | None => false
      end
  | None => false
  end.

Definition airspace_pass (st : list Element) (features_by_type : features)
           (collected : dict (string * ref)) : result (dict (string * ref)) :=
  feats <- dict_index features_by_type "Airspace" ;;
  rfold
    (fun c '(fuuid, felem) =>
       if dict_mem c fuuid then Ok c
       else
         e <- deref st felem ;;
         Ok (if airspace_selected e then dict_set c fuuid ("Airspace", felem) else c))
    feats collected.

(** What [collect_eadd_features] returns: the bare dict of its early
    [return collected], or the pair of its last line. *)
Inductive collect_ret : Type :=
| RetDict (collected : dict (string * ref))
| RetPair (collected : dict (string * ref)) (eadd_navaid_uuids : pyset).

(** Steps 2 to 10, the features found through their links. *)
Definition airport_closure (st : list Element) (features_by_type : features)
           (ahp : ref) : result (dict (string * ref)) :=
  let collected := dict_set [] EADD_UUID ("AirportHeliport", ahp) in
  let airport_uuids := [EADD_UUID] in
  runways <- find_referencing st features_by_type collected "Runway" airport_uuids ;;
  let collected := add_found collected "Runway" runways in
  let runway_uuids := dict_keys runways in
  rwy_dirs <- find_referencing st features_by_type collected "RunwayDirection" runway_uuids ;;
  let collected := add_found collected "RunwayDirection" rwy_dirs in
  let rwy_dir_uuids := dict_keys rwy_dirs in
  rwy_elems <- find_referencing st features_by_type collected "RunwayElement" runway_uuids ;;
  let collected := add_found collected "RunwayElement" rwy_elems in
  rcps <- find_referencing st features_by_type collected "RunwayCentrelinePoint" rwy_dir_uuids ;;
  let collected := add_found collected "RunwayCentrelinePoint" rcps in
  tlofs <- find_referencing st features_by_type collected "TouchDownLiftOff"
             (set_union airport_uuids runway_uuids) ;;
  let collected := add_found collected "TouchDownLiftOff" tlofs in
  taxiways <- find_referencing st features_by_type collected "Taxiway" airport_uuids ;;
  let collected := add_found collected "Taxiway" taxiways in
  let taxiway_uuids := dict_keys taxiways in
  twy_elems <- find_referencing st features_by_type collected "TaxiwayElement" taxiway_uuids ;;
  let collected := add_found collected "TaxiwayElement" twy_elems in
  aprons <- find_referencing st features_by_type collected "Apron" airport_uuids ;;
  let collected := add_found collected "Apron" aprons in
  let apron_uuids := dict_keys aprons in
  apron_elems <- find_referencing st features_by_type collected "ApronElement" apron_uuids ;;
  let collected := add_found collected "ApronElement" apron_elems in
  let apron_elem_uuids := dict_keys apron_elems in
  stands <- find_referencing st features_by_type collected "AircraftStand"
              (set_union apron_elem_uuids airport_uuids) ;;
  Ok (add_found collected "AircraftStand" stands).

(** The navaid and equipment steps up to the end of the bottom-up pass:
    the collected features and the set [eadd_navaid_uuids] at that point. *)
Definition bottom_up (st : list Element) (features_by_type : features)
           (collected : dict (string * ref))
  : result (dict (string * ref) * pyset) :=
  let eadd_uuids_so_far := dict_keys collected in
  acc <- navaid_pass st features_by_type eadd_uuids_so_far (collected, []) ;;
  let eadd_plus_navaid := set_union eadd_uuids_so_far (snd acc) in
  equipment_pass st features_by_type eadd_plus_navaid acc.

Definition collect_eadd_features (st : list Element) (features_by_type : features)
  : result collect_ret :=
  let collected : dict (string * ref) := [] in
  airports <- dict_index features_by_type "AirportHeliport" ;;
  match dict_get airports EADD_UUID with
  | None => Ok (RetDict collected)
  | Some ahp =>
      collected <- airport_closure st features_by_type ahp ;;
      ' (collected, eadd_navaid_uuids) <- bottom_up st features_by_type collected ;;
      eadd_navaid_uuids <- topdown_pass st features_by_type eadd_navaid_uuids ;;
      collected <- vertical_structure_pass features_by_type collected ;;
      collected <- airspace_pass st features_by_type collected ;;
      Ok (RetPair collected eadd_navaid_uuids)
  end.

(** *** The run *)

(** [collected, eadd_navaid_uuids = collect_eadd_features(...)].  A dict
    is unpacked through its keys: it takes exactly two of them, and then
    [collected] is a [str], on which [.items()] fails in the summary. *)
Definition unpack_collected (r : collect_ret)
  : result (dict (string * ref) * pyset) :=
  match r with
  | RetPair collected eadd_navaid_uuids => Ok (collected, eadd_navaid_uuids)
  | RetDict [_; _] => Raise AttributeError
  | RetDict _ => Raise ValueError
  end.

(** [range(count)] *)
Definition range (count : Z) : list Z := map Z.of_nat (seq 0 (Z.to_nat count)).

(** [main] once the features are extracted, without its printing and
    writing (of the summary only the lookups [features_by_type[ft]] are
    kept); the result is [per_copy_cloned]. *)
Definition main_core (features_by_type : features) (grid_rows grid_cols : Z)
           (distance_nm : float) (count_arg : Z)
  : M (list (list (string * ref))) :=
  let count := Z.min count_arg (grid_rows * grid_cols) in
  _ <~ mlift (rfold (fun _ ft => _ <- dict_index features_by_type ft ;; Ok tt)
                FEATURE_TYPES tt) ;;
  r <~ (fun s => mlift (collect_eadd_features (store s) features_by_type) s) ;;
  ' (collected, eadd_navaid_uuids) <~ mlift (unpack_collected r) ;;
  mfor
    (fun i =>
       _ <~ mlift (calculate_grid_offset i grid_cols distance_nm) ;;
       ' (cloned, _) <~ clone_feature_set collected i grid_cols distance_nm
                          (Some eadd_navaid_uuids) ;;
       mret cloned)
    (range count).

(** *** The clone of one element, as a function of its content

    The loop body of [clone_feature_set] applies its updates in place to
    the copy; here they are composed on the content of the copy. *)

Definition uses_reduced_offset (feat_type old_uuid : string)
           (eadd_navaid_uuids : pyset) : bool :=
  in_list feat_type navaid_types && negb (set_mem old_uuid eadd_navaid_uuids).

Definition relabel (feat_type : string) (index : Z) (e : Element) : Element :=
  let e := if String.eqb feat_type "AirportHeliport"
           then relabel_airport index e else e in
  let e := if in_list feat_type navaid_types then relabel_suffix index e else e in
  let e := if String.eqb feat_type "VerticalStructure"
           then relabel_vertical_structure index e else e in
  if String.eqb feat_type "Airspace" then relabel_suffix index e else e.

Definition clone_element (index : Z) (offset offset_nav : float * float)
           (uuid_map : dict string) (eadd_navaid_uuids : pyset)
           (old_uuid feat_type new_uuid : string) (e : Element) : result Element :=
  e1 <- update_feature_ids e new_uuid ;;
  let off := if uses_reduced_offset feat_type old_uuid eadd_navaid_uuids
             then offset_nav else offset in
  Ok (relabel feat_type index
        (offset_all_coordinates (update_xlink_refs e1 uuid_map) (fst off) (snd off))).

(** The [uuid_map] that [build_uuid_map] builds when [n] uuids were drawn
    before it. *)
Fixpoint uuid_map_from (keys : list string) (uuid_map : dict string) (n : nat)
  : dict string :=
  match keys with
  | [] => uuid_map
  | old_uuid :: r => uuid_map_from r (dict_set uuid_map old_uuid (uuid4 n)) (S n)
  end.

(** The link targets of a feature element, one per linking node. *)
Definition link_targets (e : Element) : list string :=
  flat_map (fun n => match href_target n with Some u => [u] | None => [] end)
           (elem_iter e).

(** What the links of a node depend on: its tag and its attributes. *)
Definition node_key (e : Element) : option string * list (string * string) :=
  (tag e, attrib e).

Definition is_ok {A} (r : result A) : bool :=
  match r with
  | Ok _ => true
  | Raise _ => false
  end.

(** The two numbers of the version-block, if there is one, can be read. *)
Definition ids_readable (e : Element) : bool :=
  match find_first_desc is_timeslice e with
  | Some ts =>
      is_ok (read_number ts AIXM_SEQUENCE_NUMBER 1)
      && is_ok (read_number ts AIXM_CORRECTION_NUMBER 0)
  | None => true
  end.

(** The descendants of an element, in document order. *)
Definition descendants (e : Element) : list Element :=
  List.concat (map elem_iter (children e)).

(** The [gml:id] values carried by the elements of a list, in order. *)
Definition gml_ids (l : list Element) : list string :=
  flat_map (fun n => match elem_get n GML_ID with Some g => [g] | None => [] end) l.

(** [ts_id_idx], [ts_id_(idx+1)], ...: [k] identifiers. *)
Definition numbered_ids (ts_id : string) (idx : Z) (k : nat) : list string :=
  map (fun j => ts_id ^^ "_" ^^ str_of_int (idx + Z.of_nat j)) (seq 0 k).

(** What holds of an entry of the catalog read from [root]. *)
Definition entry_of (root : Element) (st : list Element)
           (ft u : string) (r : ref) : Prop :=
  exists member e,
    In member (members root)
    /\ member_feature member FEATURE_TYPES = Some (ft, e)
    /\ deref st r = Ok e
    /\ tag e = Some (qname AIXM_NS ft)
    /\ get_feature_uuid e = Some u
    /\ u <> "".

(** A catalog the collector can run on: it has every type, and its
    elements are in the store. *)
Definition catalog_ok (st : list Element) (features_by_type : features) : Prop :=
  (forall t, In t FEATURE_TYPES -> dict_mem features_by_type t = true)
  /\ (forall t feats u r,
         dict_get features_by_type t = Some feats ->
         In (u, r) feats -> (r < List.length st)%nat).

(** What holds of a collected feature: it is in the catalog under its
    type, with its element, and an airspace is one the designator test
    selects. *)
Definition admissible (st : list Element) (features_by_type : features)
           (u t : string) (r : ref) : Prop :=
  (exists feats, dict_get features_by_type t = Some feats /\ In (u, r) feats)
  /\ (t = "Airspace" ->
      exists e, deref st r = Ok e /\ airspace_selected e = true).

Definition from_catalog (st : list Element) (features_by_type : features)
           (collected : dict (string * ref)) : Prop :=
  forall u t r,
    dict_get collected u = Some (t, r) -> admissible st features_by_type u t r.

(** [c'] has the entries of [c0] and the keys of [c]; it keeps the keys
    distinct and the features admissible if [c] does. *)
Definition grows (st : list Element) (features_by_type : features)
           (c0 c c' : dict (string * ref)) : Prop :=
  (forall u v, dict_get c0 u = Some v -> dict_get c' u = Some v)
  /\ (forall u, dict_mem c u = true -> dict_mem c' u = true)
  /\ (NoDup (dict_keys c) -> NoDup (dict_keys c'))
  /\ (from_catalog st features_by_type c -> from_catalog st features_by_type c').

(** [x] is the uuid of a navaid or of a navaid equipment of the catalog. *)
Definition navaid_kind (features_by_type : features) (x : string) : Prop :=
  exists t feats,
    In t ("Navaid" :: NAVAID_EQUIPMENT_TYPES)
    /\ dict_get features_by_type t = Some feats
    /\ dict_mem feats x = true.

(** The uuids noted are collected ones. *)
Definition noted_in (collected : dict (string * ref)) (noted : pyset) : Prop :=
  forall x, set_mem x noted = true -> dict_mem collected x = true.

(** The tags of a tree, without attributes and text. *)
Fixpoint skeleton (e : Element) : Element :=
  match e with
  | Elem t _ _ cs => Elem t [] None (map skeleton cs)
  end.

(** A string that [str.split] returns whole: not empty, no whitespace. *)
Fixpoint no_space (s : string) : bool :=
  match s with
  | EmptyString => true
  | String c r => negb (isspace c) && no_space r
  end.

Definition is_token (s : string) : bool := nonempty s && no_space s.

(** ** A small dataset

    One airport with a runway, a navaid that serves the airport and names
    its VOR, an NDB elsewhere, an obstacle and an airspace; the builtins
    here read and print whole numbers only. *)

Definition aixm (name : string) : option string := Some (qname AIXM_NS name).

Definition link (name target : string) : Element :=
  Elem (aixm name) [(XLINK_HREF, "urn:uuid:" ^^ target)] None [].

Definition feature (type uuid slice : string) (props : list Element) : Element :=
  Elem (aixm type) [(GML_ID, "uuid." ^^ uuid)] None
    [Elem (Some GML_IDENTIFIER) [("codeSpace", "urn:uuid:")] (Some uuid) [];
     Elem (aixm "timeSlice") [] None
       [Elem (aixm slice) [(GML_ID, "ts_" ^^ type)] None props]].

Definition point (pos : string) : Element :=
  Elem (aixm "ElevatedPoint") [(GML_ID, "ep")] None
    [Elem (Some GML_POS) [] (Some pos) []].

Definition RWY_UUID : string := "9e51668f-bf8a-4f5b-ba6e-27087972b9b8".
Definition NAV_UUID : string := "08a1bbd5-ea70-4fe3-836a-ea9686349495".
Definition VOR_UUID : string := "a5eedeb5-1aa6-4a2e-91c6-e2b2ed2bcbe7".
Definition NDB_UUID : string := "f1b6c59d-0b0e-4b0e-8b6a-3b0f6f1f7a11".
Definition VS_UUID : string := "8c755520-71c4-4ac3-be5e-b4852ccbd296".
Definition ASE_UUID : string := "4fd9f4be-8c65-43f6-b083-3ced9a4b2a7f".
Definition ORG_UUID : string := "74efb6ba-a52a-46c0-a16b-03860d356882".

Definition demo_airport : Element :=
  feature "AirportHeliport" EADD_UUID "AirportHeliportTimeSlice"
    [Elem (aixm "sequenceNumber") [] (Some "2") [];
     Elem (aixm "designator") [] (Some "EADD") [];
     Elem (aixm "name") [] (Some "DONLON/INTL.") [];
     Elem (aixm "ARP") [] None [point "52 -32"]].

Definition demo_runway : Element :=
  feature "Runway" RWY_UUID "RunwayTimeSlice"
    [Elem (aixm "designator") [] (Some "09L/27R") [];
     link "associatedAirportHeliport" EADD_UUID].

Definition demo_navaid : Element :=
  feature "Navaid" NAV_UUID "NavaidTimeSlice"
    [Elem (aixm "designator") [] (Some "BOR") [];
     Elem (aixm "navaidEquipment") [] None [link "theNavaidEquipment" VOR_UUID];
     link "servedAirport" EADD_UUID].

Definition demo_vor : Element :=
  feature "VOR" VOR_UUID "VORTimeSlice"
    [Elem (aixm "designator") [] (Some "BOR") [];
     Elem (aixm "location") [] None [point "52 -31"]].

Definition demo_ndb : Element :=
  feature "NDB" NDB_UUID "NDBTimeSlice"
    [Elem (aixm "correctionNumber") [] (Some "") [];
     Elem (aixm "designator") [] (Some "KAV") [];
     Elem (aixm "location") [] None [point "40 -20"]].

Definition demo_obstacle : Element :=
  feature "VerticalStructure" VS_UUID "VerticalStructureTimeSlice"
    [Elem (aixm "name") [] (Some "TOWER") [];
     Elem (aixm "part") [] None
       [Elem (Some AIXM_VS_PART) [(GML_ID, "vsp")] None
          [Elem (aixm "designator") [] (Some "P1") []; point "52 -32"]];
     link "hostedOrganisation" ORG_UUID;
     link "supportedService" ORG_UUID].

Definition demo_airspace : Element :=
  feature "Airspace" ASE_UUID "AirspaceTimeSlice"
    [Elem (aixm "designator") [] (Some "EAR1") [];
     Elem (aixm "name") [] (Some "BRAVO") [];
     Elem (Some GML_POSLIST) [] (Some "52 -32 53 -31 54") []].

Definition demo_store : list Element :=
  [demo_airport; demo_runway; demo_navaid; demo_vor; demo_ndb; demo_obstacle;
   demo_airspace].

(** The document: one [hasMember] per feature. *)
Definition demo_root : Element :=
  Elem (Some "{http://www.aixm.aero/schema/5.1.1/message}AIXMBasicMessage")
       [] None
       (map (fun f => Elem (Some MESSAGE_HAS_MEMBER) [] None [f]) demo_store).

Definition demo_features : features :=
  [("AirportHeliport", [(EADD_UUID, 0)]);
   ("Runway", [(RWY_UUID, 1)]);
   ("RunwayDirection", []); ("RunwayElement", []);
   ("RunwayCentrelinePoint", []); ("TouchDownLiftOff", []);
   ("Taxiway", []); ("TaxiwayElement", []);
   ("Apron", []); ("ApronElement", []); ("AircraftStand", []);
   ("Navaid", [(NAV_UUID, 2)]);
   ("VOR", [(VOR_UUID, 3)]); ("DME", []); ("NDB", [(NDB_UUID, 4)]);
   ("TACAN", []); ("Localizer", []); ("Glidepath", []);
   ("VerticalStructure", [(VS_UUID, 5)]);
   ("Airspace", [(ASE_UUID, 6)])].

(** The same file without its airport. *)
Definition demo_features_no_airport : features :=
  dict_set demo_features "AirportHeliport" [].

Definition demo_collected : dict (string * ref) :=
  [(EADD_UUID, ("AirportHeliport", 0)); (RWY_UUID, ("Runway", 1));
   (NAV_UUID, ("Navaid", 2)); (VOR_UUID, ("VOR", 3)); (NDB_UUID, ("NDB", 4));
   (VS_UUID, ("VerticalStructure", 5)); (ASE_UUID, ("Airspace", 6))].

Definition demo_state : state := mkState demo_store 0.

Definition demo_int (s : string) : option Z :=
  option_map Z.of_int (NilZero.int_of_string s).

Definition demo_float (s : string) : option float :=
  match demo_int s with
  | Some z =>
      match float_of_int z with
      | Ok f => Some f
      | Raise _ => None
      end
  | None => None
  end.

Definition demo_repr (f : float) : string :=
  match Prim2SF f with
  | S754_zero _ => "0.0"
  | S754_infinity s => if s then "-inf" else "inf"
  | S754_nan => "nan"
  | S754_finite s m e =>
      let n := if Z.leb 0 e then (Z.pos m * 2 ^ e)%Z else (Z.pos m / 2 ^ (- e))%Z in
      (if s then "-" else "") ^^ str_of_int n ^^ ".0"
  end.

Definition demo_uuid4 (k : nat) : string :=
  "00000000-0000-4000-8000-0000000000" ^^ fmt_02d (Z.of_nat k).

(** * Properties *)

(** ** The result monads *)

Lemma rbind_ok {A B} (r : result A) (k : A -> result B) (b : B) :
  rbind r k = Ok b -> exists a, r = Ok a /\ k a = Ok b.
Proof. destruct r as [a|e]; simpl; intro H; [eauto | discriminate]. Qed.

Lemma mbind_ok {A B} (m : M A) (k : A -> M B) s b s' :
  mbind m k s = Ok (b, s') ->
  exists a s1, m s = Ok (a, s1) /\ k a s1 = Ok (b, s').
Proof.
  unfold mbind. destruct (m s) as [[a s1]|e]; intro H; [eauto | discriminate].
Qed.

Lemma mlift_ok {A} (r : result A) s a s' :
  mlift r s = Ok (a, s') -> r = Ok a /\ s' = s.
Proof.
  unfold mlift. destruct r; intro H; inversion H; subst; auto.
Qed.

(** ** Grid offset *)

Lemma calculate_grid_offset_ok index grid_cols distance_nm r c :
  grid_cols <> 0%Z ->
  float_of_int (index / grid_cols) = Ok r ->
  float_of_int (index mod grid_cols) = Ok c ->
  calculate_grid_offset index grid_cols distance_nm
  = Ok ((r * distance_nm * (1 / 60))%float,
        (c * distance_nm * (1 / (60 * 0.6157)))%float).
Proof.
  intros Hc Hr Hcol. unfold calculate_grid_offset.
  destruct (Z.eqb_spec grid_cols 0) as [E|_]; [contradiction|].
  rewrite Hr, Hcol. reflexivity.
Qed.

(** C5: for a number of columns that is not zero, with [r]
    and [c] the binary64 values of the row [index div columns] and the
    column [index mod columns], the offsets are [r * distance * (1/60)]
    and [c * distance * (1/(60 * 0.6157))], each product taken from the
    left in binary64; for index 7, 6 columns and distance 30 this is row
    1, column 1, latitude offset 0.5 and longitude offset
    [30 * (1/(60 * 0.6157))]. *)
Theorem calculate_grid_offset_formula :
  (forall index grid_cols distance_nm r c,
      grid_cols <> 0%Z ->
      float_of_int (index / grid_cols) = Ok r ->
      float_of_int (index mod grid_cols) = Ok c ->
      calculate_grid_offset index grid_cols distance_nm
      = Ok ((r * distance_nm * (1 / 60))%float,
            (c * distance_nm * (1 / (60 * 0.6157)))%float))
  /\ (7 / 6 = 1)%Z /\ (7 mod 6 = 1)%Z
  /\ calculate_grid_offset 7 6 30
     = Ok (0.5%float, (30 * (1 / (60 * 0.6157)))%float).
Proof.
  split; [| repeat split; reflexivity].
  intros. now apply calculate_grid_offset_ok.
Qed.

(** C5 (counterexample): in binary64 the longitude offset of index 7 on 6
    columns at distance 30 is not the quotient [30 / (60 * 0.6157)], and
    with zero columns the division raises. *)
Lemma calculate_grid_offset_not_quotient :
  (exists lat lon,
      calculate_grid_offset 7 6 30 = Ok (lat, lon)
      /\ lon <> (30 / (60 * 0.6157))%float)
  /\ calculate_grid_offset 7 0 30 = Raise ZeroDivisionError.
Proof.
  split; [| reflexivity].
  exists 0.5%float, (30 * (1 / (60 * 0.6157)))%float.
  split; [reflexivity|].
  intro H. apply (f_equal Prim2SF) in H. vm_compute in H. discriminate.
Qed.

(** ** The run without the airport *)

Lemma feature_types_lookup (features_by_type : features) types :
  forallb (dict_mem features_by_type) types = true ->
  rfold (fun _ ft => _ <- dict_index features_by_type ft ;; Ok tt) types tt
  = Ok tt.
Proof.
  induction types as [|ft r IH]; [reflexivity|].
  cbn [forallb rfold]. intro H. apply andb_true_iff in H as [Hft Hr].
  unfold dict_mem in Hft. unfold dict_index at 1.
  destruct (dict_get features_by_type ft); [|discriminate]. cbn [rbind].
  now apply IH.
Qed.

(** C2: when the airport is not in the file, [collect_eadd_features]
    returns its empty dict alone, and the unpacking in [main] raises
    [ValueError]: no list of clones is produced. *)
Theorem main_core_anchor_absent :
  forall features_by_type airports grid_rows grid_cols distance_nm count s,
    forallb (dict_mem features_by_type) FEATURE_TYPES = true ->
    dict_get features_by_type "AirportHeliport" = Some airports ->
    dict_get airports EADD_UUID = None ->
    collect_eadd_features (store s) features_by_type = Ok (RetDict [])
    /\ main_core features_by_type grid_rows grid_cols distance_nm count s
       = Raise ValueError.
Proof.
  intros fbt airports rows cols d count s Hall Hf Ha.
  assert (Hc : collect_eadd_features (store s) fbt = Ok (RetDict [])).
  { unfold collect_eadd_features, dict_index. rewrite Hf. simpl. rewrite Ha.
    reflexivity. }
  split; [exact Hc|].
  unfold main_core, mbind. rewrite (feature_types_lookup fbt _ Hall).
  cbn [mlift]. rewrite Hc. reflexivity.
Qed.

(** ** Splitting and joining *)

Lemma str_split_head c s :
  isspace c = false -> exists w ws, str_split (String c s) = w :: ws.
Proof.
  intro Hc. simpl. rewrite Hc. destruct s as [|c' s']; [eauto|].
  destruct (isspace c'); [eauto|]. destruct (str_split (String c' s')); eauto.
Qed.

Lemma str_split_cons a s :
  isspace a = false ->
  str_split (String a s)
  = match s with
    | EmptyString => [String a EmptyString]
    | String c' _ =>
        if isspace c' then String a EmptyString :: str_split s
        else
          match str_split s with
          | w :: ws => String a w :: ws
          | [] => [String a EmptyString]
          end
    end.
Proof. intro Ha. destruct s; cbn [str_split]; rewrite Ha; reflexivity. Qed.

Lemma str_split_space a s : isspace a = true -> str_split (String a s) = str_split s.
Proof. intro Ha. cbn [str_split]. rewrite Ha. reflexivity. Qed.

Lemma str_split_app_ws c x y :
  isspace c = true ->
  str_split (x ^^ String c y) = str_split x ++ str_split y.
Proof.
  intro Hc. induction x as [|a x IH].
  - cbn [String.append]. rewrite str_split_space by exact Hc. reflexivity.
  - change (String a x ^^ String c y) with (String a (x ^^ String c y)).
    destruct (isspace a) eqn:Ha.
    + rewrite !str_split_space by exact Ha. exact IH.
    + rewrite !str_split_cons by exact Ha. destruct x as [|b x'].
      * cbn [String.append]. rewrite Hc. rewrite str_split_space by exact Hc.
        reflexivity.
      * change (String b x' ^^ String c y) with (String b (x' ^^ String c y)) in *.
        rewrite IH. destruct (isspace b) eqn:Hb; [reflexivity|].
        destruct (str_split_head b x' Hb) as (w & ws & E).
        rewrite E. reflexivity.
Qed.

Lemma str_split_token t : is_token t = true -> str_split t = [t].
Proof.
  unfold is_token. induction t as [|c r IH]; [discriminate|].
  cbn [nonempty no_space andb]. intro H.
  apply andb_true_iff in H as [Hc Hr]. apply negb_true_iff in Hc.
  cbn [str_split]. rewrite Hc. destruct r as [|c' r']; [reflexivity|].
  cbn [no_space] in Hr. pose proof Hr as Hr'.
  apply andb_true_iff in Hr' as [Hc' _]. apply negb_true_iff in Hc'.
  rewrite Hc'. rewrite IH by exact Hr. reflexivity.
Qed.

Lemma str_split_tokens s : Forall (fun t => is_token t = true) (str_split s).
Proof.
  induction s as [|c r IH]; [constructor|].
  cbn [str_split]. destruct (isspace c) eqn:Hc; [exact IH|].
  assert (Hone : is_token (String c EmptyString) = true).
  { unfold is_token. simpl. rewrite Hc. reflexivity. }
  destruct r as [|c' r']; [repeat constructor; exact Hone|].
  destruct (isspace c') eqn:Hc'; [constructor; assumption|].
  destruct (str_split (String c' r')) as [|w ws]; [repeat constructor; exact Hone|].
  inversion IH as [|? ? Hw Hws]; subst. constructor; [|exact Hws].
  unfold is_token in *. cbn [nonempty no_space]. rewrite Hc.
  apply andb_true_iff in Hw as [_ Hw]. exact Hw.
Qed.

Lemma str_split_two t1 t2 :
  is_token t1 = true -> is_token t2 = true ->
  str_split (t1 ^^ " " ^^ t2) = [t1; t2].
Proof.
  intros H1 H2. change (" " ^^ t2) with (String " "%char t2).
  rewrite str_split_app_ws by reflexivity.
  rewrite (str_split_token t1 H1), (str_split_token t2 H2). reflexivity.
Qed.

Lemma str_split_join_newline l :
  str_split (str_join newline l) = List.concat (map str_split l).
Proof.
  induction l as [|x [|y r] IH]; [reflexivity | simpl; now rewrite app_nil_r |].
  change (str_join newline (x :: y :: r))
    with (x ^^ String "010"%char (str_join newline (y :: r))).
  rewrite str_split_app_ws by reflexivity. rewrite IH. reflexivity.
Qed.

Lemma str_lstrip_split s : str_split (str_lstrip s) = str_split s.
Proof.
  induction s as [|c r IH]; [reflexivity|].
  cbn [str_lstrip]. destruct (isspace c) eqn:Hc; [|reflexivity].
  rewrite IH. cbn [str_split]. rewrite Hc. reflexivity.
Qed.

Lemma str_split_nil_empty s : str_rstrip s = EmptyString -> str_split s = [].
Proof.
  induction s as [|c r IH]; [reflexivity|].
  cbn [str_rstrip str_split].
  destruct (isspace c) eqn:Hc; cbn [andb].
  - destruct (str_rstrip r) eqn:Er; cbn [nonempty negb]; [|discriminate].
    intros _. apply IH. reflexivity.
  - discriminate.
Qed.

Lemma str_rstrip_split s : str_split (str_rstrip s) = str_split s.
Proof.
  induction s as [|c r IH]; [reflexivity|].
  cbn [str_rstrip]. destruct (isspace c) eqn:Hc; cbn [andb].
  - destruct (str_rstrip r) as [|c' r'] eqn:Er; cbn [nonempty negb].
    + cbn [str_split]. rewrite Hc. symmetry. apply str_split_nil_empty, Er.
    + cbn [str_split]. rewrite Hc. exact IH.
  - cbn [str_split]. rewrite Hc.
    destruct r as [|d r0].
    + reflexivity.
    + destruct (str_rstrip (String d r0)) as [|c' r'] eqn:Er.
      * rewrite (str_split_nil_empty _ Er).
        destruct (isspace d) eqn:Hd; [reflexivity|].
        cbn [str_rstrip] in Er. rewrite Hd in Er. discriminate.
      * assert (Hd : isspace c' = isspace d).
        { cbn [str_rstrip] in Er. destruct (isspace d) eqn:Hd; cbn [andb] in Er.
          - destruct (str_rstrip r0); cbn [nonempty negb] in Er;
              [discriminate | inversion Er; subst; exact Hd].
          - inversion Er; subst; exact Hd. }
        rewrite Hd. rewrite IH. reflexivity.
Qed.

(** Stripping does not change the tokens. *)
Lemma str_strip_split s : str_split (str_strip s) = str_split s.
Proof. unfold str_strip. rewrite str_rstrip_split. apply str_lstrip_split. Qed.

(** ** Coordinate lists *)

Lemma list_pair_ind {A} (P : list A -> Prop) :
  P [] -> (forall a, P [a]) -> (forall a b l, P l -> P (a :: b :: l)) ->
  forall l, P l.
Proof.
  intros H0 H1 H2. fix IH 1. intros [|a [|b l]]; [exact H0 | apply H1 |].
  apply H2, IH.
Qed.

Lemma coord_pairs_length values lat lon :
  List.length (coord_pairs values lat lon) = Nat.div2 (List.length values).
Proof.
  induction values as [| a | a b l IH] using list_pair_ind; try reflexivity.
  cbn [coord_pairs List.length Nat.div2]. now rewrite IH.
Qed.

Lemma coord_pairs_removelast values lat lon :
  Nat.odd (List.length values) = true ->
  coord_pairs values lat lon = coord_pairs (removelast values) lat lon.
Proof.
  induction values as [| a | a b l IH] using list_pair_ind; intro Hodd.
  - discriminate.
  - reflexivity.
  - destruct l as [|c l']; [discriminate|].
    change (removelast (a :: b :: c :: l')) with (a :: b :: removelast (c :: l')).
    cbn [coord_pairs]. f_equal. apply IH. exact Hodd.
Qed.

Lemma coord_pairs_nth values lat lon :
  forall k v0 v1,
    nth_error values (2 * k) = Some v0 ->
    nth_error values (2 * k + 1) = Some v1 ->
    nth_error (coord_pairs values lat lon) k = Some (shift_pair v0 v1 lat lon).
Proof.
  induction values as [| a | a b l IH] using list_pair_ind; intros k v0 v1 H0 H1.
  - destruct k; discriminate.
  - destruct k as [|k]; [discriminate|].
    replace (2 * S k) with (S (S (2 * k))) in H0 by lia. destruct k; discriminate.
  - destruct k as [|k].
    + simpl in H0, H1. inversion H0; inversion H1; subst. reflexivity.
    + replace (2 * S k) with (S (S (2 * k))) in H0 by lia.
      replace (2 * S k + 1) with (S (S (2 * k + 1))) in H1 by lia.
      cbn [nth_error] in H0, H1. cbn [coord_pairs nth_error]. now apply IH.
Qed.

Lemma shift_pair_cases v0 v1 lat_offset lon_offset :
  shift_pair v0 v1 lat_offset lon_offset
  = match py_float v0, py_float v1 with
    | Some lat, Some lon =>
        float_repr (lat + lat_offset) ^^ " " ^^ float_repr (lon + lon_offset)
    | _, _ => v0 ^^ " " ^^ v1
    end.
Proof. unfold shift_pair. destruct (py_float v0), (py_float v1); reflexivity. Qed.

Lemma shift_pair_two_tokens v0 v1 lat lon :
  (forall f, is_token (float_repr f) = true) ->
  is_token v0 = true -> is_token v1 = true ->
  List.length (str_split (shift_pair v0 v1 lat lon)) = 2.
Proof.
  intros Hr H0 H1. rewrite shift_pair_cases.
  destruct (py_float v0), (py_float v1); now rewrite str_split_two.
Qed.

Lemma coord_pairs_two_tokens values lat lon :
  (forall f, is_token (float_repr f) = true) ->
  Forall (fun t => is_token t = true) values ->
  Forall (fun p => List.length (str_split p) = 2) (coord_pairs values lat lon).
Proof.
  intro Hr.
  induction values as [| a | a b l IH] using list_pair_ind; intro Hv;
    [constructor | constructor |].
  inversion Hv as [|? ? Ha Hv']; subst. inversion Hv' as [|? ? Hb Hl]; subst.
  cbn [coord_pairs]. constructor; [now apply shift_pair_two_tokens | now apply IH].
Qed.

Lemma wrap_step_tokens m lines current pair :
  List.concat (map str_split (fst (wrap_step m (lines, current) pair)))
  ++ str_split (snd (wrap_step m (lines, current) pair))
  = (List.concat (map str_split lines) ++ str_split current) ++ str_split pair.
Proof.
  unfold wrap_step. destruct current as [|c r]; cbn [nonempty].
  - rewrite andb_false_r. cbn [fst snd str_split]. now rewrite app_nil_r.
  - rewrite andb_true_r.
    destruct (Nat.ltb m (String.length (String c r ^^ " " ^^ pair))); cbn [fst snd].
    + rewrite map_app, concat_app. cbn [map List.concat]. now rewrite app_nil_r.
    + change (" " ^^ pair) with (String " "%char pair).
      rewrite str_split_app_ws by reflexivity. now rewrite app_assoc.
Qed.

Lemma wrap_fold_tokens m pairs :
  forall st,
    List.concat (map str_split (fst (fold_left (wrap_step m) pairs st)))
    ++ str_split (snd (fold_left (wrap_step m) pairs st))
    = (List.concat (map str_split (fst st)) ++ str_split (snd st))
      ++ List.concat (map str_split pairs).
Proof.
  induction pairs as [|p r IH]; intros [lines current].
  - cbn [fold_left map List.concat]. now rewrite app_nil_r.
  - cbn [fold_left map List.concat]. rewrite IH.
    destruct (wrap_step m (lines, current) p) as [l' c'] eqn:E.
    pose proof (wrap_step_tokens m lines current p) as H. rewrite E in H.
    rewrite H. cbn [fst snd]. now rewrite <- app_assoc.
Qed.

(** The wrapping puts every pair on some line, in order. *)
Lemma wrap_lines_tokens m pairs :
  List.concat (map str_split (wrap_lines m pairs))
  = List.concat (map str_split pairs).
Proof.
  unfold wrap_lines. pose proof (wrap_fold_tokens m pairs ([], "")) as H.
  destruct (fold_left (wrap_step m) pairs ([], "")) as [lines current].
  cbn [fst snd map List.concat str_split app] in H. rewrite <- H.
  destruct current as [|c r]; cbn [nonempty].
  - cbn [str_split]. now rewrite app_nil_r.
  - rewrite map_app, concat_app. cbn [map List.concat]. now rewrite app_nil_r.
Qed.

Lemma length_concat_two {A} (l : list (list A)) :
  Forall (fun p => List.length p = 2) l ->
  List.length (List.concat l) = 2 * List.length l.
Proof.
  induction 1 as [|p r Hp _ IH]; [reflexivity|].
  cbn [List.concat List.length]. rewrite length_app, Hp, IH. lia.
Qed.

(** C10: on a coordinate list with an odd number of tokens
    [offset_pos_list] drops the last one: the pairs are those of the list
    without its last token, there are [n / 2] of them, each is the shifted
    pair when both tokens parse and the two tokens as they are otherwise,
    and the text returned has [2 * (n / 2)] tokens (when the text of a
    float is one token). *)
Theorem offset_pos_list_odd_drops_last :
  forall pos_list_str lat_offset lon_offset max_line_length,
    let values := str_split (str_strip pos_list_str) in
    Nat.odd (List.length values) = true ->
    let pairs := coord_pairs (removelast values) lat_offset lon_offset in
    offset_pos_list pos_list_str lat_offset lon_offset max_line_length
    = str_join newline (wrap_lines max_line_length pairs)
    /\ List.length pairs = List.length values / 2
    /\ (forall k v0 v1,
           nth_error values (2 * k) = Some v0 ->
           nth_error values (2 * k + 1) = Some v1 ->
           nth_error pairs k
           = Some
               match py_float v0, py_float v1 with
               | Some lat, Some lon =>
                   float_repr (lat + lat_offset) ^^ " "
                   ^^ float_repr (lon + lon_offset)
               | _, _ => v0 ^^ " " ^^ v1
               end)
    /\ str_split (offset_pos_list pos_list_str lat_offset lon_offset
                    max_line_length)
       = List.concat (map str_split pairs)
    /\ ((forall f, is_token (float_repr f) = true) ->
        List.length
          (str_split (offset_pos_list pos_list_str lat_offset lon_offset
                        max_line_length))
        = 2 * (List.length values / 2)
        /\ 2 * (List.length values / 2) = List.length values - 1).
Proof.
  intros s lat lon m values Hodd pairs.
  assert (Hp : pairs = coord_pairs values lat lon).
  { symmetry. now apply coord_pairs_removelast. }
  assert (Hlen : List.length pairs = List.length values / 2).
  { rewrite Hp, coord_pairs_length. apply Nat.div2_div. }
  assert (Hsplit :
            str_split (offset_pos_list s lat lon m)
            = List.concat (map str_split pairs)).
  { unfold offset_pos_list. fold values. rewrite <- Hp.
    rewrite str_split_join_newline. apply wrap_lines_tokens. }
  split; [| split; [exact Hlen | split; [| split; [exact Hsplit |]]]].
  - unfold offset_pos_list. fold values. now rewrite <- Hp.
  - intros k v0 v1 H0 H1. rewrite Hp, <- shift_pair_cases.
    now apply coord_pairs_nth.
  - intro Hr. split.
    + rewrite Hsplit, length_concat_two.
      * rewrite length_map. now rewrite Hlen.
      * apply Forall_map. rewrite Hp. apply coord_pairs_two_tokens; [exact Hr|].
        apply str_split_tokens.
    + rewrite (Nat.div_mod_eq (List.length values) 2) at 2.
      assert (List.length values mod 2 = 1).
      { rewrite <- Nat.bit0_mod. unfold Nat.odd in Hodd.
        rewrite Nat.bit0_odd. unfold Nat.odd. now rewrite Hodd. }
      lia.
Qed.

(** ** Trees *)

Lemma Element_ind' (P : Element -> Prop) :
  (forall t a x cs, Forall P cs -> P (Elem t a x cs)) -> forall e, P e.
Proof.
  intros H. fix IH 1. intros [t a x cs]. apply H.
  induction cs as [|c r IHr]; constructor; [apply IH | exact IHr].
Qed.

Lemma find_app {A} (p : A -> bool) (l1 l2 : list A) :
  List.find p (l1 ++ l2)
  = match List.find p l1 with
    | Some x => Some x
    | None => List.find p l2
    end.
Proof.
  induction l1 as [|a l1 IH]; [reflexivity|].
  cbn [app List.find]. destruct (p a); [reflexivity | exact IH].
Qed.

Lemma elem_iter_eq e :
  elem_iter e = e :: List.concat (map elem_iter (children e)).
Proof. destruct e; reflexivity. Qed.

Lemma find_first_eq p e :
  find_first p e = if p e then Some e else find_first_desc p e.
Proof. unfold find_first, find_first_desc. rewrite elem_iter_eq. reflexivity. Qed.

Lemma find_first_sat p e t : find_first p e = Some t -> p t = true.
Proof. unfold find_first. intro H. now apply find_some in H. Qed.

Lemma find_first_desc_sat p e t : find_first_desc p e = Some t -> p t = true.
Proof. unfold find_first_desc. intro H. now apply find_some in H. Qed.

(** [update_first] changes the node that [find_first] finds, and the
    changed node is the one found afterwards. *)
Lemma update_first_in_find p f :
  (forall x, p x = true -> p (f x) = true) ->
  forall cs,
    Forall
      (fun e =>
         match find_first p e with
         | Some t =>
             exists e', update_first p f e = Some e'
                        /\ find_first p e' = Some (f t)
         | None => update_first p f e = None
         end) cs ->
    match List.find p (List.concat (map elem_iter cs)) with
    | Some t =>
        exists cs', update_first_in (update_first p f) cs = Some cs'
                    /\ List.find p (List.concat (map elem_iter cs')) = Some (f t)
    | None => update_first_in (update_first p f) cs = None
    end.
Proof.
  intros Hp cs Hcs. induction Hcs as [|c r Hc _ IH]; [reflexivity|].
  cbn [map List.concat update_first_in]. rewrite find_app.
  unfold find_first in Hc.
  destruct (List.find p (elem_iter c)) as [t|] eqn:Ec.
  - destruct Hc as (c' & Hu & Hf). rewrite Hu. eexists. split; [reflexivity|].
    cbn [map List.concat]. rewrite find_app. unfold find_first in Hf.
    now rewrite Hf.
  - rewrite Hc.
    destruct (List.find p (List.concat (map elem_iter r))) as [t|] eqn:Er.
    + destruct IH as (r' & Hu & Hf). rewrite Hu. eexists. split; [reflexivity|].
      cbn [map List.concat]. rewrite find_app, Ec. exact Hf.
    + rewrite IH. reflexivity.
Qed.

Lemma update_first_find p f :
  (forall t a x cs a' x' cs', p (Elem t a x cs) = p (Elem t a' x' cs')) ->
  (forall x, p x = true -> p (f x) = true) ->
  forall e,
    match find_first p e with
    | Some t =>
        exists e', update_first p f e = Some e' /\ find_first p e' = Some (f t)
    | None => update_first p f e = None
    end.
Proof.
  intros Htag Hp. induction e as [t a x cs IH] using Element_ind'.
  rewrite find_first_eq. cbn [update_first].
  destruct (p (Elem t a x cs)) eqn:E.
  - eexists. split; [reflexivity|]. rewrite find_first_eq. now rewrite Hp.
  - pose proof (update_first_in_find p f Hp cs IH) as H.
    unfold find_first_desc. cbn [children].
    destruct (List.find p (List.concat (map elem_iter cs))) as [u|].
    + destruct H as (cs' & Hu & Hf). rewrite Hu. eexists. split; [reflexivity|].
      rewrite find_first_eq. rewrite (Htag t a x cs' a x cs), E.
      unfold find_first_desc. exact Hf.
    + rewrite H. reflexivity.
Qed.

Lemma update_first_desc_find p f :
  (forall t a x cs a' x' cs', p (Elem t a x cs) = p (Elem t a' x' cs')) ->
  (forall x, p x = true -> p (f x) = true) ->
  forall e,
    match find_first_desc p e with
    | Some t =>
        exists e', update_first_desc p f e = Some e'
                   /\ find_first_desc p e' = Some (f t)
    | None => update_first_desc p f e = None
    end.
Proof.
  intros Htag Hp e.
  assert (Hcs : Forall
                  (fun e =>
                     match find_first p e with
                     | Some t =>
                         exists e', update_first p f e = Some e'
                                    /\ find_first p e' = Some (f t)
                     | None => update_first p f e = None
                     end) (children e)).
  { apply Forall_forall. intros c _. now apply update_first_find. }
  pose proof (update_first_in_find p f Hp (children e) Hcs) as H.
  unfold find_first_desc, update_first_desc.
  destruct (List.find p (List.concat (map elem_iter (children e)))) as [u|].
  - destruct H as (cs' & Hu & Hf). rewrite Hu. eexists. split; [reflexivity|].
    destruct e; exact Hf.
  - rewrite H. reflexivity.
Qed.

Lemma tag_contains_node pat t a x cs a' x' cs' :
  tag_contains pat (Elem t a x cs) = tag_contains pat (Elem t a' x' cs').
Proof. reflexivity. Qed.

Lemma dict_get_set_same {V} (d : dict V) k v : dict_get (dict_set d k v) k = Some v.
Proof.
  induction d as [|[k' v'] r IH]; cbn [dict_set dict_get].
  - now rewrite String.eqb_refl.
  - destruct (String.eqb k' k) eqn:E; cbn [dict_get]; rewrite E; auto.
Qed.

Lemma dict_get_set_other {V} (d : dict V) k k' v :
  k' <> k -> dict_get (dict_set d k v) k' = dict_get d k'.
Proof.
  intro Hk. induction d as [|[k0 v0] r IH]; cbn [dict_set dict_get].
  - destruct (String.eqb_spec k k'); [congruence | reflexivity].
  - destruct (String.eqb_spec k0 k) as [->|Hne]; cbn [dict_get].
    + destruct (String.eqb_spec k k'); [congruence | reflexivity].
    + destruct (String.eqb k0 k'); [reflexivity | exact IH].
Qed.

(** ** Identifiers *)

Lemma find_update_child_text p name x cs :
  (forall c, tag_is name c = true -> p c = false) ->
  (forall c, p (set_text x c) = p c) ->
  List.find p (List.concat (map elem_iter (update_child_in name (set_text x) cs)))
  = List.find p (List.concat (map elem_iter cs)).
Proof.
  intros Hname Hp. induction cs as [|c r IH]; [reflexivity|].
  cbn [update_child_in]. destruct (tag_is name c) eqn:E.
  - cbn [map List.concat]. rewrite !find_app.
    rewrite (elem_iter_eq (set_text x c)), (elem_iter_eq c).
    cbn [List.find]. rewrite Hp, (Hname c E). destruct c; reflexivity.
  - cbn [map List.concat]. rewrite !find_app, IH. reflexivity.
Qed.

Lemma is_timeslice_identifier c :
  tag_is GML_IDENTIFIER c = true -> is_timeslice c = false.
Proof.
  unfold tag_is, is_timeslice, tag_contains. destruct (tag c) as [t|]; [|discriminate].
  intro H. apply String.eqb_eq in H. subst t. reflexivity.
Qed.

Lemma find_timeslice_after_ids e new_uuid :
  find_first_desc is_timeslice
    (update_child GML_IDENTIFIER (set_text (Some new_uuid))
       (elem_set e GML_ID ("uuid." ^^ new_uuid)))
  = find_first_desc is_timeslice e.
Proof.
  unfold find_first_desc, update_child. destruct e as [t a x cs].
  cbn [elem_set set_children children tag attrib text].
  apply find_update_child_text; [apply is_timeslice_identifier|].
  intros [? ? ? ?]; reflexivity.
Qed.

Lemma is_timeslice_retag ts_id x :
  is_timeslice x = true -> is_timeslice (retag_timeslice ts_id x) = true.
Proof. destruct x; intro H; exact H. Qed.

Lemma elem_get_retag ts_id ts :
  is_timeslice ts = true -> elem_get (retag_timeslice ts_id ts) GML_ID = Some ts_id.
Proof.
  destruct ts as [[t|] a x cs]; [|discriminate]. intros _.
  unfold retag_timeslice, elem_get, elem_set, set_children.
  cbn [tag attrib text children]. apply dict_get_set_same.
Qed.

Lemma read_number_default timeslice name default :
  truthy (text_of (elem_find timeslice name)) = false ->
  read_number timeslice name default = Ok default.
Proof.
  unfold read_number, truthy.
  destruct (text_of (elem_find timeslice name)) as [s|]; [|reflexivity].
  now intros ->.
Qed.

(** With a version-block and its two numbers read, the identifiers are
    rewritten and the version-block carries the composed [gml:id]. *)
Lemma update_feature_ids_timeslice e new_uuid ts seq corr :
  find_first_desc is_timeslice e = Some ts ->
  read_number ts AIXM_SEQUENCE_NUMBER 1 = Ok seq ->
  read_number ts AIXM_CORRECTION_NUMBER 0 = Ok corr ->
  exists e',
    update_feature_ids e new_uuid = Ok e'
    /\ find_first_desc is_timeslice e'
       = Some (retag_timeslice (timeslice_id new_uuid seq corr) ts)
    /\ elem_get (retag_timeslice (timeslice_id new_uuid seq corr) ts) GML_ID
       = Some (timeslice_id new_uuid seq corr).
Proof.
  intros Hts Hseq Hcorr. unfold update_feature_ids.
  rewrite find_timeslice_after_ids, Hts. cbn [rbind]. rewrite Hseq, Hcorr.
  cbn [rbind].
  pose proof (update_first_desc_find is_timeslice
                (retag_timeslice (timeslice_id new_uuid seq corr))
                (tag_contains_node "TimeSlice")
                (is_timeslice_retag _)
                (update_child GML_IDENTIFIER (set_text (Some new_uuid))
                   (elem_set e GML_ID ("uuid." ^^ new_uuid)))) as H.
  rewrite find_timeslice_after_ids, Hts in H.
  destruct H as (e' & Hu & Hf). rewrite Hu. cbn [or_else].
  exists e'. split; [reflexivity|]. split; [exact Hf|].
  apply elem_get_retag. now apply find_first_desc_sat in Hts.
Qed.

(** C9: a version-block without a sequence number, or with an empty one,
    is numbered 1, and one without a correction number, or with an empty
    one, is numbered 0: [update_feature_ids] returns, and the version-block
    of the result carries the [gml:id] built from these numbers. *)
Theorem update_feature_ids_defaults :
  forall feature_elem new_uuid timeslice,
    find_first_desc is_timeslice feature_elem = Some timeslice ->
    let no_seq :=
      negb (truthy (text_of (elem_find timeslice AIXM_SEQUENCE_NUMBER))) in
    let no_corr :=
      negb (truthy (text_of (elem_find timeslice AIXM_CORRECTION_NUMBER))) in
    let done seq corr :=
      exists e' ts',
        update_feature_ids feature_elem new_uuid = Ok e'
        /\ find_first_desc is_timeslice e' = Some ts'
        /\ elem_get ts' GML_ID
           = Some ("id_" ^^ new_uuid ^^ "_" ^^ str_of_int seq ^^ "_"
                   ^^ str_of_int corr ^^ "_B") in
    (no_seq = true ->
     forall corr,
       read_number timeslice AIXM_CORRECTION_NUMBER 0 = Ok corr -> done 1%Z corr)
    /\ (no_corr = true ->
        forall seq,
          read_number timeslice AIXM_SEQUENCE_NUMBER 1 = Ok seq -> done seq 0%Z)
    /\ (no_seq = true -> no_corr = true -> done 1%Z 0%Z).
Proof.
  intros e u ts Hts no_seq no_corr done.
  assert (Hgen : forall seq corr,
             read_number ts AIXM_SEQUENCE_NUMBER 1 = Ok seq ->
             read_number ts AIXM_CORRECTION_NUMBER 0 = Ok corr -> done seq corr).
  { intros seq corr Hs Hc.
    destruct (update_feature_ids_timeslice e u ts seq corr Hts Hs Hc)
      as (e' & He & Hf & Hg).
    exists e', (retag_timeslice (timeslice_id u seq corr) ts). auto. }
  subst no_seq no_corr. repeat split.
  - intros Hs corr Hc. apply negb_true_iff in Hs.
    apply Hgen; [now apply read_number_default | exact Hc].
  - intros Hc seq Hs. apply negb_true_iff in Hc.
    apply Hgen; [exact Hs | now apply read_number_default].
  - intros Hs Hc. apply negb_true_iff in Hs. apply negb_true_iff in Hc.
    apply Hgen; now apply read_number_default.
Qed.

(** ** Sets and folds *)

Lemma set_mem_In x s : set_mem x s = true <-> In x s.
Proof.
  unfold set_mem. rewrite existsb_exists. split.
  - intros (y & Hy & E). apply String.eqb_eq in E. now subst.
  - intro H. exists x. split; [exact H | apply String.eqb_refl].
Qed.

Lemma set_mem_add x s y :
  set_mem x (set_add s y) = set_mem x s || String.eqb x y.
Proof.
  unfold set_add. destruct (set_mem y s) eqn:E.
  - destruct (String.eqb_spec x y) as [->|_]; [now rewrite E | now rewrite orb_false_r].
  - unfold set_mem. rewrite existsb_app. cbn [existsb]. now rewrite orb_false_r.
Qed.

Lemma set_mem_add_keep x s y : set_mem x s = true -> set_mem x (set_add s y) = true.
Proof. intro H. now rewrite set_mem_add, H. Qed.

Lemma set_mem_add_new s y : set_mem y (set_add s y) = true.
Proof. now rewrite set_mem_add, String.eqb_refl, orb_true_r. Qed.

(** A fold that returns has gone through every step: a relation kept by
    every step holds from the start to the end, and what a step
    establishes, if later steps keep it, holds at the end. *)
Lemma rfold_ok {A S} (f : S -> A -> result S) (R : S -> S -> Prop)
      (G : A -> S -> Prop) :
  (forall s, R s s) ->
  (forall s1 s2 s3, R s1 s2 -> R s2 s3 -> R s1 s3) ->
  (forall a s s', G a s -> R s s' -> G a s') ->
  (forall s a s', f s a = Ok s' -> R s s' /\ G a s') ->
  forall l s s',
    rfold f l s = Ok s' -> R s s' /\ forall a, In a l -> G a s'.
Proof.
  intros Hrefl Htrans Hkeep Hstep. induction l as [|a l IH]; intros s s' H.
  - inversion H; subst. split; [apply Hrefl | intros ? []].
  - cbn [rfold] in H. apply rbind_ok in H as (s1 & H1 & H2).
    apply Hstep in H1 as [HR HG]. apply IH in H2 as [HR2 HG2].
    split; [eapply Htrans; eauto|].
    intros b [<-|Hb]; [eapply Hkeep; eauto | now apply HG2].
Qed.

(** ** The two passes over navaids and their equipment *)

Lemma mark_equipment_ok features_by_type marked ref_uuid marked' :
  mark_equipment features_by_type marked ref_uuid = Ok marked' ->
  (forall x, set_mem x marked = true -> set_mem x marked' = true)
  /\ forall eq_type feats,
      In eq_type NAVAID_EQUIPMENT_TYPES ->
      dict_get features_by_type eq_type = Some feats ->
      dict_mem feats ref_uuid = true ->
      set_mem ref_uuid marked' = true.
Proof.
  unfold mark_equipment. intro H.
  apply (rfold_ok _
           (fun s s' => forall x, set_mem x s = true -> set_mem x s' = true)
           (fun eq_type s =>
              forall feats,
                dict_get features_by_type eq_type = Some feats ->
                dict_mem feats ref_uuid = true -> set_mem ref_uuid s = true))
    in H.
  - destruct H as [HR HG]. split; [exact HR|]. intros eq_type feats Hin. now apply HG.
  - auto.
  - auto.
  - intros a s s' HG HR feats Hf Hm. apply HR. eapply HG; eauto.
  - intros s a s' Hs. apply rbind_ok in Hs as (feats & Hi & Hs).
    inversion Hs; subst; clear Hs. unfold dict_index in Hi.
    destruct (dict_get features_by_type a) as [fs|] eqn:E; [|discriminate].
    inversion Hi; subst. split.
    + intros x Hx. destruct (dict_mem feats ref_uuid); [now apply set_mem_add_keep | exact Hx].
    + intros feats' Hf Hm. inversion Hf; subst. rewrite Hm. apply set_mem_add_new.
Qed.

Lemma topdown_pass_ok st features_by_type eadd_navaid_uuids marked :
  topdown_pass st features_by_type eadd_navaid_uuids = Ok marked ->
  (forall x, set_mem x eadd_navaid_uuids = true -> set_mem x marked = true)
  /\ forall navaids nav_uuid nav_ref nav_elem eq_type equipment eq_uuid,
      dict_get features_by_type "Navaid" = Some navaids ->
      dict_get navaids nav_uuid = Some nav_ref ->
      deref st nav_ref = Ok nav_elem ->
      set_mem nav_uuid eadd_navaid_uuids = true ->
      In eq_type NAVAID_EQUIPMENT_TYPES ->
      dict_get features_by_type eq_type = Some equipment ->
      dict_mem equipment eq_uuid = true ->
      set_mem eq_uuid (get_xlink_hrefs nav_elem) = true ->
      set_mem eq_uuid marked = true.
Proof.
  unfold topdown_pass. intro H.
  apply (rfold_ok _
           (fun s s' => forall x, set_mem x s = true -> set_mem x s' = true)
           (fun nav_uuid s =>
              forall navaids nav_ref nav_elem eq_type equipment eq_uuid,
                dict_get features_by_type "Navaid" = Some navaids ->
                dict_get navaids nav_uuid = Some nav_ref ->
                deref st nav_ref = Ok nav_elem ->
                In eq_type NAVAID_EQUIPMENT_TYPES ->
                dict_get features_by_type eq_type = Some equipment ->
                dict_mem equipment eq_uuid = true ->
                set_mem eq_uuid (get_xlink_hrefs nav_elem) = true ->
                set_mem eq_uuid s = true))
    in H.
  - destruct H as [HR HG]. split; [exact HR|].
    intros navaids nav_uuid nav_ref nav_elem eq_type equipment eq_uuid
           Hn Hr He Hm Hin Hq Hd Hl.
    apply set_mem_In in Hm. eapply HG; eauto.
  - auto.
  - auto.
  - intros a s s' HG HR. intros. apply HR. eapply HG; eauto.
  - intros s nav_uuid s' Hs.
    destruct (dict_get (or_else (dict_get features_by_type "Navaid") []) nav_uuid)
      as [r0|] eqn:E.
    + apply rbind_ok in Hs as (navaids & Hn & Hs).
      apply rbind_ok in Hs as (felem & Hf & Hs).
      apply rbind_ok in Hs as (refs & Hr & Hs).
      unfold hrefs_at in Hr. apply rbind_ok in Hr as (e & He & Hr).
      inversion Hr; subst refs; clear Hr.
      unfold dict_index in Hn, Hf.
      destruct (dict_get features_by_type "Navaid") as [nv|] eqn:En; [|discriminate].
      inversion Hn; subst nv; clear Hn.
      destruct (dict_get navaids nav_uuid) as [fr|] eqn:Ef; [|discriminate].
      inversion Hf; subst fr; clear Hf.
      apply (rfold_ok _
               (fun s s' => forall x, set_mem x s = true -> set_mem x s' = true)
               (fun ref_uuid s =>
                  forall eq_type feats,
                    In eq_type NAVAID_EQUIPMENT_TYPES ->
                    dict_get features_by_type eq_type = Some feats ->
                    dict_mem feats ref_uuid = true -> set_mem ref_uuid s = true))
        in Hs.
      * destruct Hs as [HR HG]. split; [exact HR|].
        intros navaids' nav_ref nav_elem eq_type equipment eq_uuid
               Hn' Hr' He' Hin Hq Hd Hl.
        inversion Hn'; subst navaids'. rewrite Ef in Hr'. inversion Hr'; subst nav_ref.
        rewrite He in He'. inversion He'; subst nav_elem.
        apply set_mem_In in Hl. eapply HG; eauto.
      * auto.
      * auto.
      * intros a s1 s2 HG HR eq_type feats Hin Hq Hd. apply HR. eapply HG; eauto.
      * intros s1 a s2 Hm. now apply mark_equipment_ok in Hm.
    + inversion Hs; subst s'. split; [auto|].
      intros navaids nav_ref nav_elem eq_type equipment eq_uuid Hn Hr.
      rewrite Hn in E. cbn [or_else] in E. congruence.
Qed.

(** C3: when the collection returns, every equipment record that a navaid
    marked by the end of the bottom-up pass links to is in the set
    returned, whether the bottom-up pass marked that record or not; the
    marks of the bottom-up pass are kept. *)
Theorem topdown_marks_linked_equipment :
  forall st features_by_type collected eadd_navaid_uuids,
    collect_eadd_features st features_by_type
    = Ok (RetPair collected eadd_navaid_uuids) ->
    exists ahp collected0 collected1 marked_bottom_up,
      airport_closure st features_by_type ahp = Ok collected0
      /\ bottom_up st features_by_type collected0
         = Ok (collected1, marked_bottom_up)
      /\ (forall x,
             set_mem x marked_bottom_up = true ->
             set_mem x eadd_navaid_uuids = true)
      /\ forall navaids nav_uuid nav_ref nav_elem eq_type equipment eq_uuid,
          dict_get features_by_type "Navaid" = Some navaids ->
          dict_get navaids nav_uuid = Some nav_ref ->
          deref st nav_ref = Ok nav_elem ->
          set_mem nav_uuid marked_bottom_up = true ->
          In eq_type NAVAID_EQUIPMENT_TYPES ->
          dict_get features_by_type eq_type = Some equipment ->
          dict_mem equipment eq_uuid = true ->
          set_mem eq_uuid (get_xlink_hrefs nav_elem) = true ->
          set_mem eq_uuid eadd_navaid_uuids = true.
Proof.
  intros st fbt collected lr H. unfold collect_eadd_features in H.
  apply rbind_ok in H as (airports & _ & H).
  destruct (dict_get airports EADD_UUID) as [ahp|]; [|discriminate].
  apply rbind_ok in H as (c0 & H0 & H).
  apply rbind_ok in H as ([c1 lr_bu] & H1 & H).
  apply rbind_ok in H as (lr' & H2 & H).
  apply rbind_ok in H as (c2 & _ & H).
  apply rbind_ok in H as (c3 & _ & H).
  inversion H; subst; clear H.
  exists ahp, c0, c1, lr_bu. split; [exact H0|]. split; [exact H1|].
  now apply topdown_pass_ok in H2.
Qed.

(** ** The store *)

Lemma deref_app_len st e : deref (st ++ [e]) (List.length st) = Ok e.
Proof. unfold deref. rewrite nth_error_app2, Nat.sub_diag by lia. reflexivity. Qed.

Lemma list_set_app_len {A} (st : list A) e e' :
  list_set (st ++ [e]) (List.length st) e' = st ++ [e'].
Proof. induction st as [|a st IH]; [reflexivity|]. cbn. now rewrite IH. Qed.

Lemma mutate_new st d e f :
  mutate (List.length st) f (mkState (st ++ [e]) d)
  = (e' <- f e ;; Ok (tt, mkState (st ++ [e']) d)).
Proof.
  unfold mutate. cbn [store drawn]. rewrite deref_app_len. cbn [rbind].
  destruct (f e) as [e'|x]; [|reflexivity]. cbn [rbind].
  now rewrite list_set_app_len.
Qed.

Lemma when_mutate_new b st d e f :
  when b (mutate (List.length st) (fun e => Ok (f e))) (mkState (st ++ [e]) d)
  = Ok (tt, mkState (st ++ [if b then f e else e]) d).
Proof. destruct b; [apply mutate_new | reflexivity]. Qed.

(** The loop body of [clone_feature_set] allocates one cell, the clone of
    the element it is given, and leaves the other cells as they are. *)
Lemma clone_one_eq index offset offset_nav uuid_map lr old_uuid feat_type orig s :
  clone_one index offset offset_nav uuid_map lr (old_uuid, (feat_type, orig)) s
  = (e <- deref (store s) orig ;;
     new_uuid <- dict_index uuid_map old_uuid ;;
     e' <- clone_element index offset offset_nav uuid_map lr
             old_uuid feat_type new_uuid e ;;
     Ok ((feat_type, List.length (store s)),
         mkState (store s ++ [e']) (drawn s))).
Proof.
  destruct s as [st d]. unfold clone_one, clone_element. cbn [store drawn].
  unfold mbind at 1. unfold deepcopy. cbn [store drawn].
  destruct (deref st orig) as [e|x]; [|reflexivity]. cbn [rbind].
  unfold mbind at 1. unfold mlift.
  destruct (dict_index uuid_map old_uuid) as [new_uuid|x]; [|reflexivity].
  cbn [rbind]. unfold mbind at 1. rewrite mutate_new.
  destruct (update_feature_ids e new_uuid) as [e1|x]; [|reflexivity].
  cbn [rbind]. unfold mbind at 1. rewrite mutate_new. cbn [rbind].
  unfold mbind at 1. unfold uses_reduced_offset.
  destruct (in_list feat_type navaid_types && negb (set_mem old_uuid lr));
    rewrite mutate_new; cbn [rbind];
    (unfold mbind at 1; rewrite when_mutate_new;
     unfold mbind at 1; rewrite when_mutate_new;
     unfold mbind at 1; rewrite when_mutate_new;
     unfold mbind at 1; rewrite when_mutate_new;
     reflexivity).
Qed.

Lemma build_uuid_map_eq keys :
  forall uuid_map s,
    build_uuid_map keys uuid_map s
    = Ok (uuid_map_from keys uuid_map (drawn s),
          mkState (store s) (drawn s + List.length keys)).
Proof.
  induction keys as [|k r IH]; intros m [st d].
  - cbn. now rewrite Nat.add_0_r.
  - cbn [build_uuid_map uuid_map_from]. unfold mbind, generate_new_uuid.
    cbn [store drawn]. rewrite IH. cbn [store drawn List.length].
    do 2 f_equal. f_equal. lia.
Qed.

Lemma mfor_length {A B} (f : A -> M B) :
  forall l s bs s', mfor f l s = Ok (bs, s') -> List.length bs = List.length l.
Proof.
  induction l as [|a l IH]; intros s bs s' H.
  - inversion H. reflexivity.
  - cbn [mfor] in H. apply mbind_ok in H as (b & s1 & _ & H).
    apply mbind_ok in H as (bs' & s2 & H & H').
    inversion H'; subst. cbn [List.length]. f_equal. eapply IH; eauto.
Qed.

(** What the loop of [clone_feature_set] leaves: the cells that were
    there, followed by one clone for each item, in order. *)
Lemma mfor_clone_one index offset offset_nav uuid_map lr :
  forall items s cloned s',
    mfor (clone_one index offset offset_nav uuid_map lr) items s
    = Ok (cloned, s') ->
    drawn s' = drawn s
    /\ exists clones,
        store s' = store s ++ clones
        /\ List.length clones = List.length items
        /\ forall k old_uuid feat_type orig,
            nth_error items k = Some (old_uuid, (feat_type, orig)) ->
            exists e new_uuid e',
              deref (store s ++ firstn k clones) orig = Ok e
              /\ dict_index uuid_map old_uuid = Ok new_uuid
              /\ clone_element index offset offset_nav uuid_map lr
                   old_uuid feat_type new_uuid e = Ok e'
              /\ nth_error clones k = Some e'
              /\ nth_error cloned k
                 = Some (feat_type, List.length (store s) + k).
Proof.
  induction items as [|[old_uuid [feat_type orig]] items IH];
    intros s cloned s' H.
  - inversion H; subst. split; [reflexivity|]. exists [].
    split; [now rewrite app_nil_r|]. split; [reflexivity|].
    intros [|k]; discriminate.
  - cbn [mfor] in H. apply mbind_ok in H as (b & s1 & H1 & H).
    apply mbind_ok in H as (bs & s2 & H2 & H3). inversion H3; subst; clear H3.
    rewrite clone_one_eq in H1.
    apply rbind_ok in H1 as (e & He & H1).
    apply rbind_ok in H1 as (new_uuid & Hn & H1).
    apply rbind_ok in H1 as (e' & Hc & H1). inversion H1; subst; clear H1.
    apply IH in H2 as (Hd & clones & Hs & Hl & Hk). cbn [store drawn] in *.
    split; [exact Hd|]. exists (e' :: clones).
    split; [now rewrite Hs, <- app_assoc|]. split; [cbn; now rewrite Hl|].
    intros [|k] old ft r Hnth.
    + inversion Hnth; subst. exists e, new_uuid, e'. cbn [firstn].
      rewrite app_nil_r, Nat.add_0_r. auto.
    + cbn [nth_error] in Hnth. apply Hk in Hnth as (e0 & n0 & e0' & H1 & H2 & H3 & H4 & H5).
      exists e0, n0, e0'. cbn [firstn nth_error].
      rewrite <- app_assoc in H1. cbn [app] in H1.
      rewrite length_app in H5. cbn [List.length] in H5.
      replace (List.length (store s) + 1 + k) with (List.length (store s) + S k) in H5 by lia.
      auto.
Qed.

Lemma clone_feature_set_ok collected index grid_cols distance_nm lr s cloned new_ahp s' :
  clone_feature_set collected index grid_cols distance_nm lr s
  = Ok ((cloned, new_ahp), s') ->
  exists offset offset_nav clones,
    calculate_grid_offset index grid_cols distance_nm = Ok offset
    /\ calculate_grid_offset index grid_cols (distance_nm / 10)%float = Ok offset_nav
    /\ drawn s' = drawn s + List.length collected
    /\ store s' = store s ++ clones
    /\ List.length clones = List.length collected
    /\ List.length cloned = List.length collected
    /\ dict_index (uuid_map_from (dict_keys collected) [] (drawn s)) EADD_UUID
       = Ok new_ahp
    /\ forall k old_uuid feat_type orig,
        nth_error collected k = Some (old_uuid, (feat_type, orig)) ->
        exists e new_uuid e',
          deref (store s ++ firstn k clones) orig = Ok e
          /\ dict_index (uuid_map_from (dict_keys collected) [] (drawn s)) old_uuid
             = Ok new_uuid
          /\ clone_element index offset offset_nav
               (uuid_map_from (dict_keys collected) [] (drawn s)) (or_else lr [])
               old_uuid feat_type new_uuid e = Ok e'
          /\ nth_error clones k = Some e'
          /\ nth_error cloned k = Some (feat_type, List.length (store s) + k).
Proof.
  unfold clone_feature_set. intro H.
  apply mbind_ok in H as (offset & s1 & H1 & H). apply mlift_ok in H1 as [H1 ->].
  apply mbind_ok in H as (offset_nav & s1 & H2 & H). apply mlift_ok in H2 as [H2 ->].
  apply mbind_ok in H as (uuid_map & s1 & H3 & H). rewrite build_uuid_map_eq in H3.
  inversion H3; subst uuid_map s1; clear H3.
  apply mbind_ok in H as (cl & s2 & H4 & H).
  apply mbind_ok in H as (ahp & s3 & H5 & H). apply mlift_ok in H5 as [H5 ->].
  inversion H; subst; clear H.
  pose proof (mfor_length _ _ _ _ _ H4) as Hlen.
  apply mfor_clone_one in H4 as (Hd & clones & Hs & Hl & Hk). cbn [store drawn] in *.
  exists offset, offset_nav, clones. unfold dict_keys in Hd. rewrite length_map in Hd.
  repeat (split; [assumption|]). exact Hk.
Qed.

Lemma is_ok_true {A} (r : result A) : is_ok r = true -> exists a, r = Ok a.
Proof. destruct r; [eauto | discriminate]. Qed.

Lemma calculate_grid_offset_total index grid_cols distance_nm :
  grid_cols <> 0%Z ->
  is_ok (float_of_int (index / grid_cols)) = true ->
  is_ok (float_of_int (index mod grid_cols)) = true ->
  exists offset, calculate_grid_offset index grid_cols distance_nm = Ok offset.
Proof.
  intros Hc Hr Hm. apply is_ok_true in Hr as (r & Hr). apply is_ok_true in Hm as (c & Hm).
  eexists. apply calculate_grid_offset_ok; eassumption.
Qed.

Lemma update_feature_ids_total e new_uuid :
  ids_readable e = true -> exists e', update_feature_ids e new_uuid = Ok e'.
Proof.
  unfold ids_readable. destruct (find_first_desc is_timeslice e) as [ts|] eqn:E.
  - intro H. apply andb_true_iff in H as [Hs Hc].
    apply is_ok_true in Hs as (seq & Hs). apply is_ok_true in Hc as (corr & Hc).
    destruct (update_feature_ids_timeslice e new_uuid ts seq corr E Hs Hc)
      as (e' & He & _). eauto.
  - intros _. unfold update_feature_ids. rewrite find_timeslice_after_ids, E. eauto.
Qed.

Lemma clone_element_total index offset offset_nav uuid_map lr old_uuid feat_type
      new_uuid e :
  ids_readable e = true ->
  exists e',
    clone_element index offset offset_nav uuid_map lr old_uuid feat_type new_uuid e
    = Ok e'.
Proof.
  intro H. destruct (update_feature_ids_total e new_uuid H) as (e1 & H1).
  unfold clone_element. rewrite H1. cbn [rbind]. eauto.
Qed.

Lemma dict_mem_set {V} (d : dict V) k v k' :
  dict_mem (dict_set d k v) k' = dict_mem d k' || String.eqb k' k.
Proof.
  unfold dict_mem. destruct (String.eqb_spec k' k) as [->|Hne].
  - rewrite dict_get_set_same. now rewrite orb_true_r.
  - rewrite dict_get_set_other by exact Hne. now rewrite orb_false_r.
Qed.

Lemma uuid_map_from_mem keys :
  forall uuid_map n k,
    dict_mem (uuid_map_from keys uuid_map n) k
    = dict_mem uuid_map k || set_mem k keys.
Proof.
  induction keys as [|k0 r IH]; intros m n k.
  - cbn. now rewrite orb_false_r.
  - cbn [uuid_map_from]. rewrite IH, dict_mem_set. unfold set_mem. cbn [existsb].
    now rewrite orb_assoc.
Qed.

Lemma dict_mem_keys {V} (d : dict V) k : dict_mem d k = set_mem k (dict_keys d).
Proof.
  unfold dict_mem, set_mem, dict_keys.
  induction d as [|[k0 v0] r IH]; [reflexivity|].
  cbn [dict_get map fst existsb]. rewrite String.eqb_sym.
  destruct (String.eqb k k0); [reflexivity | exact IH].
Qed.

Lemma dict_index_mem {V} (d : dict V) k :
  dict_mem d k = true -> exists v, dict_index d k = Ok v.
Proof.
  unfold dict_mem, dict_index. destruct (dict_get d k); [eauto | discriminate].
Qed.

Lemma mfor_clone_one_total index offset offset_nav uuid_map lr st0 :
  forall items : dict (string * ref),
    Forall
      (fun item =>
         (exists e,
             nth_error st0 (snd (snd item)) = Some e /\ ids_readable e = true)
         /\ dict_mem uuid_map (fst item) = true) items ->
    forall extra d,
    exists cloned s',
      mfor (clone_one index offset offset_nav uuid_map lr) items
        (mkState (st0 ++ extra) d) = Ok (cloned, s').
Proof.
  induction 1 as [|[old_uuid [feat_type orig]] items [(e & He & Hr) Hm] _ IH];
    intros extra d.
  - cbn [mfor]. unfold mret. eauto.
  - cbn [mfor fst snd] in *. unfold mbind at 1. rewrite clone_one_eq.
    cbn [store drawn]. unfold deref.
    rewrite nth_error_app1 by (apply nth_error_Some; congruence). rewrite He.
    cbn [rbind]. destruct (dict_index_mem _ _ Hm) as (new_uuid & ->). cbn [rbind].
    destruct (clone_element_total index offset offset_nav uuid_map lr old_uuid
                feat_type new_uuid e Hr) as (e' & ->).
    cbn [rbind]. rewrite <- app_assoc.
    destruct (IH (extra ++ [e']) d) as (cloned & s' & Hfor).
    unfold mbind. rewrite Hfor. unfold mret. eauto.
Qed.

(** C8: the list that [clone_feature_set] returns has one entry for each
    entry of the collected features; and it does return when there is a
    column, the row and the column have a float, the airport is among the
    collected features, and every collected element is in the store with
    version-block numbers that can be read. *)
Theorem clone_feature_set_length :
  (forall collected index grid_cols distance_nm lr s cloned new_ahp s',
      clone_feature_set collected index grid_cols distance_nm lr s
      = Ok ((cloned, new_ahp), s') ->
      List.length cloned = List.length collected
      /\ List.length cloned = List.length (dict_keys collected))
  /\ (forall (collected : dict (string * ref)) index grid_cols distance_nm lr s,
         grid_cols <> 0%Z ->
         is_ok (float_of_int (index / grid_cols)) = true ->
         is_ok (float_of_int (index mod grid_cols)) = true ->
         dict_mem collected EADD_UUID = true ->
         Forall
           (fun item =>
              exists e,
                nth_error (store s) (snd (snd item)) = Some e
                /\ ids_readable e = true) collected ->
         exists cloned new_ahp s',
           clone_feature_set collected index grid_cols distance_nm lr s
           = Ok ((cloned, new_ahp), s')).
Proof.
  split.
  - intros collected index grid_cols distance_nm lr s cloned new_ahp s' H.
    apply clone_feature_set_ok in H as (? & ? & ? & _ & _ & _ & _ & _ & H & _).
    unfold dict_keys. rewrite length_map. auto.
  - intros collected index grid_cols distance_nm lr s Hc Hr Hm Ha Hall.
    destruct (calculate_grid_offset_total index grid_cols distance_nm Hc Hr Hm)
      as (offset & H1).
    destruct (calculate_grid_offset_total index grid_cols (distance_nm / 10)%float
                Hc Hr Hm) as (offset_nav & H2).
    destruct s as [st d]. cbn [store drawn] in *.
    destruct (mfor_clone_one_total index offset offset_nav
                (uuid_map_from (dict_keys collected) [] d) (or_else lr []) st
                collected) with (extra := @nil Element)
                                (d := d + List.length (dict_keys collected))
      as (cloned & s' & Hfor).
    { rewrite Forall_forall in *. intros [old_uuid [feat_type orig]] Hin.
      split; [now apply Hall|]. cbn [fst]. rewrite uuid_map_from_mem.
      apply orb_true_iff. right. apply set_mem_In. unfold dict_keys.
      now apply (in_map fst) in Hin. }
    rewrite app_nil_r in Hfor.
    assert (Hahp : dict_mem (uuid_map_from (dict_keys collected) [] d) EADD_UUID
                   = true).
    { rewrite uuid_map_from_mem, <- dict_mem_keys, Ha. apply orb_true_r. }
    destruct (dict_index_mem _ _ Hahp) as (new_ahp & Hn).
    exists cloned, new_ahp, s'.
    unfold clone_feature_set, mbind. cbv zeta. rewrite H1, H2. cbn [mlift].
    rewrite build_uuid_map_eq. cbn [store drawn].
    rewrite Hfor, Hn.
    reflexivity.
Qed.

(** ** What the updates leave of a tree

    [obs] is anything read off a node from its tag and its attributes;
    the lemmas follow the list of these readings, in document order,
    through the updates of the clone engine. *)

Section Observation.

Context {B : Type} (obs : Element -> B).
Hypothesis obs_key : forall a b, node_key a = node_key b -> obs a = obs b.

Abbreviation obs_list e := (map obs (elem_iter e)).

Lemma elem_iter_iter_update f e :
  elem_iter (iter_update f e) = map (iter_update f) (elem_iter e).
Proof.
  induction e as [t a x cs IH] using Element_ind'.
  cbn [iter_update elem_iter map]. f_equal.
  rewrite concat_map, !map_map. f_equal.
  apply map_ext_Forall. exact IH.
Qed.

Lemma obs_list_eq e :
  obs_list e = obs e :: List.concat (map (fun c => obs_list c) (children e)).
Proof.
  rewrite elem_iter_eq. cbn [map]. f_equal.
  rewrite concat_map, map_map. reflexivity.
Qed.

Lemma obs_list_iter_update f e :
  (forall x, attrib (f x) = attrib x) ->
  obs_list (iter_update f e) = obs_list e.
Proof.
  intro Hf. rewrite elem_iter_iter_update, map_map.
  apply map_ext. intro x. apply obs_key. destruct x as [t a y cs].
  unfold node_key. cbn [iter_update tag attrib]. now rewrite Hf.
Qed.

Lemma obs_list_set_text x c : obs_list (set_text x c) = obs_list c.
Proof.
  rewrite !obs_list_eq. destruct c. cbn [set_text children tag attrib].
  f_equal. now apply obs_key.
Qed.

Lemma obs_list_suffix_text suffix c : obs_list (suffix_text suffix c) = obs_list c.
Proof.
  unfold suffix_text. destruct (text c) as [s|]; [|reflexivity].
  destruct (nonempty s); [apply obs_list_set_text | reflexivity].
Qed.

Lemma obs_list_update_child_in name f cs :
  (forall c, obs_list (f c) = obs_list c) ->
  List.concat (map (fun c => obs_list c) (update_child_in name f cs))
  = List.concat (map (fun c => obs_list c) cs).
Proof.
  intro Hf. induction cs as [|c r IH]; [reflexivity|].
  cbn [update_child_in]. destruct (tag_is name c); cbn [map List.concat].
  - now rewrite Hf.
  - now rewrite IH.
Qed.

Lemma obs_list_update_child name f e :
  (forall c, obs_list (f c) = obs_list c) ->
  obs_list (update_child name f e) = obs_list e.
Proof.
  intro Hf. rewrite !obs_list_eq. unfold update_child. destruct e as [t a x cs].
  cbn [set_children children tag attrib text]. f_equal; [now apply obs_key|].
  now apply obs_list_update_child_in.
Qed.

Lemma obs_list_update_first_in p f :
  (forall x, incl (obs_list (f x)) (obs_list x)) ->
  forall cs,
    Forall
      (fun e =>
         forall e', update_first p f e = Some e' ->
                    incl (obs_list e') (obs_list e)) cs ->
    forall cs',
      update_first_in (update_first p f) cs = Some cs' ->
      incl (List.concat (map (fun c => obs_list c) cs'))
           (List.concat (map (fun c => obs_list c) cs)).
Proof.
  intros Hf cs Hcs. induction Hcs as [|c r Hc _ IH]; intros cs' H; [discriminate|].
  cbn [update_first_in] in H. destruct (update_first p f c) as [c'|] eqn:E.
  - inversion H; subst. cbn [map List.concat]. apply incl_app.
    + apply incl_appl. now apply Hc.
    + apply incl_appr, incl_refl.
  - destruct (update_first_in (update_first p f) r) as [r'|]; [|discriminate].
    inversion H; subst. cbn [map List.concat]. apply incl_app.
    + apply incl_appl, incl_refl.
    + apply incl_appr. now apply IH.
Qed.

Lemma obs_list_update_first p f :
  (forall x, incl (obs_list (f x)) (obs_list x)) ->
  forall e e', update_first p f e = Some e' -> incl (obs_list e') (obs_list e).
Proof.
  intro Hf. induction e as [t a x cs IH] using Element_ind'. intros e' H.
  cbn [update_first] in H. destruct (p (Elem t a x cs)).
  - inversion H; subst. apply Hf.
  - destruct (update_first_in (update_first p f) cs) as [cs'|] eqn:E; [|discriminate].
    inversion H; subst. rewrite (obs_list_eq (Elem t a x cs')), (obs_list_eq (Elem t a x cs)).
    cbn [children]. apply incl_cons.
    + left. now apply obs_key.
    + apply incl_tl. eapply obs_list_update_first_in; eauto.
Qed.

Lemma obs_list_update_first_desc p f :
  (forall x, incl (obs_list (f x)) (obs_list x)) ->
  forall e e', update_first_desc p f e = Some e' -> incl (obs_list e') (obs_list e).
Proof.
  intros Hf e e' H. unfold update_first_desc in H.
  destruct (update_first_in (update_first p f) (children e)) as [cs'|] eqn:E;
    [|discriminate].
  inversion H; subst. destruct e as [t a x cs].
  rewrite (obs_list_eq (set_children cs' _)), (obs_list_eq (Elem t a x cs)).
  cbn [set_children children tag attrib text]. apply incl_cons.
  - left. now apply obs_key.
  - apply incl_tl. eapply obs_list_update_first_in; eauto.
    apply Forall_forall. intros c _. now apply obs_list_update_first.
Qed.

Lemma obs_list_suffix_parts suffix e :
  obs_list (suffix_parts suffix e) = obs_list e.
Proof.
  induction e as [t a x cs IH] using Element_ind'.
  cbn [suffix_parts].
  rewrite (obs_list_eq (Elem t a x cs)), obs_list_eq. cbn [children].
  f_equal; [now apply obs_key|].
  assert (Hcs : List.concat (map (fun c => obs_list c) (map (suffix_parts suffix) cs))
                = List.concat (map (fun c => obs_list c) cs)).
  { rewrite map_map. f_equal. apply map_ext_Forall. exact IH. }
  destruct (tag_is AIXM_VS_PART (Elem t a x cs)); [|exact Hcs].
  rewrite obs_list_update_child_in; [exact Hcs|].
  intro c. unfold suffix_part_designator. destruct (text c) as [s|]; [|reflexivity].
  destruct (nonempty s && nonempty (str_strip s) && negb (truthy (elem_get c XSI_NIL)));
    [apply obs_list_set_text | reflexivity].
Qed.

Lemma incl_concat_filter {A C} (g : A -> list C) (p : A -> bool) (l : list A) :
  incl (List.concat (map g (filter p l))) (List.concat (map g l)).
Proof.
  induction l as [|a l IH]; [apply incl_refl|].
  cbn [filter map List.concat]. destruct (p a); cbn [map List.concat].
  - apply incl_app; [apply incl_appl, incl_refl | apply incl_appr, IH].
  - apply incl_appr, IH.
Qed.

Lemma obs_list_remove_children c name :
  incl (obs_list (remove_children c name)) (obs_list c).
Proof.
  unfold remove_children. destruct c as [t a x cs].
  rewrite (obs_list_eq (set_children _ _)), (obs_list_eq (Elem t a x cs)).
  cbn [set_children children tag attrib text].
  apply incl_cons; [left; now apply obs_key|]. apply incl_tl, incl_concat_filter.
Qed.

Lemma obs_list_remove_properties c :
  incl (obs_list (remove_properties c)) (obs_list c).
Proof.
  unfold remove_properties. generalize VS_PROPERTIES_TO_REMOVE as props.
  intro props. revert c. induction props as [|p r IH]; intro c; [apply incl_refl|].
  cbn [fold_left]. eapply incl_tran; [apply IH | apply obs_list_remove_children].
Qed.

Lemma incl_of_eq {A} (l1 l2 : list A) : l1 = l2 -> incl l1 l2.
Proof. intros ->. apply incl_refl. Qed.

Lemma obs_list_relabel_airport index e :
  incl (obs_list (relabel_airport index e)) (obs_list e).
Proof.
  unfold relabel_airport.
  destruct (update_first _ _ e) as [e'|] eqn:E; [|apply incl_refl].
  cbn [or_else]. eapply obs_list_update_first; [|exact E].
  intro x. apply incl_of_eq.
  rewrite !obs_list_update_child; auto using obs_list_set_text.
Qed.

Lemma obs_list_relabel_suffix index e :
  incl (obs_list (relabel_suffix index e)) (obs_list e).
Proof.
  unfold relabel_suffix.
  destruct (update_first_desc _ _ e) as [e'|] eqn:E; [|apply incl_refl].
  cbn [or_else]. eapply obs_list_update_first_desc; [|exact E].
  intro x. apply incl_of_eq.
  rewrite !obs_list_update_child; auto using obs_list_suffix_text.
Qed.

Lemma obs_list_relabel_vertical_structure index e :
  incl (obs_list (relabel_vertical_structure index e)) (obs_list e).
Proof.
  unfold relabel_vertical_structure.
  destruct (update_first_desc _ _ e) as [e'|] eqn:E; [|apply incl_refl].
  cbn [or_else]. eapply obs_list_update_first_desc; [|exact E].
  intro x. eapply incl_tran; [apply obs_list_remove_properties|].
  apply incl_of_eq. rewrite obs_list_suffix_parts.
  apply obs_list_update_child, obs_list_suffix_text.
Qed.

Lemma obs_list_relabel feat_type index e :
  incl (obs_list (relabel feat_type index e)) (obs_list e).
Proof.
  unfold relabel.
  destruct (String.eqb feat_type "Airspace");
    [eapply incl_tran; [apply obs_list_relabel_suffix|]|];
    (destruct (String.eqb feat_type "VerticalStructure");
     [eapply incl_tran; [apply obs_list_relabel_vertical_structure|]|]);
    (destruct (in_list feat_type navaid_types);
     [eapply incl_tran; [apply obs_list_relabel_suffix|]|]);
    (destruct (String.eqb feat_type "AirportHeliport");
     [apply obs_list_relabel_airport | apply incl_refl]).
Qed.

Lemma obs_list_offset_all_coordinates e lat lon :
  obs_list (offset_all_coordinates e lat lon) = obs_list e.
Proof.
  unfold offset_all_coordinates. rewrite !obs_list_iter_update; [reflexivity | |].
  - intro x. unfold offset_pos. destruct (tag_is GML_POS x); [|reflexivity].
    destruct (text x) as [s|]; [|reflexivity].
    destruct (nonempty s && nonempty (str_strip s)); destruct x; reflexivity.
  - intro x. unfold offset_poslist. destruct (tag_is GML_POSLIST x); [|reflexivity].
    destruct (text x) as [s|]; [|reflexivity].
    destruct (nonempty s && nonempty (str_strip s)); destruct x; reflexivity.
Qed.

End Observation.

(** ** Links *)

Lemma href_target_key a b : node_key a = node_key b -> href_target a = href_target b.
Proof.
  unfold node_key, href_target, elem_get. intro H. inversion H as [[Ht Ha]].
  now rewrite Ht, Ha.
Qed.

Lemma In_link_targets t e :
  In t (link_targets e) <-> In (Some t) (map href_target (elem_iter e)).
Proof.
  unfold link_targets. rewrite in_flat_map, in_map_iff. split.
  - intros (x & Hx & Ht). exists x. split; [|exact Hx].
    destruct (href_target x) as [u|]; [|contradiction].
    destruct Ht as [->|[]]. reflexivity.
  - intros (x & Ht & Hx). exists x. split; [exact Hx|]. rewrite Ht. now left.
Qed.

Lemma set_mem_fold_targets t l :
  forall acc,
    set_mem t
      (fold_left
         (fun uuids elem =>
            match href_target elem with
            | Some u => set_add uuids u
            | None => uuids
            end) l acc) = true
    <-> set_mem t acc = true \/ In (Some t) (map href_target l).
Proof.
  induction l as [|x l IH]; intro acc; cbn [fold_left map In].
  - tauto.
  - rewrite IH. destruct (href_target x) as [u|].
    + rewrite set_mem_add, orb_true_iff, String.eqb_eq. split.
      * intros [[H| ->]|H]; auto.
      * intros [H|[H|H]]; auto. inversion H; auto.
    + split; [intros [H|H]; auto | intros [H|[H|H]]; auto; discriminate].
Qed.

(** The set [get_xlink_hrefs] returns holds the link targets. *)
Lemma get_xlink_hrefs_targets t e :
  set_mem t (get_xlink_hrefs e) = true <-> In t (link_targets e).
Proof.
  unfold get_xlink_hrefs. rewrite set_mem_fold_targets, In_link_targets.
  split; [intros [H|H]; [discriminate | exact H] | auto].
Qed.

Lemma link_targets_incl a b :
  incl (map href_target (elem_iter a)) (map href_target (elem_iter b)) ->
  incl (link_targets a) (link_targets b).
Proof. intros H t Ht. apply In_link_targets. apply H. now apply In_link_targets. Qed.

Lemma href_target_set_gml_id x v : href_target (elem_set x GML_ID v) = href_target x.
Proof.
  unfold href_target, elem_get, elem_set. destruct x as [[t|] a y cs]; [|reflexivity].
  cbn [tag attrib]. rewrite dict_get_set_other; [reflexivity | discriminate].
Qed.

Lemma hrefs_renumber_children ts_id cs :
  Forall
    (fun e =>
       forall idx,
         map href_target (elem_iter (fst (renumber ts_id e idx)))
         = map href_target (elem_iter e)) cs ->
  forall idx,
    List.concat
      (map (fun c => map href_target (elem_iter c))
           (fst (map_state (renumber ts_id) cs idx)))
    = List.concat (map (fun c => map href_target (elem_iter c)) cs).
Proof.
  induction 1 as [|c r Hc _ IH]; intro idx; [reflexivity|].
  cbn [map_state]. specialize (Hc idx).
  destruct (renumber ts_id c idx) as [c' idx1].
  specialize (IH idx1).
  destruct (map_state (renumber ts_id) r idx1) as [r' idx2].
  cbn [fst map List.concat] in *. now rewrite Hc, IH.
Qed.

Lemma hrefs_renumber ts_id e :
  forall idx,
    map href_target (elem_iter (fst (renumber ts_id e idx)))
    = map href_target (elem_iter e).
Proof.
  induction e as [t a x cs IH] using Element_ind'. intro idx.
  cbn [renumber].
  pose proof (hrefs_renumber_children ts_id cs IH) as Hcs.
  destruct (elem_get (Elem t a x cs) GML_ID) as [g|].
  - specialize (Hcs (idx + 1)%Z).
    destruct (map_state (renumber ts_id) cs (idx + 1)%Z) as [cs' idx2].
    cbn [fst] in *. rewrite (obs_list_eq href_target), (obs_list_eq href_target (Elem t a x cs)).
    cbn [children]. rewrite Hcs. f_equal.
    change (Elem t (attrib (elem_set (Elem t a x cs) GML_ID
                              (ts_id ^^ "_" ^^ str_of_int idx))) x cs')
      with (set_children cs' (elem_set (Elem t a x cs) GML_ID
                                (ts_id ^^ "_" ^^ str_of_int idx))).
    transitivity (href_target (elem_set (Elem t a x cs) GML_ID
                                 (ts_id ^^ "_" ^^ str_of_int idx)));
      [apply href_target_key; reflexivity | apply href_target_set_gml_id].
  - specialize (Hcs idx).
    destruct (map_state (renumber ts_id) cs idx) as [cs' idx2].
    cbn [fst] in *. rewrite (obs_list_eq href_target), (obs_list_eq href_target (Elem t a x cs)).
    cbn [children]. rewrite Hcs. f_equal.
Qed.

Lemma hrefs_retag_timeslice ts_id ts :
  map href_target (elem_iter (retag_timeslice ts_id ts))
  = map href_target (elem_iter ts).
Proof.
  unfold retag_timeslice.
  rewrite (obs_list_eq href_target), (obs_list_eq href_target ts).
  destruct ts as [t a x cs]. cbn [set_children elem_set children tag attrib text].
  f_equal.
  - transitivity (href_target (elem_set (Elem t a x cs) GML_ID ts_id));
      [apply href_target_key; reflexivity | apply href_target_set_gml_id].
  - apply hrefs_renumber_children. apply Forall_forall. intros c _.
    apply hrefs_renumber.
Qed.

(** Rewriting the identifiers adds no link. *)
Lemma hrefs_update_feature_ids e new_uuid e' :
  update_feature_ids e new_uuid = Ok e' ->
  incl (map href_target (elem_iter e')) (map href_target (elem_iter e)).
Proof.
  unfold update_feature_ids.
  set (e1 := elem_set e GML_ID ("uuid." ^^ new_uuid)).
  set (e2 := update_child GML_IDENTIFIER (set_text (Some new_uuid)) e1).
  assert (H2 : map href_target (elem_iter e2) = map href_target (elem_iter e)).
  { unfold e2. rewrite (obs_list_update_child href_target href_target_key);
      [| intro c; apply (obs_list_set_text href_target href_target_key)].
    unfold e1. rewrite (obs_list_eq href_target), (obs_list_eq href_target e).
    destruct e; cbn [elem_set children]. f_equal. apply href_target_set_gml_id. }
  destruct (find_first_desc is_timeslice e2) as [ts|].
  - intro H. apply rbind_ok in H as (seq & _ & H). apply rbind_ok in H as (corr & _ & H).
    inversion H; subst; clear H.
    destruct (update_first_desc is_timeslice _ e2) as [e3|] eqn:E; cbn [or_else].
    + rewrite <- H2.
      eapply (obs_list_update_first_desc href_target href_target_key); [|exact E].
      intro x. apply incl_of_eq, hrefs_retag_timeslice.
    + now rewrite H2.
  - intro H. inversion H; subst. now rewrite H2.
Qed.

Lemma replace_del_absent pat s :
  str_contains pat s = false -> replace_del_aux pat 0 s = s.
Proof.
  induction s as [|c r IH]; [reflexivity|].
  cbn [str_contains replace_del_aux]. intro H.
  apply orb_false_iff in H as [Hp Hr]. rewrite Hp, IH by exact Hr. reflexivity.
Qed.

Lemma replace_scheme new_uuid :
  str_contains "urn:uuid:" new_uuid = false ->
  str_replace_del ("urn:uuid:" ^^ new_uuid) "urn:uuid:" = new_uuid.
Proof.
  intro H. unfold str_replace_del. cbn.
  replace (String.prefix "" new_uuid) with true by (destruct new_uuid; reflexivity).
  now apply replace_del_absent.
Qed.

Lemma href_target_set_href x v :
  tag x <> None ->
  href_target (elem_set x XLINK_HREF ("urn:uuid:" ^^ v))
  = Some (str_replace_del ("urn:uuid:" ^^ v) "urn:uuid:").
Proof.
  intro Ht. unfold href_target, elem_get, elem_set.
  destruct x as [[tg|] a y cs]; [|contradiction]. cbn [tag attrib].
  rewrite dict_get_set_same.
  assert (Hc : nonempty ("urn:uuid:" ^^ v)
               && str_startswith ("urn:uuid:" ^^ v) "urn:uuid:" = true).
  { unfold str_startswith. cbn. destruct v; reflexivity. }
  now rewrite Hc.
Qed.

Lemma href_target_update_href uuid_map x t :
  href_target (update_href uuid_map x) = Some t ->
  (exists old_uuid new_uuid,
      href_target x = Some old_uuid
      /\ dict_get uuid_map old_uuid = Some new_uuid
      /\ t = str_replace_del ("urn:uuid:" ^^ new_uuid) "urn:uuid:")
  \/ (href_target x = Some t /\ dict_get uuid_map t = None).
Proof.
  unfold update_href. destruct (href_target x) as [old_uuid|] eqn:E.
  - destruct (dict_get uuid_map old_uuid) as [new_uuid|] eqn:Em.
    + intro H. left. exists old_uuid, new_uuid. split; [reflexivity|].
      split; [exact Em|].
      rewrite href_target_set_href in H; [now inversion H|].
      unfold href_target, elem_get in E. destruct (tag x); [discriminate|discriminate].
    + rewrite E. intro H. inversion H; subst. now right.
  - rewrite E. discriminate.
Qed.

(** After [update_xlink_refs] a link target is the image of a key of the
    map, or it is not a key and was a target before. *)
Lemma link_targets_update_xlink_refs uuid_map e t :
  In t (link_targets (update_xlink_refs e uuid_map)) ->
  (exists old_uuid new_uuid,
      dict_get uuid_map old_uuid = Some new_uuid
      /\ t = str_replace_del ("urn:uuid:" ^^ new_uuid) "urn:uuid:")
  \/ (dict_get uuid_map t = None /\ In t (link_targets e)).
Proof.
  rewrite !In_link_targets. unfold update_xlink_refs.
  rewrite elem_iter_iter_update, map_map, in_map_iff.
  intros (x & Hx & Hin).
  assert (Hk : href_target (iter_update (update_href uuid_map) x)
               = href_target (update_href uuid_map x)).
  { apply href_target_key. destruct x as [tg a y cs]. unfold node_key.
    cbn [iter_update tag attrib]. f_equal. unfold update_href.
    destruct (href_target (Elem tg a y cs)) as [old_uuid|]; [|reflexivity].
    destruct (dict_get uuid_map old_uuid); reflexivity. }
  rewrite Hk in Hx. apply href_target_update_href in Hx.
  destruct Hx as [(old_uuid & new_uuid & _ & Hm & Ht) | [Ht Hm]].
  - left. eauto.
  - right. split; [exact Hm|]. rewrite <- Ht. now apply in_map.
Qed.

Lemma uuid_map_from_get keys :
  forall uuid_map n old_uuid new_uuid,
    dict_get (uuid_map_from keys uuid_map n) old_uuid = Some new_uuid ->
    dict_get uuid_map old_uuid = Some new_uuid
    \/ exists j, n <= j < n + List.length keys /\ new_uuid = uuid4 j.
Proof.
  induction keys as [|k r IH]; intros m n old_uuid new_uuid H.
  - now left.
  - cbn [uuid_map_from] in H. apply IH in H as [H | (j & Hj & ->)].
    + destruct (String.eqb_spec old_uuid k) as [->|Hne].
      * rewrite dict_get_set_same in H. inversion H. right. exists n.
        cbn [List.length]. split; [lia | reflexivity].
      * rewrite dict_get_set_other in H by exact Hne. now left.
    + right. exists j. cbn [List.length]. split; [lia | reflexivity].
Qed.

(** Where the clone of the [k]-th collected element is, and what it is. *)
Lemma clone_feature_set_item collected index grid_cols distance_nm lr s cloned
      new_ahp s' k old_uuid feat_type orig_ref orig :
  clone_feature_set collected index grid_cols distance_nm lr s
  = Ok ((cloned, new_ahp), s') ->
  nth_error collected k = Some (old_uuid, (feat_type, orig_ref)) ->
  nth_error (store s) orig_ref = Some orig ->
  exists offset offset_nav new_uuid clone,
    calculate_grid_offset index grid_cols distance_nm = Ok offset
    /\ calculate_grid_offset index grid_cols (distance_nm / 10)%float = Ok offset_nav
    /\ dict_get (uuid_map_from (dict_keys collected) [] (drawn s)) old_uuid
       = Some new_uuid
    /\ clone_element index offset offset_nav
         (uuid_map_from (dict_keys collected) [] (drawn s)) (or_else lr [])
         old_uuid feat_type new_uuid orig = Ok clone
    /\ nth_error cloned k = Some (feat_type, List.length (store s) + k)
    /\ nth_error (store s') (List.length (store s) + k) = Some clone
    /\ drawn s' = drawn s + List.length collected.
Proof.
  intros H Hk Ho.
  apply clone_feature_set_ok in H
    as (offset & offset_nav & clones & H1 & H2 & Hd & Hs & Hl & _ & _ & Hall).
  destruct (Hall k old_uuid feat_type orig_ref Hk)
    as (e & new_uuid & e' & He & Hn & Hc & Hcl & Hcd).
  unfold deref in He.
  rewrite nth_error_app1, Ho in He by (apply nth_error_Some; congruence).
  inversion He; subst e.
  exists offset, offset_nav, new_uuid, e'.
  repeat (split; [assumption|]). split.
  - unfold dict_index in Hn.
    destruct (dict_get _ old_uuid); [now inversion Hn | discriminate].
  - repeat (split; [assumption|]). split; [|exact Hd].
    rewrite Hs, nth_error_app2 by lia.
    now replace (List.length (store s) + k - List.length (store s)) with k by lia.
Qed.

(** C1: in the clones that one call of [clone_feature_set] makes, every
    link target in [urn:uuid:] form is a uuid drawn in that call and
    recorded in its [uuid_map], or it is not a key of the collected
    features and is a target of the original element, as it was.  When
    the uuids drawn are fresh, no target is a key of the collected
    features, and none is a uuid drawn outside this call. *)
Theorem cloned_links_mapped_or_outside :
  forall collected index grid_cols distance_nm lr s cloned new_ahp s',
    clone_feature_set collected index grid_cols distance_nm lr s
    = Ok ((cloned, new_ahp), s') ->
    (forall j, drawn s <= j < drawn s + List.length collected ->
               str_contains "urn:uuid:" (uuid4 j) = false) ->
    forall k old_uuid feat_type orig_ref orig new_ref clone t,
      nth_error collected k = Some (old_uuid, (feat_type, orig_ref)) ->
      nth_error (store s) orig_ref = Some orig ->
      nth_error cloned k = Some (feat_type, new_ref) ->
      nth_error (store s') new_ref = Some clone ->
      set_mem t (get_xlink_hrefs clone) = true ->
      ((exists old j,
           dict_get (uuid_map_from (dict_keys collected) [] (drawn s)) old = Some t
           /\ drawn s <= j < drawn s + List.length collected /\ t = uuid4 j)
       \/ (dict_mem collected t = false
           /\ set_mem t (get_xlink_hrefs orig) = true))
      /\ ((forall j, drawn s <= j < drawn s + List.length collected ->
                     dict_mem collected (uuid4 j) = false) ->
          dict_mem collected t = false)
      /\ (forall j',
             ~ (drawn s <= j' < drawn s + List.length collected) ->
             (forall j, drawn s <= j < drawn s + List.length collected -> uuid4 j <> uuid4 j') ->
             set_mem (uuid4 j') (get_xlink_hrefs orig) = false ->
             t <> uuid4 j').
Proof.
  intros collected index grid_cols distance_nm lr s cloned new_ahp s' H Hscheme
         k old_uuid feat_type orig_ref orig new_ref clone t Hk Ho Hc Hcl Ht.
  destruct (clone_feature_set_item _ _ _ _ _ _ _ _ _ _ _ _ _ _ H Hk Ho)
    as (offset & offset_nav & new_uuid & clone' & _ & _ & _ & He & Hc' & Hcl' & Hd).
  rewrite Hc' in Hc. inversion Hc; subst new_ref; clear Hc.
  rewrite Hcl' in Hcl. inversion Hcl; subst clone'; clear Hcl.
  unfold clone_element in He. apply rbind_ok in He as (e1 & He1 & He).
  inversion He; subst clone; clear He.
  apply get_xlink_hrefs_targets in Ht.
  apply (link_targets_incl _ _
           (obs_list_relabel href_target href_target_key feat_type index _)) in Ht.
  apply (link_targets_incl _ _
           (incl_of_eq _ _
              (obs_list_offset_all_coordinates href_target href_target_key _ _ _)))
    in Ht.
  apply link_targets_update_xlink_refs in Ht.
  assert (Hmain :
            (exists old j,
                dict_get (uuid_map_from (dict_keys collected) [] (drawn s)) old
                = Some t
                /\ drawn s <= j < drawn s + List.length collected /\ t = uuid4 j)
            \/ (dict_mem collected t = false
                /\ set_mem t (get_xlink_hrefs orig) = true)).
  { destruct Ht as [(old & new & Hm & ->) | [Hm Hin]].
    - left. pose proof Hm as Hm'.
      apply uuid_map_from_get in Hm' as [Hm' | (j & Hj & ->)]; [discriminate|].
      unfold dict_keys in Hj. rewrite length_map in Hj.
      rewrite replace_scheme by now apply Hscheme. eauto.
    - right. split.
      + rewrite dict_mem_keys.
        assert (Hmem : dict_mem (uuid_map_from (dict_keys collected) [] (drawn s)) t
                       = false).
        { unfold dict_mem. now rewrite Hm. }
        rewrite uuid_map_from_mem in Hmem. now apply orb_false_iff in Hmem.
      + apply get_xlink_hrefs_targets.
        eapply link_targets_incl; [|exact Hin].
        eapply hrefs_update_feature_ids; eauto. }
  split; [exact Hmain|]. split.
  - intro Hfresh. destruct Hmain as [(old & j & _ & Hj & ->) | [Hout _]];
      [now apply Hfresh | exact Hout].
  - intros j' Hj' Hdistinct Hsource.
    destruct Hmain as [(old & j & _ & Hj & ->) | [_ Hin]].
    + now apply Hdistinct.
    + intros ->. congruence.
Qed.

(** ** The coordinate texts of a tree

    The texts of the elements with one tag, in document order, through
    the updates of the clone engine.  [name] is a tag none of the updates
    writes the text of. *)

Lemma texts_of_eq name e :
  texts_of name e
  = (if tag_is name e then [text e] else [])
      ++ List.concat (map (texts_of name) (children e)).
Proof.
  unfold texts_of. rewrite (elem_iter_eq e). cbn [filter].
  rewrite <- concat_filter_map, map_map.
  destruct (tag_is name e); cbn [map app]; rewrite concat_map, map_map;
    reflexivity.
Qed.

Lemma texts_of_iter_update name f g e :
  (forall x, tag_is name x = true -> text (f x) = g (text x)) ->
  texts_of name (iter_update f e) = map g (texts_of name e).
Proof.
  intro Hf. unfold texts_of.
  rewrite elem_iter_iter_update, filter_map_swap, !map_map.
  rewrite (filter_ext (fun a => tag_is name (iter_update f a)) (tag_is name))
    by (intros [t a x cs]; reflexivity).
  apply map_ext_in. intros [t a x cs] Hin. apply filter_In in Hin as [_ Ht].
  cbn [iter_update text]. now apply Hf.
Qed.

Lemma tag_is_excl name n c :
  name <> n -> tag_is n c = true -> tag_is name c = false.
Proof.
  unfold tag_is. destruct (tag c) as [t|]; [|discriminate]. intros Hne H.
  apply String.eqb_eq in H. subst t. apply String.eqb_neq. congruence.
Qed.

Section Texts.

Variable name : string.
Hypothesis name_identifier : name <> GML_IDENTIFIER.
Hypothesis name_designator : name <> AIXM_DESIGNATOR.
Hypothesis name_name : name <> AIXM_NAME.

Lemma texts_of_elem_set e k v :
  texts_of name (elem_set e k v) = texts_of name e.
Proof. destruct e. now rewrite !texts_of_eq. Qed.

Lemma texts_of_set_text x c :
  tag_is name c = false -> texts_of name (set_text x c) = texts_of name c.
Proof.
  intro H. destruct c as [t a y cs]. rewrite !texts_of_eq.
  change (tag_is name (set_text x (Elem t a y cs)))
    with (tag_is name (Elem t a y cs)).
  now rewrite H.
Qed.

Lemma texts_of_suffix_text suffix c :
  tag_is name c = false -> texts_of name (suffix_text suffix c) = texts_of name c.
Proof.
  intro H. unfold suffix_text. destruct (text c) as [s|]; [|reflexivity].
  destruct (nonempty s); [now apply texts_of_set_text | reflexivity].
Qed.

Lemma texts_of_update_child_in n f cs :
  (forall c, tag_is n c = true -> texts_of name (f c) = texts_of name c) ->
  List.concat (map (texts_of name) (update_child_in n f cs))
  = List.concat (map (texts_of name) cs).
Proof.
  intro Hf. induction cs as [|c r IH]; [reflexivity|].
  cbn [update_child_in]. destruct (tag_is n c) eqn:E; cbn [map List.concat].
  - now rewrite Hf.
  - now rewrite IH.
Qed.

Lemma texts_of_update_child n f e :
  (forall c, tag_is n c = true -> texts_of name (f c) = texts_of name c) ->
  texts_of name (update_child n f e) = texts_of name e.
Proof.
  intro Hf. destruct e as [t a x cs]. unfold update_child.
  rewrite !texts_of_eq. cbn [set_children children tag attrib text].
  now rewrite texts_of_update_child_in.
Qed.

(** The loops that stop at the first element found, for equality and for
    inclusion alike. *)
Section Related.

Variable R : list (option string) -> list (option string) -> Prop.
Hypothesis R_refl : forall l, R l l.
Hypothesis R_app : forall a a' b b', R a a' -> R b b' -> R (a ++ b) (a' ++ b').

Lemma texts_of_update_first_in p f :
  forall cs,
    Forall
      (fun e =>
         forall e', update_first p f e = Some e' ->
                    R (texts_of name e') (texts_of name e)) cs ->
    forall cs',
      update_first_in (update_first p f) cs = Some cs' ->
      R (List.concat (map (texts_of name) cs'))
        (List.concat (map (texts_of name) cs)).
Proof.
  induction 1 as [|c r Hc _ IH]; intros cs' H; [discriminate|].
  cbn [update_first_in] in H. destruct (update_first p f c) as [c'|] eqn:E.
  - inversion H; subst. cbn [map List.concat]. apply R_app; [now apply Hc|].
    apply R_refl.
  - destruct (update_first_in (update_first p f) r) as [r'|]; [|discriminate].
    inversion H; subst. cbn [map List.concat].
    apply R_app; [apply R_refl | now apply IH].
Qed.

Lemma texts_of_update_first p f :
  (forall x, R (texts_of name (f x)) (texts_of name x)) ->
  forall e e',
    update_first p f e = Some e' -> R (texts_of name e') (texts_of name e).
Proof.
  intro Hf. induction e as [t a x cs IH] using Element_ind'. intros e' H.
  cbn [update_first] in H. destruct (p (Elem t a x cs)).
  - inversion H; subst. apply Hf.
  - destruct (update_first_in (update_first p f) cs) as [cs'|] eqn:E;
      [|discriminate].
    inversion H; subst.
    rewrite (texts_of_eq name (Elem t a x cs')), (texts_of_eq name (Elem t a x cs)).
    cbn [children text].
    change (tag_is name (Elem t a x cs')) with (tag_is name (Elem t a x cs)).
    apply R_app; [apply R_refl|]. eapply texts_of_update_first_in; eauto.
Qed.

Lemma texts_of_update_first_desc p f :
  (forall x, R (texts_of name (f x)) (texts_of name x)) ->
  forall e e',
    update_first_desc p f e = Some e' -> R (texts_of name e') (texts_of name e).
Proof.
  intros Hf e e' H. unfold update_first_desc in H.
  destruct (update_first_in (update_first p f) (children e)) as [cs'|] eqn:E;
    [|discriminate].
  inversion H; subst. destruct e as [t a x cs].
  rewrite (texts_of_eq name (set_children cs' _)), (texts_of_eq name (Elem t a x cs)).
  cbn [set_children children tag attrib text].
  change (tag_is name (Elem t a x cs')) with (tag_is name (Elem t a x cs)).
  apply R_app; [apply R_refl|]. eapply texts_of_update_first_in; eauto.
  apply Forall_forall. intros c _. now apply texts_of_update_first.
Qed.

End Related.

Lemma texts_of_renumber_children ts_id cs :
  Forall (fun e => forall idx,
            texts_of name (fst (renumber ts_id e idx)) = texts_of name e) cs ->
  forall idx,
    map (texts_of name) (fst (map_state (renumber ts_id) cs idx))
    = map (texts_of name) cs.
Proof.
  induction 1 as [|c r Hc _ IH]; intro idx; [reflexivity|].
  cbn [map_state]. specialize (Hc idx).
  destruct (renumber ts_id c idx) as [c' idx1]. specialize (IH idx1).
  destruct (map_state (renumber ts_id) r idx1) as [r' idx2].
  cbn [fst map] in *. now rewrite Hc, IH.
Qed.

Lemma texts_of_renumber ts_id e :
  forall idx, texts_of name (fst (renumber ts_id e idx)) = texts_of name e.
Proof.
  induction e as [t a x cs IH] using Element_ind'. intro idx.
  cbn [renumber]. pose proof (texts_of_renumber_children ts_id cs IH) as Hcs.
  destruct (elem_get (Elem t a x cs) GML_ID).
  - specialize (Hcs (idx + 1)%Z).
    destruct (map_state (renumber ts_id) cs (idx + 1)%Z) as [cs' idx2].
    cbn [fst] in *. rewrite (texts_of_eq name (Elem t _ x cs')),
      (texts_of_eq name (Elem t a x cs)). cbn [children text]. now rewrite Hcs.
  - specialize (Hcs idx).
    destruct (map_state (renumber ts_id) cs idx) as [cs' idx2].
    cbn [fst] in *. rewrite (texts_of_eq name (Elem t a x cs')),
      (texts_of_eq name (Elem t a x cs)). cbn [children text]. now rewrite Hcs.
Qed.

Lemma texts_of_retag_timeslice ts_id ts :
  texts_of name (retag_timeslice ts_id ts) = texts_of name ts.
Proof.
  unfold retag_timeslice. destruct ts as [t a x cs].
  rewrite (texts_of_eq name (set_children _ _)), (texts_of_eq name (Elem t a x cs)).
  cbn [elem_set set_children children tag attrib text]. f_equal. f_equal.
  apply texts_of_renumber_children. apply Forall_forall. intros c _.
  apply texts_of_renumber.
Qed.

Lemma texts_of_update_feature_ids e new_uuid e' :
  update_feature_ids e new_uuid = Ok e' -> texts_of name e' = texts_of name e.
Proof.
  unfold update_feature_ids.
  set (e2 := update_child GML_IDENTIFIER (set_text (Some new_uuid))
               (elem_set e GML_ID ("uuid." ^^ new_uuid))).
  assert (H2 : texts_of name e2 = texts_of name e).
  { unfold e2. rewrite texts_of_update_child; [apply texts_of_elem_set|].
    intros c Hc. apply texts_of_set_text.
    exact (tag_is_excl name _ _ name_identifier Hc). }
  destruct (find_first_desc is_timeslice e2) as [ts|].
  - intro H. apply rbind_ok in H as (seq & _ & H).
    apply rbind_ok in H as (corr & _ & H). inversion H; subst; clear H.
    destruct (update_first_desc is_timeslice _ e2) as [e3|] eqn:E;
      cbn [or_else]; [|exact H2].
    rewrite <- H2.
    refine (texts_of_update_first_desc eq _ _ _ _ _ e2 e3 E); [reflexivity | |].
    + intros; subst; reflexivity.
    + intro x. apply texts_of_retag_timeslice.
  - intro H. inversion H; subst. exact H2.
Qed.

Lemma texts_of_update_xlink_refs e uuid_map :
  texts_of name (update_xlink_refs e uuid_map) = texts_of name e.
Proof.
  unfold update_xlink_refs.
  rewrite (texts_of_iter_update name _ (fun x => x)); [apply map_id|].
  intros x _. unfold update_href. destruct (href_target x); [|reflexivity].
  destruct (dict_get uuid_map s); [destruct x; reflexivity | reflexivity].
Qed.

Lemma texts_of_relabel_airport index e :
  texts_of name (relabel_airport index e) = texts_of name e.
Proof.
  unfold relabel_airport.
  destruct (update_first _ _ e) as [e'|] eqn:E; cbn [or_else]; [|reflexivity].
  refine (texts_of_update_first eq _ _ _ _ _ e e' E); [reflexivity | |].
  - intros; subst; reflexivity.
  - intro x. rewrite !texts_of_update_child; [reflexivity | |].
    + intros c Hc. apply texts_of_set_text.
      exact (tag_is_excl name _ _ name_designator Hc).
    + intros c Hc. apply texts_of_set_text.
      exact (tag_is_excl name _ _ name_name Hc).
Qed.

Lemma texts_of_relabel_suffix index e :
  texts_of name (relabel_suffix index e) = texts_of name e.
Proof.
  unfold relabel_suffix.
  destruct (update_first_desc _ _ e) as [e'|] eqn:E; cbn [or_else]; [|reflexivity].
  refine (texts_of_update_first_desc eq _ _ _ _ _ e e' E); [reflexivity | |].
  - intros; subst; reflexivity.
  - intro x. rewrite !texts_of_update_child; [reflexivity | |].
    + intros c Hc. apply texts_of_suffix_text.
      exact (tag_is_excl name _ _ name_designator Hc).
    + intros c Hc. apply texts_of_suffix_text.
      exact (tag_is_excl name _ _ name_name Hc).
Qed.

Lemma texts_of_suffix_parts suffix e :
  texts_of name (suffix_parts suffix e) = texts_of name e.
Proof.
  induction e as [t a x cs IH] using Element_ind'.
  cbn [suffix_parts].
  rewrite (texts_of_eq name (Elem t a x cs)), texts_of_eq. cbn [children text].
  f_equal.
  assert (Hcs : List.concat (map (texts_of name) (map (suffix_parts suffix) cs))
                = List.concat (map (texts_of name) cs)).
  { rewrite map_map. f_equal. apply map_ext_Forall. exact IH. }
  destruct (tag_is AIXM_VS_PART (Elem t a x cs)); [|exact Hcs].
  rewrite texts_of_update_child_in; [exact Hcs|].
  intros c Hc. unfold suffix_part_designator. destruct (text c) as [s|]; [|reflexivity].
  destruct (nonempty s && nonempty (str_strip s) && negb (truthy (elem_get c XSI_NIL)));
    [|reflexivity].
  apply texts_of_set_text. exact (tag_is_excl name _ _ name_designator Hc).
Qed.

Lemma texts_of_remove_children c n :
  incl (texts_of name (remove_children c n)) (texts_of name c).
Proof.
  unfold remove_children. destruct c as [t a x cs].
  rewrite (texts_of_eq name (set_children _ _)), (texts_of_eq name (Elem t a x cs)).
  cbn [set_children children tag attrib text].
  apply incl_app_app; [apply incl_refl | apply incl_concat_filter].
Qed.

Lemma texts_of_remove_properties c :
  incl (texts_of name (remove_properties c)) (texts_of name c).
Proof.
  unfold remove_properties. generalize VS_PROPERTIES_TO_REMOVE as props.
  intro props. revert c. induction props as [|p r IH]; intro c; [apply incl_refl|].
  cbn [fold_left]. eapply incl_tran; [apply IH | apply texts_of_remove_children].
Qed.

Lemma texts_of_relabel_vertical_structure index e :
  incl (texts_of name (relabel_vertical_structure index e)) (texts_of name e).
Proof.
  unfold relabel_vertical_structure.
  destruct (update_first_desc _ _ e) as [e'|] eqn:E; cbn [or_else];
    [|apply incl_refl].
  refine (texts_of_update_first_desc (@incl (option string)) _ _ _ _ _ e e' E);
    [apply incl_refl | |].
  - intros. now apply incl_app_app.
  - intro x. eapply incl_tran; [apply texts_of_remove_properties|].
    rewrite texts_of_suffix_parts, texts_of_update_child; [apply incl_refl|].
    intros c Hc. apply texts_of_suffix_text.
    exact (tag_is_excl name _ _ name_name Hc).
Qed.

Lemma texts_of_relabel_eq feat_type index e :
  feat_type <> "VerticalStructure" ->
  texts_of name (relabel feat_type index e) = texts_of name e.
Proof.
  intro Hne. unfold relabel. cbv zeta.
  destruct (String.eqb_spec feat_type "VerticalStructure") as [E|_];
    [contradiction|].
  destruct (String.eqb feat_type "Airspace"), (in_list feat_type navaid_types),
    (String.eqb feat_type "AirportHeliport");
    rewrite ?texts_of_relabel_suffix, ?texts_of_relabel_airport; reflexivity.
Qed.

Lemma texts_of_relabel_incl feat_type index e :
  incl (texts_of name (relabel feat_type index e)) (texts_of name e).
Proof.
  destruct (String.eqb_spec feat_type "VerticalStructure") as [->|Hne].
  - apply texts_of_relabel_vertical_structure.
  - rewrite texts_of_relabel_eq by exact Hne. apply incl_refl.
Qed.

End Texts.

Lemma texts_of_pos_offset e lat lon :
  texts_of GML_POS (offset_all_coordinates e lat lon)
  = map (shifted_pos lat lon) (texts_of GML_POS e).
Proof.
  unfold offset_all_coordinates.
  rewrite (texts_of_iter_update GML_POS _ (fun x => x)), map_id.
  - apply texts_of_iter_update. intros x Hx. unfold offset_pos, shifted_pos.
    rewrite Hx. destruct (text x) as [s|] eqn:Ex; [|exact Ex].
    destruct (nonempty s && nonempty (str_strip s)); [reflexivity | exact Ex].
  - intros x Hx. unfold offset_poslist.
    rewrite (tag_is_excl GML_POSLIST GML_POS x) by (discriminate || exact Hx).
    reflexivity.
Qed.

Lemma texts_of_poslist_offset e lat lon :
  texts_of GML_POSLIST (offset_all_coordinates e lat lon)
  = map (shifted_poslist lat lon) (texts_of GML_POSLIST e).
Proof.
  unfold offset_all_coordinates.
  rewrite (texts_of_iter_update GML_POSLIST _ (shifted_poslist lat lon)).
  - f_equal. rewrite (texts_of_iter_update GML_POSLIST _ (fun x => x));
      [apply map_id|].
    intros x Hx. unfold offset_pos.
    rewrite (tag_is_excl GML_POS GML_POSLIST x) by (discriminate || exact Hx).
    reflexivity.
  - intros x Hx. unfold offset_poslist, shifted_poslist.
    rewrite Hx. destruct (text x) as [s|] eqn:Ex; [|exact Ex].
    destruct (nonempty s && nonempty (str_strip s)); [reflexivity | exact Ex].
Qed.

(** The coordinate texts of a clone: those of the original, each shifted
    by the offset the type and the uuid select; the relabelling drops
    some with the properties it removes from an obstacle and changes
    none. *)
Lemma clone_element_coordinates index offset offset_nav uuid_map lr old_uuid
      feat_type new_uuid orig clone :
  clone_element index offset offset_nav uuid_map lr old_uuid feat_type new_uuid
                orig = Ok clone ->
  let off := if uses_reduced_offset feat_type old_uuid lr
             then offset_nav else offset in
  (incl (texts_of GML_POS clone)
        (map (shifted_pos (fst off) (snd off)) (texts_of GML_POS orig))
   /\ incl (texts_of GML_POSLIST clone)
           (map (shifted_poslist (fst off) (snd off))
                (texts_of GML_POSLIST orig)))
  /\ (feat_type <> "VerticalStructure" ->
      texts_of GML_POS clone
      = map (shifted_pos (fst off) (snd off)) (texts_of GML_POS orig)
      /\ texts_of GML_POSLIST clone
         = map (shifted_poslist (fst off) (snd off))
               (texts_of GML_POSLIST orig)).
Proof.
  intros H off. unfold clone_element in H.
  apply rbind_ok in H as (e1 & He1 & H). inversion H; subst clone; clear H.
  fold off.
  assert (Hpos : texts_of GML_POS
                   (offset_all_coordinates (update_xlink_refs e1 uuid_map)
                      (fst off) (snd off))
                 = map (shifted_pos (fst off) (snd off)) (texts_of GML_POS orig)).
  { rewrite texts_of_pos_offset, texts_of_update_xlink_refs.
    now rewrite (texts_of_update_feature_ids GML_POS ltac:(discriminate) _ _ _ He1). }
  assert (Hlist : texts_of GML_POSLIST
                    (offset_all_coordinates (update_xlink_refs e1 uuid_map)
                       (fst off) (snd off))
                  = map (shifted_poslist (fst off) (snd off))
                        (texts_of GML_POSLIST orig)).
  { rewrite texts_of_poslist_offset, texts_of_update_xlink_refs.
    now rewrite (texts_of_update_feature_ids GML_POSLIST ltac:(discriminate)
                   _ _ _ He1). }
  split; [split|].
  - rewrite <- Hpos. apply texts_of_relabel_incl; discriminate.
  - rewrite <- Hlist. apply texts_of_relabel_incl; discriminate.
  - intro Hne. rewrite <- Hpos, <- Hlist.
    split; apply texts_of_relabel_eq; (discriminate || exact Hne).
Qed.

(** ** The offset of a clone *)

(** C4: the clone of a collected element is its copy with the identifiers
    and the links rewritten, then shifted, then relabelled; the shift is
    by the offset computed with a tenth of the distance when the type is
    Navaid or a navaid equipment type and the original uuid is not in
    [eadd_navaid_uuids], and by the offset computed with the distance
    otherwise.  The texts of the [gml:pos] and [gml:posList] elements of
    the clone are, in document order, those of the original, each
    non-blank one replaced by what [offset_coordinate] and
    [offset_pos_list] make of it with that offset; only an obstacle can
    lose some, with the properties its relabelling removes. *)
Theorem clone_offset_choice :
  forall collected index grid_cols distance_nm lr s cloned new_ahp s',
    clone_feature_set collected index grid_cols distance_nm lr s
    = Ok ((cloned, new_ahp), s') ->
    exists primary secondary,
      calculate_grid_offset index grid_cols distance_nm = Ok primary
      /\ calculate_grid_offset index grid_cols (distance_nm / 10)%float
         = Ok secondary
      /\ forall k old_uuid feat_type orig_ref orig,
          nth_error collected k = Some (old_uuid, (feat_type, orig_ref)) ->
          nth_error (store s) orig_ref = Some orig ->
          exists new_ref clone new_uuid ids_done,
            nth_error cloned k = Some (feat_type, new_ref)
            /\ nth_error (store s') new_ref = Some clone
            /\ update_feature_ids orig new_uuid = Ok ids_done
            /\ let relinked :=
                 update_xlink_refs ids_done
                   (uuid_map_from (dict_keys collected) [] (drawn s)) in
               let reduced :=
                 in_list feat_type ("Navaid" :: NAVAID_EQUIPMENT_TYPES)
                 && negb (set_mem old_uuid (or_else lr [])) in
               let off := if reduced then secondary else primary in
               (reduced = true ->
                clone
                = relabel feat_type index
                    (offset_all_coordinates relinked
                       (fst secondary) (snd secondary)))
               /\ (reduced = false ->
                   clone
                   = relabel feat_type index
                       (offset_all_coordinates relinked
                          (fst primary) (snd primary)))
               /\ incl (texts_of GML_POS clone)
                       (map (shifted_pos (fst off) (snd off))
                            (texts_of GML_POS orig))
               /\ incl (texts_of GML_POSLIST clone)
                       (map (shifted_poslist (fst off) (snd off))
                            (texts_of GML_POSLIST orig))
               /\ (feat_type <> "VerticalStructure" ->
                   texts_of GML_POS clone
                   = map (shifted_pos (fst off) (snd off))
                         (texts_of GML_POS orig)
                   /\ texts_of GML_POSLIST clone
                      = map (shifted_poslist (fst off) (snd off))
                            (texts_of GML_POSLIST orig)).
Proof.
  intros collected index grid_cols distance_nm lr s cloned new_ahp s' H.
  pose proof H as H0.
  apply clone_feature_set_ok in H0 as (primary & secondary & _ & H1 & H2 & _).
  exists primary, secondary. split; [exact H1|]. split; [exact H2|].
  intros k old_uuid feat_type orig_ref orig Hk Ho.
  destruct (clone_feature_set_item _ _ _ _ _ _ _ _ _ _ _ _ _ _ H Hk Ho)
    as (offset & offset_nav & new_uuid & clone & H1' & H2' & _ & He & Hc & Hcl & _).
  rewrite H1 in H1'. inversion H1'; subst offset.
  rewrite H2 in H2'. inversion H2'; subst offset_nav.
  pose proof (clone_element_coordinates _ _ _ _ _ _ _ _ _ _ He)
    as ((Hpos & Hlist) & Heq).
  unfold clone_element in He. apply rbind_ok in He as (e1 & He1 & He).
  inversion He; subst clone; clear He.
  eexists _, _, new_uuid, e1.
  split; [exact Hc|]. split; [exact Hcl|]. split; [exact He1|].
  unfold uses_reduced_offset, navaid_types in *. cbv zeta.
  split; [intros ->; reflexivity|]. split; [intros ->; reflexivity|].
  split; [exact Hpos|]. split; [exact Hlist | exact Heq].
Qed.

(** ** Obstacles *)

Lemma find_none_iff {A} (p : A -> bool) l :
  List.find p l = None <-> forall x, In x l -> p x = false.
Proof.
  split; [apply find_none|]. induction l as [|a l IH]; intro H; [reflexivity|].
  cbn [List.find]. rewrite (H a) by now left. apply IH. intros x Hx. apply H. now right.
Qed.

Lemma remove_all_children (g : string -> string) props :
  forall c y,
    In y (children (fold_left (fun c n => remove_children c (g n)) props c)) ->
    In y (children c)
    /\ forall p, In p props -> tag_is (g p) y = false.
Proof.
  induction props as [|q r IH]; intros c y Hy.
  - split; [exact Hy | intros ? []].
  - cbn [fold_left] in Hy. apply IH in Hy as [Hy Hr].
    unfold remove_children in Hy. destruct c as [t a x cs].
    cbn [set_children children] in Hy. apply filter_In in Hy as [Hy Hq].
    split; [exact Hy|]. intros p [<-|Hp]; [now apply negb_true_iff | now apply Hr].
Qed.

Lemma remove_properties_absent c prop :
  In prop VS_PROPERTIES_TO_REMOVE ->
  elem_find (remove_properties c) (qname AIXM_NS prop) = None.
Proof.
  intro Hp. unfold elem_find. apply find_none_iff. intros y Hy.
  unfold remove_properties in Hy.
  apply (remove_all_children (qname AIXM_NS)) in Hy as [_ Hy]. now apply Hy.
Qed.

Lemma tag_update_child name f e : tag (update_child name f e) = tag e.
Proof. destruct e; reflexivity. Qed.

Lemma tag_suffix_parts suffix e : tag (suffix_parts suffix e) = tag e.
Proof. destruct e; reflexivity. Qed.

Lemma tag_remove_properties e : tag (remove_properties e) = tag e.
Proof.
  unfold remove_properties. generalize VS_PROPERTIES_TO_REMOVE as props.
  intro props. revert e. induction props as [|p r IH]; intro e; [reflexivity|].
  cbn [fold_left]. rewrite IH. destruct e; reflexivity.
Qed.

Lemma is_timeslice_tag a b : tag a = tag b -> is_timeslice a = is_timeslice b.
Proof. unfold is_timeslice, tag_contains. now intros ->. Qed.

(** The version-block of a relabelled obstacle has none of the properties. *)
Lemma relabel_vertical_structure_absent index e ts prop :
  find_first_desc is_timeslice (relabel_vertical_structure index e) = Some ts ->
  In prop VS_PROPERTIES_TO_REMOVE ->
  elem_find ts (qname AIXM_NS prop) = None.
Proof.
  unfold relabel_vertical_structure.
  set (f := fun child =>
              remove_properties
                (suffix_parts (copy_suffix index)
                   (update_child AIXM_NAME (suffix_text (copy_suffix index)) child))).
  assert (Hf : forall x, is_timeslice x = true -> is_timeslice (f x) = true).
  { intros x Hx. rewrite <- Hx. apply is_timeslice_tag. unfold f.
    now rewrite tag_remove_properties, tag_suffix_parts, tag_update_child. }
  pose proof (update_first_desc_find is_timeslice f
                (tag_contains_node "TimeSlice") Hf e) as H.
  destruct (find_first_desc is_timeslice e) as [t|] eqn:E.
  - destruct H as (e' & -> & Hfind). cbn [or_else]. rewrite Hfind.
    intros Hts Hp. inversion Hts; subst ts. unfold f.
    now apply remove_properties_absent.
  - rewrite H. cbn [or_else]. rewrite E. discriminate.
Qed.

(** C6: cloning leaves every element that was in the store as it was, and
    the clone of a VerticalStructure element is a new element whose
    version-block has none of the six properties. *)
Theorem vertical_structure_clone_without_properties :
  forall collected index grid_cols distance_nm lr s cloned new_ahp s',
    clone_feature_set collected index grid_cols distance_nm lr s
    = Ok ((cloned, new_ahp), s') ->
    (forall r e, nth_error (store s) r = Some e -> nth_error (store s') r = Some e)
    /\ forall k old_uuid orig_ref orig,
        nth_error collected k = Some (old_uuid, ("VerticalStructure", orig_ref)) ->
        nth_error (store s) orig_ref = Some orig ->
        nth_error (store s') orig_ref = Some orig
        /\ exists new_ref clone,
            nth_error cloned k = Some ("VerticalStructure", new_ref)
            /\ List.length (store s) <= new_ref
            /\ nth_error (store s') new_ref = Some clone
            /\ forall ts prop,
                find_first_desc is_timeslice clone = Some ts ->
                In prop VS_PROPERTIES_TO_REMOVE ->
                elem_find ts (qname AIXM_NS prop) = None.
Proof.
  intros collected index grid_cols distance_nm lr s cloned new_ahp s' H.
  assert (Hframe : forall r e, nth_error (store s) r = Some e ->
                               nth_error (store s') r = Some e).
  { pose proof H as H0.
    apply clone_feature_set_ok in H0 as (_ & _ & clones & _ & _ & _ & Hs & _).
    intros r e Hr. rewrite Hs, nth_error_app1; [exact Hr|].
    apply nth_error_Some. congruence. }
  split; [exact Hframe|].
  intros k old_uuid orig_ref orig Hk Ho. split; [now apply Hframe|].
  destruct (clone_feature_set_item _ _ _ _ _ _ _ _ _ _ _ _ _ _ H Hk Ho)
    as (offset & offset_nav & new_uuid & clone & _ & _ & _ & He & Hc & Hcl & _).
  exists (List.length (store s) + k), clone.
  split; [exact Hc|]. split; [lia|]. split; [exact Hcl|].
  intros ts prop Hts Hp.
  unfold clone_element in He. apply rbind_ok in He as (e1 & _ & He).
  inversion He; subst clone; clear He.
  eapply relabel_vertical_structure_absent; [exact Hts | exact Hp].
Qed.

(** ** The shape of a tree under the updates *)

Lemma skeleton_eq e :
  skeleton e = Elem (tag e) [] None (map skeleton (children e)).
Proof. destruct e; reflexivity. Qed.

Lemma skeleton_iter_update f e : skeleton (iter_update f e) = skeleton e.
Proof.
  induction e as [t a x cs IH] using Element_ind'.
  cbn [iter_update skeleton tag]. f_equal. rewrite map_map.
  apply map_ext_Forall. exact IH.
Qed.

Lemma skeleton_set_text x e : skeleton (set_text x e) = skeleton e.
Proof. destruct e; reflexivity. Qed.

Lemma skeleton_elem_set e k v : skeleton (elem_set e k v) = skeleton e.
Proof. destruct e; reflexivity. Qed.

Lemma skeleton_update_child name f e :
  (forall c, skeleton (f c) = skeleton c) ->
  skeleton (update_child name f e) = skeleton e.
Proof.
  intro Hf. destruct e as [t a x cs]. unfold update_child.
  cbn [set_children children tag attrib text skeleton]. f_equal.
  induction cs as [|c r IH]; [reflexivity|].
  cbn [update_child_in]. destruct (tag_is name c); cbn [map]; [now rewrite Hf | now rewrite IH].
Qed.

Lemma skeleton_update_first_in p f :
  forall cs,
    Forall
      (fun e => forall e', update_first p f e = Some e' -> skeleton e' = skeleton e)
      cs ->
    forall cs',
      update_first_in (update_first p f) cs = Some cs' ->
      map skeleton cs' = map skeleton cs.
Proof.
  induction 1 as [|c r Hc _ IH]; intros cs' H; [discriminate|].
  cbn [update_first_in] in H. destruct (update_first p f c) as [c'|] eqn:E.
  - inversion H; subst. cbn [map]. f_equal. now apply Hc.
  - destruct (update_first_in (update_first p f) r) as [r'|]; [|discriminate].
    inversion H; subst. cbn [map]. f_equal. now apply IH.
Qed.

Lemma skeleton_update_first p f :
  (forall x, skeleton (f x) = skeleton x) ->
  forall e e', update_first p f e = Some e' -> skeleton e' = skeleton e.
Proof.
  intro Hf. induction e as [t a x cs IH] using Element_ind'. intros e' H.
  cbn [update_first] in H. destruct (p (Elem t a x cs)).
  - inversion H; subst. apply Hf.
  - destruct (update_first_in (update_first p f) cs) as [cs'|] eqn:E; [|discriminate].
    inversion H; subst. cbn [skeleton]. f_equal.
    eapply skeleton_update_first_in; eauto.
Qed.

Lemma skeleton_update_first_desc p f :
  (forall x, skeleton (f x) = skeleton x) ->
  forall e e', update_first_desc p f e = Some e' -> skeleton e' = skeleton e.
Proof.
  intros Hf e e' H. unfold update_first_desc in H.
  destruct (update_first_in (update_first p f) (children e)) as [cs'|] eqn:E;
    [|discriminate].
  inversion H; subst. destruct e as [t a x cs].
  cbn [set_children children tag attrib text skeleton]. f_equal.
  eapply skeleton_update_first_in; eauto.
  apply Forall_forall. intros c _. now apply skeleton_update_first.
Qed.

Lemma skeleton_renumber_children ts_id cs :
  Forall (fun e => forall idx, skeleton (fst (renumber ts_id e idx)) = skeleton e) cs ->
  forall idx,
    map skeleton (fst (map_state (renumber ts_id) cs idx)) = map skeleton cs.
Proof.
  induction 1 as [|c r Hc _ IH]; intro idx; [reflexivity|].
  cbn [map_state]. specialize (Hc idx).
  destruct (renumber ts_id c idx) as [c' idx1]. specialize (IH idx1).
  destruct (map_state (renumber ts_id) r idx1) as [r' idx2].
  cbn [fst map] in *. now rewrite Hc, IH.
Qed.

Lemma skeleton_renumber ts_id e :
  forall idx, skeleton (fst (renumber ts_id e idx)) = skeleton e.
Proof.
  induction e as [t a x cs IH] using Element_ind'. intro idx.
  cbn [renumber]. pose proof (skeleton_renumber_children ts_id cs IH) as Hcs.
  destruct (elem_get (Elem t a x cs) GML_ID).
  - specialize (Hcs (idx + 1)%Z).
    destruct (map_state (renumber ts_id) cs (idx + 1)%Z) as [cs' idx2].
    cbn [fst skeleton] in *. now rewrite Hcs.
  - specialize (Hcs idx).
    destruct (map_state (renumber ts_id) cs idx) as [cs' idx2].
    cbn [fst skeleton] in *. now rewrite Hcs.
Qed.

Lemma skeleton_retag_timeslice ts_id ts :
  skeleton (retag_timeslice ts_id ts) = skeleton ts.
Proof.
  unfold retag_timeslice. destruct ts as [t a x cs].
  cbn [elem_set set_children children tag attrib text skeleton]. f_equal.
  apply skeleton_renumber_children. apply Forall_forall. intros c _.
  apply skeleton_renumber.
Qed.

Lemma skeleton_update_feature_ids e new_uuid e' :
  update_feature_ids e new_uuid = Ok e' -> skeleton e' = skeleton e.
Proof.
  unfold update_feature_ids.
  set (e2 := update_child GML_IDENTIFIER (set_text (Some new_uuid))
               (elem_set e GML_ID ("uuid." ^^ new_uuid))).
  assert (H2 : skeleton e2 = skeleton e).
  { unfold e2. rewrite skeleton_update_child by apply skeleton_set_text.
    apply skeleton_elem_set. }
  destruct (find_first_desc is_timeslice e2) as [ts|].
  - intro H. apply rbind_ok in H as (seq & _ & H). apply rbind_ok in H as (corr & _ & H).
    inversion H; subst; clear H.
    destruct (update_first_desc is_timeslice _ e2) as [e3|] eqn:E; cbn [or_else];
      [|exact H2].
    rewrite <- H2. eapply skeleton_update_first_desc; [|exact E].
    intro x. apply skeleton_retag_timeslice.
  - intro H. inversion H; subst. exact H2.
Qed.

Lemma skeleton_offset_all_coordinates e lat lon :
  skeleton (offset_all_coordinates e lat lon) = skeleton e.
Proof. unfold offset_all_coordinates. now rewrite !skeleton_iter_update. Qed.

Lemma elem_iter_skeleton e : elem_iter (skeleton e) = map skeleton (elem_iter e).
Proof.
  induction e as [t a x cs IH] using Element_ind'.
  cbn [skeleton elem_iter map]. f_equal.
  rewrite concat_map, !map_map. f_equal. apply map_ext_Forall. exact IH.
Qed.

Lemma find_map_skeleton p l :
  (forall x, p (skeleton x) = p x) ->
  List.find p (map skeleton l) = option_map skeleton (List.find p l).
Proof.
  intro Hp. induction l as [|a l IH]; [reflexivity|].
  cbn [map List.find]. rewrite Hp. destruct (p a); [reflexivity | exact IH].
Qed.

Lemma tag_is_skeleton name x : tag_is name (skeleton x) = tag_is name x.
Proof. destruct x; reflexivity. Qed.

Lemma tag_contains_skeleton pat x : tag_contains pat (skeleton x) = tag_contains pat x.
Proof. destruct x; reflexivity. Qed.

(** Two trees of the same shape have their first node with a given kind
    of tag at the same place. *)
Lemma find_first_same_shape pat e1 e2 t1 :
  skeleton e1 = skeleton e2 ->
  find_first (tag_contains pat) e1 = Some t1 ->
  exists t2, find_first (tag_contains pat) e2 = Some t2 /\ skeleton t2 = skeleton t1.
Proof.
  intros Hs H1.
  assert (H : option_map skeleton (find_first (tag_contains pat) e2)
              = option_map skeleton (find_first (tag_contains pat) e1)).
  { unfold find_first.
    rewrite <- !find_map_skeleton by apply tag_contains_skeleton.
    now rewrite <- !elem_iter_skeleton, Hs. }
  rewrite H1 in H. destruct (find_first (tag_contains pat) e2) as [t2|]; [|discriminate].
  inversion H. eauto.
Qed.

Lemma elem_find_same_shape name t1 t2 d1 :
  skeleton t1 = skeleton t2 ->
  elem_find t1 name = Some d1 ->
  exists d2, elem_find t2 name = Some d2.
Proof.
  intros Hs H1.
  assert (H : option_map skeleton (elem_find t2 name)
              = option_map skeleton (elem_find t1 name)).
  { unfold elem_find.
    rewrite <- !find_map_skeleton by (intro; apply tag_is_skeleton).
    rewrite (skeleton_eq t1), (skeleton_eq t2) in Hs. inversion Hs as [[Ht Hc]].
    now rewrite Hc. }
  rewrite H1 in H. destruct (elem_find t2 name) as [d2|]; [eauto | discriminate].
Qed.

(** ** The airport *)

Lemma find_update_child_same name g cs :
  (forall c, tag_is name (g c) = tag_is name c) ->
  List.find (tag_is name) (update_child_in name g cs)
  = option_map g (List.find (tag_is name) cs).
Proof.
  intro Hg. induction cs as [|c r IH]; [reflexivity|].
  cbn [update_child_in List.find]. destruct (tag_is name c) eqn:E; cbn [List.find].
  - now rewrite Hg, E.
  - now rewrite E.
Qed.

Lemma tag_is_other name name' c :
  name <> name' -> tag_is name' c = true -> tag_is name c = false.
Proof.
  unfold tag_is. destruct (tag c) as [t|]; [|discriminate]. intros Hne H.
  apply String.eqb_eq in H. subst t. now apply String.eqb_neq.
Qed.

Lemma find_update_child_other name name' g cs :
  name <> name' ->
  (forall c, tag_is name (g c) = tag_is name c) ->
  List.find (tag_is name) (update_child_in name' g cs)
  = List.find (tag_is name) cs.
Proof.
  intros Hne Hg. induction cs as [|c r IH]; [reflexivity|].
  cbn [update_child_in List.find]. destruct (tag_is name' c) eqn:E; cbn [List.find].
  - now rewrite Hg, (tag_is_other name name' c Hne E).
  - now rewrite IH.
Qed.

Lemma tag_is_set_text name x c : tag_is name (set_text x c) = tag_is name c.
Proof. destruct c; reflexivity. Qed.

(** The relabelled airport: its version-block is found where it was, with
    the designator and the name of the copy when it had them. *)
Lemma relabel_airport_fields index e ts :
  find_first is_airport_timeslice e = Some ts ->
  exists ts',
    find_first is_airport_timeslice (relabel_airport index e) = Some ts'
    /\ (forall d, elem_find ts AIXM_DESIGNATOR = Some d ->
                  elem_find ts' AIXM_DESIGNATOR
                  = Some (set_text (Some (airport_designator index)) d))
    /\ (forall n, elem_find ts AIXM_NAME = Some n ->
                  elem_find ts' AIXM_NAME
                  = Some (set_text (Some (airport_name index)) n)).
Proof.
  intro Hts. unfold relabel_airport.
  set (f := fun ts =>
              update_child AIXM_NAME (set_text (Some (airport_name index)))
                (update_child AIXM_DESIGNATOR
                   (set_text (Some (airport_designator index))) ts)).
  assert (Hf : forall x, is_airport_timeslice x = true -> is_airport_timeslice (f x) = true).
  { intros [? ? ? ?] Hx. exact Hx. }
  pose proof (update_first_find is_airport_timeslice f
                (tag_contains_node "AirportHeliportTimeSlice") Hf e) as H.
  rewrite Hts in H. destruct H as (e' & -> & Hfind). cbn [or_else].
  exists (f ts). split; [exact Hfind|]. unfold f, update_child, elem_find.
  destruct ts as [t a x cs]. cbn [set_children children tag attrib text].
  split.
  - intros d Hd.
    rewrite find_update_child_other;
      [| discriminate | intro; apply tag_is_set_text].
    rewrite find_update_child_same by (intro; apply tag_is_set_text).
    now rewrite Hd.
  - intros n Hn.
    rewrite find_update_child_same by (intro; apply tag_is_set_text).
    rewrite find_update_child_other;
      [| discriminate | intro; apply tag_is_set_text].
    now rewrite Hn.
Qed.

Lemma relabel_airport_type index e :
  relabel "AirportHeliport" index e = relabel_airport index e.
Proof. reflexivity. Qed.

(** C7: in the clone with index [i] the version-block of the airport is
    where it was; its designator, when the original has one, reads [E],
    [i + 1] on two digits, [D], and its name, when the original has one,
    reads [DONLON INTL. ] followed by the same two digits; index 0 gives
    [E01D] and index 9 gives [E10D]. *)
Theorem airport_clone_designator_and_name :
  (forall collected index grid_cols distance_nm lr s cloned new_ahp s',
      clone_feature_set collected index grid_cols distance_nm lr s
      = Ok ((cloned, new_ahp), s') ->
      forall k old_uuid orig_ref orig ts,
        nth_error collected k = Some (old_uuid, ("AirportHeliport", orig_ref)) ->
        nth_error (store s) orig_ref = Some orig ->
        find_first is_airport_timeslice orig = Some ts ->
        exists new_ref clone ts',
          nth_error cloned k = Some ("AirportHeliport", new_ref)
          /\ nth_error (store s') new_ref = Some clone
          /\ find_first is_airport_timeslice clone = Some ts'
          /\ (forall d,
                 elem_find ts AIXM_DESIGNATOR = Some d ->
                 exists d',
                   elem_find ts' AIXM_DESIGNATOR = Some d'
                   /\ text d' = Some ("E" ^^ fmt_02d (index + 1) ^^ "D"))
          /\ (forall n,
                 elem_find ts AIXM_NAME = Some n ->
                 exists n',
                   elem_find ts' AIXM_NAME = Some n'
                   /\ text n' = Some ("DONLON INTL. " ^^ fmt_02d (index + 1))))
  /\ "E" ^^ fmt_02d (0 + 1) ^^ "D" = "E01D"
  /\ "E" ^^ fmt_02d (9 + 1) ^^ "D" = "E10D"
  /\ "DONLON INTL. " ^^ fmt_02d (0 + 1) = "DONLON INTL. 01"
  /\ "DONLON INTL. " ^^ fmt_02d (9 + 1) = "DONLON INTL. 10".
Proof.
  split; [| repeat split; reflexivity].
  intros collected index grid_cols distance_nm lr s cloned new_ahp s' H
         k old_uuid orig_ref orig ts Hk Ho Hts.
  destruct (clone_feature_set_item _ _ _ _ _ _ _ _ _ _ _ _ _ _ H Hk Ho)
    as (offset & offset_nav & new_uuid & clone & _ & _ & _ & He & Hc & Hcl & _).
  unfold clone_element in He. apply rbind_ok in He as (e1 & He1 & He).
  inversion He; subst clone; clear He.
  set (off := if uses_reduced_offset "AirportHeliport" old_uuid (or_else lr [])
              then offset_nav else offset) in *.
  set (e3 := offset_all_coordinates
               (update_xlink_refs e1
                  (uuid_map_from (dict_keys collected) [] (drawn s)))
               (fst off) (snd off)) in *.
  assert (Hshape : skeleton orig = skeleton e3).
  { unfold e3, update_xlink_refs.
    rewrite skeleton_offset_all_coordinates, skeleton_iter_update.
    symmetry. eapply skeleton_update_feature_ids; eauto. }
  destruct (find_first_same_shape _ _ _ _ Hshape Hts) as (ts3 & Hts3 & Hs3).
  destruct (relabel_airport_fields index e3 ts3 Hts3) as (ts' & Hts' & Hd & Hn).
  exists (List.length (store s) + k), (relabel "AirportHeliport" index e3), ts'.
  split; [exact Hc|]. split; [exact Hcl|].
  split; [rewrite relabel_airport_type; exact Hts'|]. split.
  - intros d Hfd. symmetry in Hs3.
    destruct (elem_find_same_shape _ _ _ _ Hs3 Hfd) as (d3 & Hd3).
    eexists. split; [apply Hd; exact Hd3|]. reflexivity.
  - intros n Hfn. symmetry in Hs3.
    destruct (elem_find_same_shape _ _ _ _ Hs3 Hfn) as (n3 & Hn3).
    eexists. split; [apply Hn; exact Hn3|]. reflexivity.
Qed.

(** * Further properties of the code *)

(** ** Errors of the clone engine *)

(** X1: without its airport among the collected features,
    [clone_feature_set] does all its work and then fails on
    [uuid_map[EADD_UUID]]: with a column, a row and a column that have a
    float, and elements whose version numbers can be read, it raises
    [KeyError]; and with zero columns it raises [ZeroDivisionError]
    whatever was collected. *)
Theorem clone_feature_set_raises :
  (forall (collected : dict (string * ref)) index grid_cols distance_nm lr s,
      grid_cols <> 0%Z ->
      is_ok (float_of_int (index / grid_cols)) = true ->
      is_ok (float_of_int (index mod grid_cols)) = true ->
      dict_mem collected EADD_UUID = false ->
      Forall
        (fun item =>
           exists e,
             nth_error (store s) (snd (snd item)) = Some e
             /\ ids_readable e = true) collected ->
      clone_feature_set collected index grid_cols distance_nm lr s
      = Raise KeyError)
  /\ (forall collected index distance_nm lr s,
         clone_feature_set collected index 0 distance_nm lr s
         = Raise ZeroDivisionError).
Proof.
  split; [| reflexivity].
  intros collected index grid_cols distance_nm lr s Hc Hr Hm Ha Hall.
  destruct (calculate_grid_offset_total index grid_cols distance_nm Hc Hr Hm)
    as (offset & H1).
  destruct (calculate_grid_offset_total index grid_cols (distance_nm / 10)%float
              Hc Hr Hm) as (offset_nav & H2).
  destruct s as [st d]. cbn [store drawn] in *.
  destruct (mfor_clone_one_total index offset offset_nav
              (uuid_map_from (dict_keys collected) [] d) (or_else lr []) st
              collected) with (extra := @nil Element)
                              (d := d + List.length (dict_keys collected))
    as (cloned & s' & Hfor).
  { rewrite Forall_forall in *. intros [old_uuid [feat_type orig]] Hin.
    split; [now apply Hall|]. cbn [fst]. rewrite uuid_map_from_mem.
    apply orb_true_iff. right. apply set_mem_In. unfold dict_keys.
    now apply (in_map fst) in Hin. }
  rewrite app_nil_r in Hfor.
  assert (Hahp : dict_index (uuid_map_from (dict_keys collected) [] d) EADD_UUID
                 = Raise KeyError).
  { unfold dict_index.
    assert (Hmem : dict_mem (uuid_map_from (dict_keys collected) [] d) EADD_UUID
                   = false).
    { rewrite uuid_map_from_mem, <- dict_mem_keys, Ha. reflexivity. }
    unfold dict_mem in Hmem. destruct (dict_get _ EADD_UUID); [discriminate|].
    reflexivity. }
  unfold clone_feature_set, mbind. cbv zeta. rewrite H1, H2. cbn [mlift].
  rewrite build_uuid_map_eq. cbn [store drawn]. rewrite Hfor, Hahp.
  reflexivity.
Qed.

(** X2: a sequence number or a correction number that is there, not
    empty, and not the text of an integer makes [update_feature_ids] raise
    [ValueError]. *)
Theorem update_feature_ids_bad_number :
  forall feature_elem new_uuid timeslice s,
    find_first_desc is_timeslice feature_elem = Some timeslice ->
    nonempty s = true ->
    py_int s = None ->
    (text_of (elem_find timeslice AIXM_SEQUENCE_NUMBER) = Some s
     \/ (is_ok (read_number timeslice AIXM_SEQUENCE_NUMBER 1) = true
         /\ text_of (elem_find timeslice AIXM_CORRECTION_NUMBER) = Some s)) ->
    update_feature_ids feature_elem new_uuid = Raise ValueError.
Proof.
  intros e u ts s Hts Hs Hint Hcase. unfold update_feature_ids.
  rewrite find_timeslice_after_ids, Hts.
  destruct Hcase as [Hseq | [Hseq Hcorr]].
  - unfold read_number at 1. rewrite Hseq, Hs, Hint. reflexivity.
  - apply is_ok_true in Hseq as (seq & ->). cbn [rbind].
    unfold read_number at 1. rewrite Hcorr, Hs, Hint. reflexivity.
Qed.

(** ** The run *)

Lemma main_loop_ok collected grid_cols distance_nm lr :
  forall l s copies s',
    mfor
      (fun i =>
         _ <~ mlift (calculate_grid_offset i grid_cols distance_nm) ;;
         ' (cloned, _) <~ clone_feature_set collected i grid_cols distance_nm lr ;;
         mret cloned) l s = Ok (copies, s') ->
    List.length copies = List.length l
    /\ Forall (fun c : list (string * ref) =>
                 List.length c = List.length collected) copies
    /\ drawn s' = drawn s + List.length l * List.length collected
    /\ exists extra,
        store s' = store s ++ extra
        /\ List.length extra = List.length l * List.length collected.
Proof.
  induction l as [|i l IH]; intros s copies s' H.
  - inversion H; subst. repeat split; [constructor | cbn; lia |].
    exists []. now rewrite app_nil_r.
  - cbn [mfor] in H. apply mbind_ok in H as (c & s1 & H1 & H).
    apply mbind_ok in H as (cs & s2 & H2 & H3). inversion H3; subst; clear H3.
    apply mbind_ok in H1 as (off & s0 & Hoff & H1).
    apply mlift_ok in Hoff as [_ ->].
    apply mbind_ok in H1 as ([cloned ahp] & s3 & Hc & H1).
    inversion H1; subst; clear H1.
    apply clone_feature_set_ok in Hc
      as (_ & _ & clones & _ & _ & Hd & Hs & Hl & Hlen & _).
    apply IH in H2 as (Hn & Hall & Hd2 & extra & Hs2 & Hl2).
    cbn [List.length]. split; [now rewrite Hn|].
    split; [constructor; assumption|]. split; [lia|].
    exists (clones ++ extra). split.
    + now rewrite Hs2, Hs, <- app_assoc.
    + rewrite length_app. lia.
Qed.

Lemma range_length count : List.length (range count) = Z.to_nat count.
Proof. unfold range. now rewrite length_map, length_seq. Qed.

(** X3: a run that ends has collected the airport's features as a pair
    and made [min(count, rows * cols)] copies (none when that is not
    positive), each with one clone for each collected feature; it drew
    that many uuids in all, and it left the elements that were in the
    store where they were, the clones after them. *)
Theorem main_core_copies :
  forall features_by_type grid_rows grid_cols distance_nm count s copies s',
    main_core features_by_type grid_rows grid_cols distance_nm count s
    = Ok (copies, s') ->
    exists collected eadd_navaid_uuids extra,
      collect_eadd_features (store s) features_by_type
      = Ok (RetPair collected eadd_navaid_uuids)
      /\ List.length copies = Z.to_nat (Z.min count (grid_rows * grid_cols))
      /\ Forall (fun c : list (string * ref) =>
                   List.length c = List.length collected) copies
      /\ drawn s' = drawn s + List.length copies * List.length collected
      /\ store s' = store s ++ extra
      /\ List.length extra = List.length copies * List.length collected.
Proof.
  intros fbt rows cols d count s copies s' H. unfold main_core in H.
  apply mbind_ok in H as (u & s0 & Hl & H). apply mlift_ok in Hl as [_ ->].
  apply mbind_ok in H as (r & s0 & Hc & H). apply mlift_ok in Hc as [Hc ->].
  apply mbind_ok in H as ([collected lr] & s0 & Hu & H).
  apply mlift_ok in Hu as [Hu ->].
  destruct r as [dd | c0 l0].
  - cbn [unpack_collected] in Hu. destruct dd as [|? [|? [|? ?]]]; discriminate.
  - inversion Hu; subst c0 l0; clear Hu.
    apply main_loop_ok in H as (Hn & Hall & Hd & extra & Hs & Hle).
    rewrite range_length in Hn, Hd, Hle.
    exists collected, lr, extra. rewrite Hn.
    split; [exact Hc|]. split; [reflexivity|]. split; [exact Hall|].
    split; [exact Hd|]. split; [exact Hs | exact Hle].
Qed.

(** ** Rewriting the links *)

Lemma href_target_iter_update_href uuid_map x :
  href_target (iter_update (update_href uuid_map) x)
  = href_target (update_href uuid_map x).
Proof.
  apply href_target_key. destruct x as [tg a y cs]. unfold node_key.
  cbn [iter_update tag attrib]. f_equal. unfold update_href.
  destruct (href_target (Elem tg a y cs)) as [old_uuid|]; [|reflexivity].
  destruct (dict_get uuid_map old_uuid); reflexivity.
Qed.

Lemma href_target_update_href_eq uuid_map x :
  (forall old_uuid new_uuid,
      dict_get uuid_map old_uuid = Some new_uuid ->
      str_contains "urn:uuid:" new_uuid = false) ->
  href_target (update_href uuid_map x)
  = option_map (fun t => or_else (dict_get uuid_map t) t) (href_target x).
Proof.
  intro Hm. unfold update_href. destruct (href_target x) as [old_uuid|] eqn:E.
  - cbn [option_map]. destruct (dict_get uuid_map old_uuid) as [new_uuid|] eqn:Em.
    + cbn [or_else]. rewrite href_target_set_href.
      * rewrite replace_scheme; [reflexivity | eapply Hm; eauto].
      * unfold href_target, elem_get in E. destruct (tag x); discriminate.
    + cbn [or_else]. exact E.
  - rewrite E. reflexivity.
Qed.

Lemma flat_map_map_opt {A} (phi : A -> A) (o : option A) :
  match option_map phi o with Some u => [u] | None => [] end
  = map phi match o with Some u => [u] | None => [] end.
Proof. destruct o; reflexivity. Qed.

(** X4: [update_xlink_refs] sends the link targets of an element, one by
    one and in document order, through the map: a target that is a key
    becomes its value, any other stays (the values are uuids: they hold no
    [urn:uuid:]). *)
Theorem update_xlink_refs_targets :
  forall feature_elem uuid_map,
    (forall old_uuid new_uuid,
        dict_get uuid_map old_uuid = Some new_uuid ->
        str_contains "urn:uuid:" new_uuid = false) ->
    link_targets (update_xlink_refs feature_elem uuid_map)
    = map (fun t => or_else (dict_get uuid_map t) t) (link_targets feature_elem).
Proof.
  intros e m Hm. unfold link_targets, update_xlink_refs.
  rewrite elem_iter_iter_update.
  induction (elem_iter e) as [|x l IH]; [reflexivity|].
  cbn [map flat_map]. rewrite map_app, <- IH. f_equal.
  rewrite href_target_iter_update_href, href_target_update_href_eq by exact Hm.
  apply flat_map_map_opt.
Qed.

Lemma iter_update_id f e :
  (forall x, In x (elem_iter e) -> f x = x) -> iter_update f e = e.
Proof.
  induction e as [t a y cs IH] using Element_ind'. intro H.
  cbn [iter_update]. rewrite (H (Elem t a y cs)) by (rewrite elem_iter_eq; now left).
  cbn [tag attrib text]. f_equal.
  rewrite <- (map_id cs) at 2. apply map_ext_Forall.
  rewrite Forall_forall in *. intros c Hc. apply IH; [exact Hc|].
  intros x Hx. apply H. rewrite elem_iter_eq. right. cbn [children].
  apply in_concat. exists (elem_iter c). split; [now apply in_map | exact Hx].
Qed.

(** X5: when no link target of an element is a key of the map (the empty
    map for one), [update_xlink_refs] leaves the element as it is. *)
Theorem update_xlink_refs_outside :
  forall feature_elem uuid_map,
    (forall t, In t (link_targets feature_elem) -> dict_get uuid_map t = None) ->
    update_xlink_refs feature_elem uuid_map = feature_elem.
Proof.
  intros e m H. unfold update_xlink_refs. apply iter_update_id.
  intros x Hx. unfold update_href.
  destruct (href_target x) as [t|] eqn:E; [|reflexivity].
  rewrite H; [reflexivity|]. apply In_link_targets.
  rewrite <- E. now apply in_map.
Qed.

(** ** The identifier map *)

Lemma uuid_map_from_notin keys :
  forall uuid_map n k,
    ~ In k keys ->
    dict_get (uuid_map_from keys uuid_map n) k = dict_get uuid_map k.
Proof.
  induction keys as [|k0 r IH]; intros m n k Hk; [reflexivity|].
  cbn [uuid_map_from]. rewrite IH by (intro; apply Hk; now right).
  apply dict_get_set_other. intros ->. apply Hk. now left.
Qed.

Lemma uuid_map_from_nth keys :
  forall uuid_map n i k,
    NoDup keys ->
    nth_error keys i = Some k ->
    dict_get (uuid_map_from keys uuid_map n) k = Some (uuid4 (n + i)).
Proof.
  induction keys as [|k0 r IH]; intros m n i k Hnd Hi; [destruct i; discriminate|].
  inversion Hnd as [|? ? Hk0 Hr]; subst. cbn [uuid_map_from]. destruct i as [|i].
  - inversion Hi; subst k. rewrite uuid_map_from_notin by exact Hk0.
    rewrite dict_get_set_same, Nat.add_0_r. reflexivity.
  - cbn [nth_error] in Hi. rewrite (IH _ (S n) i k Hr Hi). f_equal. f_equal. lia.
Qed.

Lemma nth_error_map_seq {A} (f : nat -> A) n len i :
  i < len -> nth_error (map f (seq n len)) i = Some (f (n + i)).
Proof.
  intro Hi. rewrite nth_error_map, nth_error_seq.
  destruct (Nat.ltb_spec i len); [reflexivity | lia].
Qed.

(** X6: for collected features with distinct keys, [build_uuid_map] draws
    one uuid for each key, in order: the map it returns has exactly these
    keys, the [i]-th key has the [i]-th uuid drawn, and when the uuids
    drawn are distinct no two keys share one. *)
Theorem build_uuid_map_bijection :
  forall keys s,
    NoDup keys ->
    exists uuid_map,
      build_uuid_map keys [] s
      = Ok (uuid_map, mkState (store s) (drawn s + List.length keys))
      /\ (forall k, dict_mem uuid_map k = set_mem k keys)
      /\ (forall i k,
             nth_error keys i = Some k ->
             dict_get uuid_map k = Some (uuid4 (drawn s + i)))
      /\ (NoDup (map uuid4 (seq (drawn s) (List.length keys))) ->
          forall k1 k2 u,
            dict_get uuid_map k1 = Some u ->
            dict_get uuid_map k2 = Some u ->
            k1 = k2).
Proof.
  intros keys s Hnd. exists (uuid_map_from keys [] (drawn s)).
  split; [apply build_uuid_map_eq|].
  split; [intro k; now rewrite uuid_map_from_mem|].
  split; [intros i k Hi; now apply uuid_map_from_nth|].
  intros Hfresh k1 k2 u H1 H2.
  assert (Hin : forall k, dict_get (uuid_map_from keys [] (drawn s)) k = Some u ->
                          exists i, nth_error keys i = Some k).
  { intros k Hk. apply In_nth_error, set_mem_In.
    pose proof (uuid_map_from_mem keys [] (drawn s) k) as Hm.
    unfold dict_mem in Hm at 1. rewrite Hk in Hm. cbn in Hm. now rewrite <- Hm. }
  destruct (Hin k1 H1) as (i1 & Hi1). destruct (Hin k2 H2) as (i2 & Hi2).
  rewrite (uuid_map_from_nth keys [] (drawn s) i1 k1 Hnd Hi1) in H1.
  rewrite (uuid_map_from_nth keys [] (drawn s) i2 k2 Hnd Hi2) in H2.
  assert (Hl1 : i1 < List.length keys) by (apply nth_error_Some; congruence).
  assert (Hl2 : i2 < List.length keys) by (apply nth_error_Some; congruence).
  assert (Hi : i1 = i2).
  { rewrite NoDup_nth_error in Hfresh. apply Hfresh.
    - now rewrite length_map, length_seq.
    - rewrite !nth_error_map_seq by assumption. congruence. }
  subst i2. congruence.
Qed.

(** ** Coordinate texts *)

Lemma wrap_step_width m pairs lines current pair :
  In pair pairs ->
  Forall (fun line => String.length line <= m \/ In line pairs) lines ->
  (current = EmptyString \/ String.length current <= m \/ In current pairs) ->
  Forall (fun line => String.length line <= m \/ In line pairs)
         (fst (wrap_step m (lines, current) pair))
  /\ (snd (wrap_step m (lines, current) pair) = EmptyString
      \/ String.length (snd (wrap_step m (lines, current) pair)) <= m
      \/ In (snd (wrap_step m (lines, current) pair)) pairs).
Proof.
  intros Hp Hl Hc. unfold wrap_step. destruct current as [|c r]; cbn [nonempty].
  - rewrite andb_false_r. cbn [fst snd]. auto.
  - rewrite andb_true_r. destruct Hc as [Hc|Hc]; [discriminate|].
    destruct (Nat.ltb_spec m (String.length (String c r ^^ " " ^^ pair)));
      cbn [fst snd].
    + split; [|auto]. apply Forall_app. split; [exact Hl|]. now constructor.
    + split; [exact Hl|]. right. left. assumption.
Qed.

Lemma wrap_fold_width m pairs :
  forall todo lines current,
    incl todo pairs ->
    Forall (fun line => String.length line <= m \/ In line pairs) lines ->
    (current = EmptyString \/ String.length current <= m \/ In current pairs) ->
    Forall (fun line => String.length line <= m \/ In line pairs)
           (fst (fold_left (wrap_step m) todo (lines, current)))
    /\ (snd (fold_left (wrap_step m) todo (lines, current)) = EmptyString
        \/ String.length (snd (fold_left (wrap_step m) todo (lines, current))) <= m
        \/ In (snd (fold_left (wrap_step m) todo (lines, current))) pairs).
Proof.
  induction todo as [|p r IH]; intros lines current Hin Hl Hc; [auto|].
  cbn [fold_left].
  destruct (wrap_step_width m pairs lines current p
              (Hin p (or_introl eq_refl)) Hl Hc) as [Hl' Hc'].
  destruct (wrap_step m (lines, current) p) as [l' c'].
  apply IH; [intros x Hx; apply Hin; now right | exact Hl' | exact Hc'].
Qed.

(** X7: the lines [offset_pos_list] joins are within [max_line_length],
    but for a line that is one pair on its own: a pair is never cut. *)
Theorem offset_pos_list_line_width :
  forall pos_list_str lat_offset lon_offset max_line_length,
    let pairs :=
      coord_pairs (str_split (str_strip pos_list_str)) lat_offset lon_offset in
    offset_pos_list pos_list_str lat_offset lon_offset max_line_length
    = str_join newline (wrap_lines max_line_length pairs)
    /\ Forall
         (fun line => String.length line <= max_line_length \/ In line pairs)
         (wrap_lines max_line_length pairs).
Proof.
  intros s lat lon m pairs. split; [reflexivity|]. unfold wrap_lines.
  destruct (wrap_fold_width m pairs pairs [] EmptyString (incl_refl _)
              (Forall_nil _) (or_introl eq_refl)) as [Hl Hc].
  destruct (fold_left (wrap_step m) pairs ([], "")) as [lines current].
  cbn [fst snd] in *. destruct current as [|c r]; cbn [nonempty]; [exact Hl|].
  apply Forall_app. split; [exact Hl|]. constructor; [|constructor].
  destruct Hc as [Hc|Hc]; [discriminate | exact Hc].
Qed.

Lemma coord_pairs_verbatim values lat lon :
  Forall (fun t => is_token t = true) values ->
  Forall (fun v => py_float v = None) values ->
  List.concat (map str_split (coord_pairs values lat lon))
  = firstn (2 * Nat.div2 (List.length values)) values.
Proof.
  induction values as [| a | a b l IH] using list_pair_ind; intros Ht Hp;
    [reflexivity | reflexivity |].
  inversion Ht as [|? ? Ha Ht']; subst. inversion Ht' as [|? ? Hb Hl]; subst.
  inversion Hp as [|? ? Pa Hp']; subst. inversion Hp' as [|? ? Pb Pl]; subst.
  cbn [coord_pairs map List.concat List.length Nat.div2].
  replace (2 * S (Nat.div2 (List.length l)))
    with (S (S (2 * Nat.div2 (List.length l)))) by lia.
  cbn [firstn]. rewrite IH by assumption.
  unfold shift_pair. rewrite Pa. now rewrite str_split_two.
Qed.

(** X8: whatever the number of tokens, the tokens of the text
    [offset_pos_list] returns are those of its pairs, in order; when no
    token is the text of a float they are the tokens given, but for the
    last one of an odd number: such a list comes back token for token. *)
Theorem offset_pos_list_tokens :
  forall pos_list_str lat_offset lon_offset max_line_length,
    let values := str_split (str_strip pos_list_str) in
    str_split
      (offset_pos_list pos_list_str lat_offset lon_offset max_line_length)
    = List.concat (map str_split (coord_pairs values lat_offset lon_offset))
    /\ (Forall (fun v => py_float v = None) values ->
        str_split
          (offset_pos_list pos_list_str lat_offset lon_offset max_line_length)
        = firstn (2 * (List.length values / 2)) values).
Proof.
  intros s lat lon m values.
  assert (H : str_split (offset_pos_list s lat lon m)
              = List.concat (map str_split (coord_pairs values lat lon))).
  { unfold offset_pos_list. fold values.
    rewrite str_split_join_newline. apply wrap_lines_tokens. }
  split; [exact H|]. intro Hp. rewrite H, <- Nat.div2_div.
  apply coord_pairs_verbatim; [apply str_split_tokens | exact Hp].
Qed.

(** X9: [offset_coordinate] returns its text as it is when the text has
    fewer than two tokens or one of the first two is not the text of a
    float; otherwise it returns the two shifted numbers and nothing else:
    a third token, an altitude, is dropped. *)
Theorem offset_coordinate_cases :
  forall coord_str lat_offset lon_offset,
    let parts := str_split (str_strip coord_str) in
    (List.length parts < 2 ->
     offset_coordinate coord_str lat_offset lon_offset = coord_str)
    /\ (forall p0 p1 rest,
           parts = p0 :: p1 :: rest ->
           py_float p0 = None \/ py_float p1 = None ->
           offset_coordinate coord_str lat_offset lon_offset = coord_str)
    /\ (forall p0 p1 rest lat lon,
           parts = p0 :: p1 :: rest ->
           py_float p0 = Some lat ->
           py_float p1 = Some lon ->
           offset_coordinate coord_str lat_offset lon_offset
           = float_repr (lat + lat_offset) ^^ " " ^^ float_repr (lon + lon_offset)
           /\ ((forall f, is_token (float_repr f) = true) ->
               str_split (offset_coordinate coord_str lat_offset lon_offset)
               = [float_repr (lat + lat_offset); float_repr (lon + lon_offset)])).
Proof.
  intros s lat_offset lon_offset parts. unfold offset_coordinate. fold parts.
  split; [|split].
  - destruct parts as [|p0 [|p1 rest]]; cbn [List.length]; [reflexivity.. | lia].
  - intros p0 p1 rest -> [H|H].
    + now rewrite H.
    + rewrite H. now destruct (py_float p0).
  - intros p0 p1 rest lat lon -> H0 H1. rewrite H0, H1.
    split; [reflexivity|]. intro Hr. now apply str_split_two.
Qed.

(** ** The identifiers of a clone *)

Lemma numbered_ids_S ts_id idx k :
  numbered_ids ts_id idx (S k)
  = (ts_id ^^ "_" ^^ str_of_int idx) :: numbered_ids ts_id (idx + 1) k.
Proof.
  unfold numbered_ids. cbn [seq map]. rewrite Z.add_0_r. f_equal.
  rewrite <- seq_shift, map_map. apply map_ext. intro j.
  do 3 f_equal. lia.
Qed.

Lemma numbered_ids_app ts_id k1 :
  forall idx k2,
    numbered_ids ts_id idx (k1 + k2)
    = numbered_ids ts_id idx k1 ++ numbered_ids ts_id (idx + Z.of_nat k1) k2.
Proof.
  induction k1 as [|k1 IH]; intros idx k2.
  - cbn [Nat.add]. unfold numbered_ids at 2. cbn. now rewrite Z.add_0_r.
  - cbn [Nat.add]. rewrite !numbered_ids_S, IH. cbn [app]. do 3 f_equal. lia.
Qed.

Lemma gml_ids_app l1 l2 : gml_ids (l1 ++ l2) = gml_ids l1 ++ gml_ids l2.
Proof. unfold gml_ids. apply flat_map_app. Qed.

Lemma renumber_children_ids ts_id cs :
  Forall
    (fun e =>
       forall idx,
         gml_ids (elem_iter (fst (renumber ts_id e idx)))
         = numbered_ids ts_id idx (List.length (gml_ids (elem_iter e)))
         /\ snd (renumber ts_id e idx)
            = (idx + Z.of_nat (List.length (gml_ids (elem_iter e))))%Z) cs ->
  forall idx,
    gml_ids (List.concat (map elem_iter (fst (map_state (renumber ts_id) cs idx))))
    = numbered_ids ts_id idx
        (List.length (gml_ids (List.concat (map elem_iter cs))))
    /\ snd (map_state (renumber ts_id) cs idx)
       = (idx + Z.of_nat (List.length (gml_ids (List.concat (map elem_iter cs)))))%Z.
Proof.
  induction 1 as [|c r Hc _ IH]; intro idx.
  - cbn. split; [reflexivity | lia].
  - cbn [map_state]. destruct (Hc idx) as [Hc1 Hc2].
    destruct (renumber ts_id c idx) as [c' idx1]. cbn [fst snd] in Hc1, Hc2.
    destruct (IH idx1) as [Hr1 Hr2].
    destruct (map_state (renumber ts_id) r idx1) as [r' idx2].
    cbn [fst snd map List.concat] in *.
    rewrite !gml_ids_app, length_app, numbered_ids_app, Hc1, Hr1, Hr2, Hc2.
    split; [reflexivity | lia].
Qed.

Lemma renumber_ids ts_id e :
  forall idx,
    gml_ids (elem_iter (fst (renumber ts_id e idx)))
    = numbered_ids ts_id idx (List.length (gml_ids (elem_iter e)))
    /\ snd (renumber ts_id e idx)
       = (idx + Z.of_nat (List.length (gml_ids (elem_iter e))))%Z.
Proof.
  induction e as [t a x cs IH] using Element_ind'. intro idx.
  cbn [renumber]. pose proof (renumber_children_ids ts_id cs IH) as Hcs.
  rewrite (elem_iter_eq (Elem t a x cs)). cbn [children].
  change (gml_ids (Elem t a x cs :: List.concat (map elem_iter cs)))
    with (match elem_get (Elem t a x cs) GML_ID with
          | Some g => [g]
          | None => []
          end ++ gml_ids (List.concat (map elem_iter cs))).
  destruct (elem_get (Elem t a x cs) GML_ID) as [g|] eqn:E.
  - destruct (Hcs (idx + 1)%Z) as [H1 H2].
    destruct (map_state (renumber ts_id) cs (idx + 1)%Z) as [cs' idx2].
    cbn [fst snd] in *. rewrite elem_iter_eq. cbn [children app List.length].
    rewrite numbered_ids_S, <- H1. split; [|lia].
    unfold gml_ids at 1. cbn [flat_map].
    assert (Hg : elem_get
                   (Elem t (attrib (elem_set (Elem t a x cs) GML_ID
                                      (ts_id ^^ "_" ^^ str_of_int idx))) x cs')
                   GML_ID = Some (ts_id ^^ "_" ^^ str_of_int idx)).
    { unfold elem_get in *. cbn [tag attrib elem_set] in *.
      destruct t; [apply dict_get_set_same | discriminate]. }
    rewrite Hg. reflexivity.
  - destruct (Hcs idx) as [H1 H2].
    destruct (map_state (renumber ts_id) cs idx) as [cs' idx2].
    cbn [fst snd] in *. rewrite elem_iter_eq. cbn [children app List.length].
    rewrite <- H1. split; [|lia]. unfold gml_ids at 1. cbn [flat_map].
    assert (Hg : elem_get (Elem t a x cs') GML_ID = None) by exact E.
    rewrite Hg. reflexivity.
Qed.

Lemma retag_timeslice_ids ts_id ts :
  gml_ids (descendants (retag_timeslice ts_id ts))
  = numbered_ids ts_id 1 (List.length (gml_ids (descendants ts))).
Proof.
  unfold retag_timeslice, descendants. destruct ts as [t a x cs].
  cbn [elem_set set_children children tag attrib text].
  apply renumber_children_ids. apply Forall_forall. intros c _.
  apply renumber_ids.
Qed.

(** X10: in the version-block that [update_feature_ids] rewrites, the
    descendants that carried a [gml:id] carry the identifier of the
    version-block followed by [_1], [_2], ... in document order, and the
    others still carry none. *)
Theorem update_feature_ids_numbering :
  forall feature_elem new_uuid timeslice seq corr,
    find_first_desc is_timeslice feature_elem = Some timeslice ->
    read_number timeslice AIXM_SEQUENCE_NUMBER 1 = Ok seq ->
    read_number timeslice AIXM_CORRECTION_NUMBER 0 = Ok corr ->
    exists e' ts',
      update_feature_ids feature_elem new_uuid = Ok e'
      /\ find_first_desc is_timeslice e' = Some ts'
      /\ gml_ids (descendants ts')
         = map (fun j =>
                  timeslice_id new_uuid seq corr ^^ "_"
                  ^^ str_of_int (1 + Z.of_nat j))
               (List.seq 0 (List.length (gml_ids (descendants timeslice)))).
Proof.
  intros e u ts seq corr Hts Hs Hc.
  destruct (update_feature_ids_timeslice e u ts seq corr Hts Hs Hc)
    as (e' & He & Hf & _).
  exists e', (retag_timeslice (timeslice_id u seq corr) ts).
  split; [exact He|]. split; [exact Hf|]. apply retag_timeslice_ids.
Qed.

Lemma update_first_keeps p f :
  (forall x, tag (f x) = tag x /\ text (f x) = text x) ->
  forall e e', update_first p f e = Some e' -> tag e' = tag e /\ text e' = text e.
Proof.
  intros Hf [t a x cs] e' H. cbn [update_first] in H.
  destruct (p (Elem t a x cs)); [inversion H; subst; apply Hf|].
  destruct (update_first_in (update_first p f) cs); inversion H; subst. auto.
Qed.

Lemma update_first_in_keeps p f :
  (forall x, tag (f x) = tag x /\ text (f x) = text x) ->
  forall cs cs',
    update_first_in (update_first p f) cs = Some cs' ->
    Forall2 (fun c c' => tag c' = tag c /\ text c' = text c) cs cs'.
Proof.
  intro Hf. induction cs as [|c r IH]; intros cs' H; [discriminate|].
  cbn [update_first_in] in H. destruct (update_first p f c) as [c'|] eqn:E.
  - inversion H; subst. constructor; [eapply update_first_keeps; eauto|].
    clear. induction r; constructor; auto.
  - destruct (update_first_in (update_first p f) r) as [r'|]; [|discriminate].
    inversion H; subst. constructor; [auto | now apply IH].
Qed.

Lemma find_tag_keeps name cs cs' i :
  Forall2 (fun c c' => tag c' = tag c /\ text c' = text c) cs cs' ->
  List.find (tag_is name) cs = Some i ->
  exists i', List.find (tag_is name) cs' = Some i' /\ text i' = text i.
Proof.
  induction 1 as [|c c' r r' [Ht Hx] _ IH]; [discriminate|].
  cbn [List.find]. unfold tag_is at 1 3. rewrite Ht.
  destruct (tag c) as [tg|]; [destruct (String.eqb tg name)|]; auto.
  intro H. inversion H; subst. eauto.
Qed.

Lemma retag_timeslice_keeps ts_id x :
  tag (retag_timeslice ts_id x) = tag x /\ text (retag_timeslice ts_id x) = text x.
Proof. destruct x; split; reflexivity. Qed.

Lemma update_feature_ids_root_id e u e' :
  update_feature_ids e u = Ok e' ->
  tag e <> None ->
  elem_get e' GML_ID = Some ("uuid." ^^ u).
Proof.
  intros H Htag. unfold update_feature_ids in H.
  set (e2 := update_child GML_IDENTIFIER (set_text (Some u))
               (elem_set e GML_ID ("uuid." ^^ u))) in *.
  assert (H2 : elem_get e2 GML_ID = Some ("uuid." ^^ u)).
  { unfold e2, elem_get, update_child, elem_set. destruct e as [[t|] a x cs];
      [|contradiction]. cbn [tag attrib set_children]. apply dict_get_set_same. }
  destruct (find_first_desc is_timeslice e2) as [ts|].
  - apply rbind_ok in H as (seq & _ & H). apply rbind_ok in H as (corr & _ & H).
    inversion H; subst; clear H.
    unfold update_first_desc.
    destruct (update_first_in _ (children e2)) as [cs'|]; cbn [option_map or_else];
      [|exact H2].
    destruct e2; exact H2.
  - inversion H; subst. exact H2.
Qed.

(** X11: [update_feature_ids] gives the feature the [gml:id]
    [uuid.<new uuid>] and its [gml:identifier] child, when there is one,
    the new uuid as text; it adds, removes and renames no element. *)
Theorem update_feature_ids_root :
  forall feature_elem new_uuid e',
    update_feature_ids feature_elem new_uuid = Ok e' ->
    tag feature_elem <> None ->
    elem_get e' GML_ID = Some ("uuid." ^^ new_uuid)
    /\ (forall ident,
           elem_find feature_elem GML_IDENTIFIER = Some ident ->
           exists ident',
             elem_find e' GML_IDENTIFIER = Some ident'
             /\ text ident' = Some new_uuid)
    /\ skeleton e' = skeleton feature_elem.
Proof.
  intros e u e' H Htag.
  split; [now apply (update_feature_ids_root_id e u e')|].
  split; [|eapply skeleton_update_feature_ids; eauto].
  { intros ident Hi. unfold update_feature_ids in H.
    set (e2 := update_child GML_IDENTIFIER (set_text (Some u))
                 (elem_set e GML_ID ("uuid." ^^ u))) in *.
    assert (H2 : elem_find e2 GML_IDENTIFIER = Some (set_text (Some u) ident)).
    { unfold e2, elem_find, update_child. destruct e as [t a x cs].
      cbn [elem_set set_children children tag attrib text].
      rewrite find_update_child_same by (intro; apply tag_is_set_text).
      unfold elem_find in Hi. cbn [children] in Hi. now rewrite Hi. }
    destruct (find_first_desc is_timeslice e2) as [ts|].
    + apply rbind_ok in H as (seq & _ & H). apply rbind_ok in H as (corr & _ & H).
      inversion H; subst; clear H.
      unfold update_first_desc.
      destruct (update_first_in _ (children e2)) as [cs'|] eqn:E;
        cbn [option_map or_else].
      * apply (update_first_in_keeps _ _ (retag_timeslice_keeps _)) in E.
        unfold elem_find in H2.
        destruct (find_tag_keeps _ _ _ _ E H2) as (i' & Hf & Ht).
        exists i'. split; [destruct e2; exact Hf|].
        rewrite Ht. destruct ident; reflexivity.
      * eexists. split; [exact H2|]. destruct ident; reflexivity.
    + inversion H; subst. eexists. split; [exact H2|]. destruct ident; reflexivity. }
Qed.

Lemma elem_get_key a b k : node_key a = node_key b -> elem_get a k = elem_get b k.
Proof.
  unfold node_key, elem_get. intro H. inversion H as [[Ht Ha]]. now rewrite Ht, Ha.
Qed.

Lemma node_key_update_first p f :
  (forall x, node_key (f x) = node_key x) ->
  forall e e', update_first p f e = Some e' -> node_key e' = node_key e.
Proof.
  intros Hf [t a x cs] e' H. cbn [update_first] in H.
  destruct (p (Elem t a x cs)); [inversion H; subst; apply Hf|].
  destruct (update_first_in (update_first p f) cs); inversion H; subst. reflexivity.
Qed.

Lemma node_key_update_first_desc p f e :
  node_key (or_else (update_first_desc p f e) e) = node_key e.
Proof.
  unfold update_first_desc.
  destruct (update_first_in (update_first p f) (children e));
    cbn [option_map or_else]; destruct e; reflexivity.
Qed.

Lemma node_key_relabel feat_type index e :
  node_key (relabel feat_type index e) = node_key e.
Proof.
  assert (Ha : forall x, node_key (relabel_airport index x) = node_key x).
  { intro x. unfold relabel_airport.
    destruct (update_first _ _ x) as [x'|] eqn:E; cbn [or_else]; [|reflexivity].
    eapply node_key_update_first; [|exact E]. intros [? ? ? ?]. reflexivity. }
  unfold relabel, relabel_suffix, relabel_vertical_structure.
  destruct (String.eqb feat_type "Airspace");
    destruct (String.eqb feat_type "VerticalStructure");
    destruct (in_list feat_type navaid_types);
    destruct (String.eqb feat_type "AirportHeliport");
    rewrite ?node_key_update_first_desc, ?Ha; reflexivity.
Qed.

Lemma elem_get_gml_id_after_links e uuid_map lat lon :
  elem_get (offset_all_coordinates (update_xlink_refs e uuid_map) lat lon) GML_ID
  = elem_get e GML_ID.
Proof.
  unfold offset_all_coordinates, update_xlink_refs.
  destruct e as [[t|] a x cs]; [|reflexivity].
  unfold elem_get. cbn [iter_update tag attrib].
  set (e := Elem (Some t) a x cs).
  assert (H1 : forall y, attrib (offset_pos lat lon y) = attrib y).
  { intro y. unfold offset_pos. destruct (tag_is GML_POS y); [|reflexivity].
    destruct (text y) as [s|]; [|reflexivity].
    destruct (nonempty s && nonempty (str_strip s)); destruct y; reflexivity. }
  assert (H2 : forall y, attrib (offset_poslist lat lon y) = attrib y).
  { intro y. unfold offset_poslist. destruct (tag_is GML_POSLIST y); [|reflexivity].
    destruct (text y) as [s|]; [|reflexivity].
    destruct (nonempty s && nonempty (str_strip s)); destruct y; reflexivity. }
  rewrite H2, H1. cbn [attrib]. unfold update_href.
  destruct (href_target e) as [old|]; [|reflexivity].
  destruct (dict_get uuid_map old); [|reflexivity].
  unfold elem_set. cbn [attrib]. apply dict_get_set_other. discriminate.
Qed.

(** X12: the clone of a collected feature carries the [gml:id]
    [uuid.<new uuid>] with the new uuid that [uuid_map] gives its old one,
    and the uuid that [clone_feature_set] returns is the one [uuid_map]
    gives [EADD_UUID]: it names the clone of the airport. *)
Theorem clone_feature_set_root_ids :
  forall collected index grid_cols distance_nm lr s cloned new_ahp s',
    clone_feature_set collected index grid_cols distance_nm lr s
    = Ok ((cloned, new_ahp), s') ->
    dict_get (uuid_map_from (dict_keys collected) [] (drawn s)) EADD_UUID
    = Some new_ahp
    /\ forall k old_uuid feat_type orig_ref orig,
        nth_error collected k = Some (old_uuid, (feat_type, orig_ref)) ->
        nth_error (store s) orig_ref = Some orig ->
        tag orig <> None ->
        exists new_uuid clone,
          dict_get (uuid_map_from (dict_keys collected) [] (drawn s)) old_uuid
          = Some new_uuid
          /\ nth_error cloned k = Some (feat_type, List.length (store s) + k)
          /\ nth_error (store s') (List.length (store s) + k) = Some clone
          /\ elem_get clone GML_ID = Some ("uuid." ^^ new_uuid).
Proof.
  intros collected index grid_cols distance_nm lr s cloned new_ahp s' H. split.
  - pose proof H as H0.
    apply clone_feature_set_ok in H0 as (_ & _ & _ & _ & _ & _ & _ & _ & _ & Ha & _).
    unfold dict_index in Ha.
    destruct (dict_get _ EADD_UUID); [now inversion Ha | discriminate].
  - intros k old_uuid feat_type orig_ref orig Hk Ho Htag.
    destruct (clone_feature_set_item _ _ _ _ _ _ _ _ _ _ _ _ _ _ H Hk Ho)
      as (offset & offset_nav & new_uuid & clone & _ & _ & Hm & He & Hc & Hcl & _).
    exists new_uuid, clone. repeat (split; [assumption|]).
    unfold clone_element in He. apply rbind_ok in He as (e1 & He1 & He).
    inversion He; subst clone; clear He.
    rewrite (elem_get_key _ _ GML_ID (node_key_relabel _ _ _)).
    rewrite elem_get_gml_id_after_links.
    now apply (update_feature_ids_root_id orig new_uuid e1).
Qed.

(** ** What the collector keeps *)

Lemma dict_get_In {V} (d : dict V) k v : dict_get d k = Some v -> In (k, v) d.
Proof.
  induction d as [|[k' v'] r IH]; [discriminate|]. cbn [dict_get].
  destruct (String.eqb_spec k' k) as [->|_]; intro H.
  - inversion H; subst. now left.
  - right. now apply IH.
Qed.

Lemma dict_mem_In {V} (d : dict V) k :
  dict_mem d k = true -> exists v, In (k, v) d.
Proof.
  unfold dict_mem. destruct (dict_get d k) as [v|] eqn:E; [|discriminate].
  intros _. exists v. now apply dict_get_In.
Qed.

Lemma In_dict_mem {V} (d : dict V) k v : In (k, v) d -> dict_mem d k = true.
Proof.
  intro H. rewrite dict_mem_keys. apply set_mem_In. unfold dict_keys.
  now apply (in_map fst) in H.
Qed.

Lemma dict_keys_set {V} (d : dict V) k v :
  dict_keys (dict_set d k v)
  = if dict_mem d k then dict_keys d else dict_keys d ++ [k].
Proof.
  unfold dict_keys, dict_mem. induction d as [|[k' v'] r IH]; [reflexivity|].
  cbn [dict_set dict_get]. destruct (String.eqb_spec k' k) as [->|Hne].
  - reflexivity.
  - cbn [map fst]. rewrite IH. destruct (dict_get r k); reflexivity.
Qed.

Lemma NoDup_dict_set {V} (d : dict V) k v :
  NoDup (dict_keys d) -> NoDup (dict_keys (dict_set d k v)).
Proof.
  intro H. rewrite dict_keys_set. destruct (dict_mem d k) eqn:E; [exact H|].
  apply NoDup_app; [exact H | repeat constructor; intros [] |].
  intros x Hx [<-|[]]. apply set_mem_In in Hx. rewrite <- dict_mem_keys in Hx.
  congruence.
Qed.

Lemma grows_refl st features_by_type c0 c :
  (forall u v, dict_get c0 u = Some v -> dict_get c u = Some v) ->
  grows st features_by_type c0 c c.
Proof. intro H. split; [|split; [|split]]; auto. Qed.

Lemma grows_trans st features_by_type c0 c1 c2 c3 :
  grows st features_by_type c0 c1 c2 ->
  grows st features_by_type c0 c2 c3 ->
  grows st features_by_type c0 c1 c3.
Proof.
  intros (_ & H2 & H3 & H4) (G1 & G2 & G3 & G4). split; [|split; [|split]]; auto.
Qed.

Lemma admissible_other st features_by_type u t r feats :
  t <> "Airspace" ->
  dict_get features_by_type t = Some feats ->
  In (u, r) feats ->
  admissible st features_by_type u t r.
Proof. intros Ht Hf Hin. split; [eauto | intro E; contradiction]. Qed.

(** Adding under a key that was not there at the start an admissible
    feature. *)
Lemma grows_set st features_by_type c0 c u t r :
  (forall u v, dict_get c0 u = Some v -> dict_get c u = Some v) ->
  dict_mem c0 u = false ->
  admissible st features_by_type u t r ->
  grows st features_by_type c0 c (dict_set c u (t, r)).
Proof.
  intros Hext Hu Ha. split; [|split; [|split]].
  - intros u' v Hv. rewrite dict_get_set_other; [now apply Hext|].
    intros ->. unfold dict_mem in Hu. now rewrite Hv in Hu.
  - intros u' Hm. rewrite dict_mem_set, Hm. reflexivity.
  - apply NoDup_dict_set.
  - intros Hc u' t' r' Hg. destruct (String.eqb_spec u' u) as [->|Hne].
    + rewrite dict_get_set_same in Hg. inversion Hg; subst. exact Ha.
    + rewrite dict_get_set_other in Hg by exact Hne. eauto.
Qed.

Lemma grows_ext st features_by_type c0 c c' :
  grows st features_by_type c0 c c' ->
  forall u v, dict_get c0 u = Some v -> dict_get c' u = Some v.
Proof. intros (H & _). exact H. Qed.

Lemma not_mem_start {V} (c0 c : dict V) u :
  (forall u v, dict_get c0 u = Some v -> dict_get c u = Some v) ->
  dict_mem c u = false -> dict_mem c0 u = false.
Proof.
  intros Hext Hu. unfold dict_mem in *.
  destruct (dict_get c0 u) as [v|] eqn:E; [|reflexivity].
  now rewrite (Hext _ _ E) in Hu.
Qed.

(** A fold that returns keeps what every step keeps, and what a step
    brings about and later steps keep holds at the end. *)
Lemma rfold_inv {A S} (f : S -> A -> result S) (I : S -> Prop)
      (G : A -> S -> Prop) (l : list A) :
  (forall s a s', In a l -> I s -> f s a = Ok s' -> I s' /\ G a s') ->
  (forall a b s s', In b l -> G a s -> I s -> f s b = Ok s' -> G a s') ->
  forall s s',
    I s -> rfold f l s = Ok s' -> I s' /\ forall a, In a l -> G a s'.
Proof.
  induction l as [|a l IH]; intros Hstep Hkeep s s' Hi H.
  - inversion H; subst. split; [exact Hi | intros ? []].
  - assert (Hg : forall x l' s s', incl l' (a :: l) ->
                   I s -> G x s -> rfold f l' s = Ok s' -> G x s').
    { intros x. induction l' as [|b l' IH']; intros s2 s3 Hl Hi2 Hg2 H2.
      - inversion H2; subst. exact Hg2.
      - cbn [rfold] in H2. apply rbind_ok in H2 as (s4 & H4 & H5).
        assert (Hb : In b (a :: l)) by (apply Hl; now left).
        apply (IH' s4 s3).
        + intros y Hy. apply Hl. now right.
        + now apply (Hstep _ _ _ Hb Hi2 H4).
        + exact (Hkeep _ _ _ _ Hb Hg2 Hi2 H4).
        + exact H5. }
    cbn [rfold] in H. apply rbind_ok in H as (s1 & H1 & H2).
    destruct (Hstep _ _ _ (or_introl eq_refl) Hi H1) as [Hi1 Hg1].
    destruct (IH (fun s a0 s' Ha => Hstep s a0 s' (or_intror Ha))
                 (fun a0 b s s' Hb => Hkeep a0 b s s' (or_intror Hb))
                 _ _ Hi1 H2) as [Hi' Hall].
    split; [exact Hi'|].
    intros b [<-|Hb]; [|now apply Hall].
    apply (Hg _ l s1 s'); auto. intros y Hy. now right.
Qed.

Lemma dict_index_ok {V} (d : dict V) k v :
  dict_index d k = Ok v -> dict_get d k = Some v.
Proof.
  unfold dict_index. destruct (dict_get d k); intro H; inversion H; reflexivity.
Qed.

Lemma In_dict_set {V} (d : dict V) k v k' v' :
  In (k', v') (dict_set d k v) -> (k' = k /\ v' = v) \/ In (k', v') d.
Proof.
  induction d as [|[k0 v0] r IH]; cbn [dict_set].
  - intros [H|[]]. inversion H; subst. now left.
  - destruct (String.eqb_spec k0 k) as [->|Hne].
    + intros [H|H]; [inversion H; subst; now left | right; now right].
    + intros [H|H]; [right; now left|].
      destruct (IH H) as [E|Hin]; [now left | right; now right].
Qed.

Lemma grows_step st features_by_type c0 c1 c2 c3 :
  grows st features_by_type c0 c1 c2 ->
  grows st features_by_type c2 c2 c3 ->
  grows st features_by_type c0 c1 c3.
Proof.
  intros (H1 & H2 & H3 & H4) (G1 & G2 & G3 & G4). split; [|split; [|split]]; auto.
Qed.

(** The features [find_referencing] returns are new ones of the type asked
    for. *)
Lemma find_referencing_new st features_by_type collected feat_type targets found :
  find_referencing st features_by_type collected feat_type targets = Ok found ->
  exists feats,
    dict_get features_by_type feat_type = Some feats /\
    forall u r, In (u, r) found ->
                dict_mem collected u = false /\ In (u, r) feats.
Proof.
  unfold find_referencing. intro H. apply rbind_ok in H as (feats & Hf & H).
  exists feats. split; [now apply dict_index_ok|].
  apply (rfold_inv _
           (fun found => forall u r, In (u, r) found ->
                           dict_mem collected u = false /\ In (u, r) feats)
           (fun _ _ => True)) in H.
  - exact (proj1 H).
  - intros s [fuuid felem] s' Hin Hi Hs. split; [|exact I].
    destruct (dict_mem collected fuuid) eqn:Em.
    + inversion Hs; subst. exact Hi.
    + apply rbind_ok in Hs as (refs & _ & Hs). inversion Hs; subst.
      destruct (set_meets refs targets); [|exact Hi].
      intros u r Hur. apply In_dict_set in Hur as [[-> ->]|Hur]; auto.
  - intros; exact I.
  - intros u r [].
Qed.

Lemma add_found_grows st features_by_type collected feat_type feats found :
  feat_type <> "Airspace" ->
  dict_get features_by_type feat_type = Some feats ->
  (forall u r, In (u, r) found ->
               dict_mem collected u = false /\ In (u, r) feats) ->
  grows st features_by_type collected collected
        (add_found collected feat_type found).
Proof.
  intros Hty Hf. unfold add_found.
  assert (Hgen : forall found c,
             (forall u r, In (u, r) found ->
                          dict_mem collected u = false /\ In (u, r) feats) ->
             grows st features_by_type collected collected c ->
             grows st features_by_type collected collected
                   (fold_left (fun c '(u, e) => dict_set c u (feat_type, e))
                              found c)).
  { induction found0 as [|[u e] l IH]; intros c Hall Hg; [exact Hg|].
    cbn [fold_left]. apply IH.
    - intros u' r' Hin. apply Hall. now right.
    - destruct (Hall u e (or_introl eq_refl)) as [Hu He].
      eapply grows_trans; [exact Hg|].
      apply grows_set; [exact (grows_ext _ _ _ _ _ Hg) | exact Hu |].
      eapply admissible_other; eauto. }
  intro Hall. apply Hgen; [exact Hall|]. apply grows_refl. auto.
Qed.

(** One step of the closure: the features found and added. *)
Lemma find_add_grows st features_by_type collected feat_type targets found :
  feat_type <> "Airspace" ->
  find_referencing st features_by_type collected feat_type targets = Ok found ->
  grows st features_by_type collected collected
        (add_found collected feat_type found).
Proof.
  intros Hty H. apply find_referencing_new in H as (feats & Hf & Hall).
  eapply add_found_grows; eauto.
Qed.

(** The loop of the navaid step and of each equipment type: every feature
    of the type is collected, and a noted uuid is a collected one. *)
Lemma collect_all_ok st features_by_type t feats targets c lr c' lr' :
  t <> "Airspace" ->
  dict_get features_by_type t = Some feats ->
  rfold
    (fun '(collected, eadd_navaid_uuids) '(fuuid, felem) =>
       if negb (dict_mem collected fuuid) then
         refs <- hrefs_at st felem ;;
         Ok (dict_set collected fuuid (t, felem),
             if set_meets refs targets
             then set_add eadd_navaid_uuids fuuid else eadd_navaid_uuids)
       else Ok (collected, eadd_navaid_uuids))
    feats (c, lr) = Ok (c', lr') ->
  grows st features_by_type c c c'
  /\ (forall u, dict_mem feats u = true -> dict_mem c' u = true)
  /\ (noted_in c lr -> noted_in c' lr').
Proof.
  intros Hty Hf H.
  apply (rfold_inv _
           (fun s : dict (string * ref) * pyset =>
              grows st features_by_type c c (fst s)
              /\ (noted_in c lr -> noted_in (fst s) (snd s)))
           (fun (a : string * ref) (s : dict (string * ref) * pyset) =>
              dict_mem (fst s) (fst a) = true)) in H.
  - cbn [fst snd] in H. destruct H as [[Hg Hn] Hall].
    split; [exact Hg | split; [|exact Hn]].
    intros u Hu. apply dict_mem_In in Hu as (r & Hr). exact (Hall _ Hr).
  - intros [c1 lr1] [fuuid felem] [c2 lr2] Hin [Hg Hn] Hs. cbn [fst snd] in *.
    destruct (dict_mem c1 fuuid) eqn:Em; cbn [negb] in Hs.
    + inversion Hs; subst. rewrite Em. auto.
    + apply rbind_ok in Hs as (refs & _ & Hs). inversion Hs; subst. clear Hs.
      assert (Hg2 : grows st features_by_type c c (dict_set c1 fuuid (t, felem))).
      { eapply grows_trans; [exact Hg|].
        apply grows_set; [exact (grows_ext _ _ _ _ _ Hg) | |].
        - exact (not_mem_start _ _ _ (grows_ext _ _ _ _ _ Hg) Em).
        - eapply admissible_other; eauto. }
      split; [split; [exact Hg2|]|].
      * intros Hn0 x Hx. rewrite dict_mem_set.
        destruct (set_meets refs targets).
        -- rewrite set_mem_add in Hx. apply orb_true_iff in Hx as [Hx|Hx].
           ++ now rewrite (Hn Hn0 _ Hx).
           ++ rewrite Hx. apply orb_true_r.
        -- now rewrite (Hn Hn0 _ Hx).
      * rewrite dict_mem_set, String.eqb_refl. apply orb_true_r.
  - intros [u r] [fuuid felem] [c1 lr1] [c2 lr2] Hin Hg [Hi _] Hs.
    cbn [fst snd] in *.
    destruct (dict_mem c1 fuuid) eqn:Em; cbn [negb] in Hs.
    + inversion Hs; subst. exact Hg.
    + apply rbind_ok in Hs as (refs & _ & Hs). inversion Hs; subst.
      rewrite dict_mem_set, Hg. reflexivity.
  - cbn [fst snd]. split; [apply grows_refl; auto | auto].
Qed.

(** All the features of the types [types] are collected. *)
Lemma navaid_pass_ok st features_by_type targets c lr c' lr' :
  navaid_pass st features_by_type targets (c, lr) = Ok (c', lr') ->
  grows st features_by_type c c c'
  /\ (forall feats u, dict_get features_by_type "Navaid" = Some feats ->
                      dict_mem feats u = true -> dict_mem c' u = true)
  /\ (noted_in c lr -> noted_in c' lr').
Proof.
  unfold navaid_pass. intro H. apply rbind_ok in H as (feats & Hf & H).
  apply dict_index_ok in Hf.
  assert (Hty : "Navaid" <> "Airspace") by discriminate.
  destruct (collect_all_ok _ _ _ _ _ _ _ _ _ Hty Hf H) as (Hg & Hall & Hn).
  split; [exact Hg | split; [|exact Hn]].
  intros feats' u Hf' Hu. rewrite Hf in Hf'. inversion Hf'; subst. auto.
Qed.

Lemma equipment_pass_ok st features_by_type targets c lr c' lr' :
  equipment_pass st features_by_type targets (c, lr) = Ok (c', lr') ->
  grows st features_by_type c c c'
  /\ (forall t feats u, In t NAVAID_EQUIPMENT_TYPES ->
                        dict_get features_by_type t = Some feats ->
                        dict_mem feats u = true -> dict_mem c' u = true)
  /\ (noted_in c lr -> noted_in c' lr').
Proof.
  unfold equipment_pass. intro H.
  apply (rfold_inv _
           (fun s : dict (string * ref) * pyset =>
              grows st features_by_type c c (fst s)
              /\ (noted_in c lr -> noted_in (fst s) (snd s)))
           (fun (t : string) (s : dict (string * ref) * pyset) =>
              forall feats u, dict_get features_by_type t = Some feats ->
                              dict_mem feats u = true ->
                              dict_mem (fst s) u = true)) in H.
  - cbn [fst snd] in H. destruct H as [[Hg Hn] Hall].
    split; [exact Hg | split; [|exact Hn]].
    intros t feats u Ht. exact (Hall t Ht feats u).
  - intros [c1 lr1] t [c2 lr2] Hin [Hg Hn] Hs. cbn [fst snd] in *.
    apply rbind_ok in Hs as (feats & Hf & Hs). apply dict_index_ok in Hf.
    assert (Hty : t <> "Airspace").
    { intros ->. revert Hin. clear. cbv. intuition discriminate. }
    destruct (collect_all_ok _ _ _ _ _ _ _ _ _ Hty Hf Hs) as (Hg' & Hall & Hn').
    split; [split|].
    + eapply grows_step; eauto.
    + auto.
    + intros feats' u Hf' Hu. rewrite Hf in Hf'. inversion Hf'; subst. auto.
  - intros t b [c1 lr1] [c2 lr2] Hin Hg [Hi _] Hs. cbn [fst snd] in *.
    apply rbind_ok in Hs as (feats & Hf & Hs). apply dict_index_ok in Hf.
    assert (Hty : b <> "Airspace").
    { intros ->. revert Hin. clear. cbv. intuition discriminate. }
    destruct (collect_all_ok _ _ _ _ _ _ _ _ _ Hty Hf Hs) as ((_ & Hm & _) & _).
    intros feats' u Hf' Hu. apply Hm. eauto.
  - cbn [fst snd]. split; [apply grows_refl; auto | auto].
Qed.

Lemma bottom_up_ok st features_by_type c c' lr' :
  bottom_up st features_by_type c = Ok (c', lr') ->
  grows st features_by_type c c c'
  /\ (forall t feats u, In t ("Navaid" :: NAVAID_EQUIPMENT_TYPES) ->
                        dict_get features_by_type t = Some feats ->
                        dict_mem feats u = true -> dict_mem c' u = true)
  /\ noted_in c' lr'.
Proof.
  unfold bottom_up. intro H. apply rbind_ok in H as ([c1 lr1] & H1 & H2).
  cbn [snd] in H2.
  destruct (navaid_pass_ok _ _ _ _ _ _ _ H1) as (Hg1 & Hall1 & Hn1).
  destruct (equipment_pass_ok _ _ _ _ _ _ _ H2) as (Hg2 & Hall2 & Hn2).
  split; [eapply grows_step; eauto | split].
  - intros t feats u [<-|Ht] Hf Hu.
    + destruct Hg2 as (_ & Hm & _). apply Hm. eauto.
    + eauto.
  - apply Hn2, Hn1. intros x Hx. discriminate.
Qed.

(** What holds of the uuids noted before the top-down pass and of the
    keys of the equipment holds of the uuids noted after it. *)
Lemma topdown_pass_inv st features_by_type (P : string -> Prop) lr lr' :
  (forall t feats u, In t NAVAID_EQUIPMENT_TYPES ->
                     dict_get features_by_type t = Some feats ->
                     dict_mem feats u = true -> P u) ->
  (forall x, set_mem x lr = true -> P x) ->
  topdown_pass st features_by_type lr = Ok lr' ->
  forall x, set_mem x lr' = true -> P x.
Proof.
  intros Hall Hn H. unfold topdown_pass in H.
  set (Inv := fun m : pyset => forall x, set_mem x m = true -> P x).
  assert (Hmark : forall m ref_uuid m',
             Inv m ->
             mark_equipment features_by_type m ref_uuid = Ok m' ->
             Inv m').
  { intros m ref_uuid m' Hm Hr. unfold mark_equipment in Hr.
    apply (rfold_inv _ Inv (fun _ _ => True)) in Hr.
    - exact (proj1 Hr).
    - intros s t s' Ht Hs Hstep. split; [|exact I].
      apply rbind_ok in Hstep as (feats & Hf & Hstep).
      apply dict_index_ok in Hf. inversion Hstep; subst.
      destruct (dict_mem feats ref_uuid) eqn:Em; [|exact Hs].
      intros x Hx. rewrite set_mem_add in Hx.
      apply orb_true_iff in Hx as [Hx|Hx]; [now apply Hs|].
      apply String.eqb_eq in Hx. subst. eauto.
    - intros; exact I.
    - exact Hm. }
  apply (rfold_inv _ Inv (fun _ _ => True)) in H.
  - exact (proj1 H).
  - intros s fuuid s' _ Hs Hstep. split; [|exact I].
    destruct (dict_get (or_else (dict_get features_by_type "Navaid") []) fuuid).
    + apply rbind_ok in Hstep as (navaids & _ & Hstep).
      apply rbind_ok in Hstep as (felem & _ & Hstep).
      apply rbind_ok in Hstep as (refs & _ & Hstep).
      apply (rfold_inv _ Inv (fun _ _ => True)) in Hstep.
      * exact (proj1 Hstep).
      * intros m r0 m' _ Hm Hr. split; [eauto | exact I].
      * intros; exact I.
      * exact Hs.
    + inversion Hstep; subst. exact Hs.
  - intros; exact I.
  - exact Hn.
Qed.

Lemma vertical_structure_pass_ok st features_by_type c c' :
  vertical_structure_pass features_by_type c = Ok c' ->
  grows st features_by_type c c c'
  /\ forall feats u, dict_get features_by_type "VerticalStructure" = Some feats ->
                     dict_mem feats u = true -> dict_mem c' u = true.
Proof.
  unfold vertical_structure_pass. intro H.
  apply rbind_ok in H as (feats & Hf & H). apply dict_index_ok in Hf.
  inversion H; subst. clear H.
  set (f := fun (c : dict (string * ref)) '(fuuid, felem) =>
              if negb (dict_mem c fuuid)
              then dict_set c fuuid ("VerticalStructure", felem) else c).
  assert (Hstep : forall c1 a, In a feats ->
             grows st features_by_type c c c1 ->
             grows st features_by_type c c (f c1 a)
             /\ dict_mem (f c1 a) (fst a) = true).
  { intros c1 [fuuid felem] Hin Hg. unfold f. cbn [fst].
    destruct (dict_mem c1 fuuid) eqn:Em; cbn [negb]; [auto|].
    split.
    - eapply grows_trans; [exact Hg|].
      apply grows_set; [exact (grows_ext _ _ _ _ _ Hg) | |].
      + exact (not_mem_start _ _ _ (grows_ext _ _ _ _ _ Hg) Em).
      + eapply admissible_other; eauto. discriminate.
    - rewrite dict_mem_set, String.eqb_refl. apply orb_true_r. }
  assert (Hkeep : forall l c1 u, dict_mem c1 u = true ->
                                 dict_mem (fold_left f l c1) u = true).
  { induction l as [|[fuuid felem] l IH]; intros c1 u Hu; [exact Hu|].
    cbn [fold_left]. apply IH. unfold f.
    destruct (dict_mem c1 fuuid); cbn [negb]; [exact Hu|].
    rewrite dict_mem_set, Hu. reflexivity. }
  assert (Hgen : forall l c1, incl l feats ->
             grows st features_by_type c c c1 ->
             grows st features_by_type c c (fold_left f l c1)
             /\ forall a, In a l -> dict_mem (fold_left f l c1) (fst a) = true).
  { induction l as [|a l IH]; intros c1 Hl Hg.
    - split; [exact Hg | intros ? []].
    - cbn [fold_left].
      destruct (Hstep c1 a (Hl a (or_introl eq_refl)) Hg) as [Hg1 Hm1].
      destruct (IH (f c1 a) (fun y Hy => Hl y (or_intror Hy)) Hg1) as [Hg2 Hall].
      split; [exact Hg2|]. intros b [<-|Hb]; [now apply Hkeep | now apply Hall]. }
  destruct (Hgen feats c (incl_refl _) (grows_refl st _ _ _ (fun _ _ H => H)))
    as [Hg Hall].
  split; [exact Hg|].
  intros feats' u Hf' Hu. rewrite Hf in Hf'. inversion Hf'; subst.
  apply dict_mem_In in Hu as (r & Hr). exact (Hall _ Hr).
Qed.

Lemma airspace_pass_ok st features_by_type c c' :
  airspace_pass st features_by_type c = Ok c' ->
  grows st features_by_type c c c'.
Proof.
  unfold airspace_pass. intro H.
  apply rbind_ok in H as (feats & Hf & H). apply dict_index_ok in Hf.
  apply (rfold_inv _ (fun c1 => grows st features_by_type c c c1)
                   (fun _ _ => True)) in H.
  - exact (proj1 H).
  - intros c1 [fuuid felem] c2 Hin Hg Hs. split; [|exact I].
    destruct (dict_mem c1 fuuid) eqn:Em.
    + inversion Hs; subst. exact Hg.
    + apply rbind_ok in Hs as (e & He & Hs). inversion Hs; subst.
      destruct (airspace_selected e) eqn:Esel; [|exact Hg].
      eapply grows_trans; [exact Hg|].
      apply grows_set; [exact (grows_ext _ _ _ _ _ Hg) | |].
      * exact (not_mem_start _ _ _ (grows_ext _ _ _ _ _ Hg) Em).
      * split; eauto.
  - intros; exact I.
  - apply grows_refl. auto.
Qed.

Lemma airport_closure_ok st features_by_type ahp c :
  airport_closure st features_by_type ahp = Ok c ->
  grows st features_by_type
        (dict_set [] EADD_UUID ("AirportHeliport", ahp))
        (dict_set [] EADD_UUID ("AirportHeliport", ahp)) c.
Proof.
  unfold airport_closure. cbv zeta. intro H.
  pose proof (grows_refl st features_by_type
                (dict_set [] EADD_UUID ("AirportHeliport", ahp))
                (dict_set [] EADD_UUID ("AirportHeliport", ahp))
                (fun _ _ H => H)) as Hg.
  do 10 (let found := fresh "found" in
         let Hf := fresh "Hfind" in
         let Hg' := fresh "Hg'" in
         apply rbind_ok in H as (found & Hf & H);
         apply find_add_grows in Hf; [|discriminate];
         pose proof (grows_step _ _ _ _ _ _ Hg Hf) as Hg';
         clear Hg Hf; rename Hg' into Hg).
  inversion H; subst. exact Hg.
Qed.

Lemma set_mem_union x a b :
  set_mem x (set_union a b) = set_mem x a || set_mem x b.
Proof.
  unfold set_union. revert a. induction b as [|y b IH]; intro a; cbn [fold_left].
  - cbn. now rewrite orb_false_r.
  - rewrite IH, set_mem_add. cbn [set_mem existsb].
    fold (set_mem x b). now rewrite orb_assoc.
Qed.

Lemma set_meets_intro x a b :
  set_mem x a = true -> set_mem x b = true -> set_meets a b = true.
Proof.
  intros Ha Hb. unfold set_meets. apply existsb_exists. exists x.
  split; [now apply set_mem_In | exact Hb].
Qed.

Lemma hrefs_at_ok st r refs :
  hrefs_at st r = Ok refs ->
  exists e, deref st r = Ok e /\ refs = get_xlink_hrefs e.
Proof.
  unfold hrefs_at. intro H. apply rbind_ok in H as (e & He & H).
  inversion H; subst. eauto.
Qed.

(** The keys [find_referencing] returns: the features of the type that
    are not collected and link to one of the targets. *)
Lemma find_referencing_mem st features_by_type collected feat_type targets
      feats found :
  dict_get features_by_type feat_type = Some feats ->
  find_referencing st features_by_type collected feat_type targets = Ok found ->
  forall u,
    dict_mem found u = true <->
    (dict_mem collected u = false /\
     exists r e, In (u, r) feats /\ deref st r = Ok e /\
                 set_meets (get_xlink_hrefs e) targets = true).
Proof.
  intros Hf H. unfold find_referencing in H.
  apply rbind_ok in H as (feats' & Hf' & H). apply dict_index_ok in Hf'.
  rewrite Hf in Hf'. inversion Hf'; subst feats'. clear Hf'.
  apply (rfold_inv _
           (fun found : dict ref =>
              forall u, dict_mem found u = true ->
                dict_mem collected u = false /\
                exists r e, In (u, r) feats /\ deref st r = Ok e /\
                            set_meets (get_xlink_hrefs e) targets = true)
           (fun (a : string * ref) (found : dict ref) =>
              dict_mem collected (fst a) = false ->
              forall e, deref st (snd a) = Ok e ->
                        set_meets (get_xlink_hrefs e) targets = true ->
                        dict_mem found (fst a) = true)) in H.
  - destruct H as [Hi Hall]. intro u. split; [apply Hi|].
    intros (Hc & r & e & Hin & He & Hm). exact (Hall _ Hin Hc e He Hm).
  - intros s [fuuid felem] s' Hin Hi Hs. cbn [fst snd].
    destruct (dict_mem collected fuuid) eqn:Em.
    + inversion Hs; subst. split; [exact Hi | discriminate].
    + apply rbind_ok in Hs as (refs & Hr & Hs).
      apply hrefs_at_ok in Hr as (e & He & ->). inversion Hs; subst. clear Hs.
      destruct (set_meets (get_xlink_hrefs e) targets) eqn:Emeet; split.
      * intros u Hu. rewrite dict_mem_set in Hu.
        apply orb_true_iff in Hu as [Hu|Hu]; [now apply Hi|].
        apply String.eqb_eq in Hu. subst. split; [exact Em | eauto].
      * intros _ e' He' _. rewrite dict_mem_set, String.eqb_refl.
        apply orb_true_r.
      * exact Hi.
      * intros _ e' He' Hm. rewrite He in He'. inversion He'; subst. congruence.
  - intros [u r] [fuuid felem] s s' Hin Hg Hi Hs. cbn [fst snd] in *.
    intros Hc e He Hm. specialize (Hg Hc e He Hm).
    destruct (dict_mem collected fuuid).
    + inversion Hs; subst. exact Hg.
    + apply rbind_ok in Hs as (refs & _ & Hs). inversion Hs; subst.
      destruct (set_meets refs targets); [|exact Hg].
      rewrite dict_mem_set, Hg. reflexivity.
  - intros u Hu. discriminate.
Qed.

Lemma add_found_mem collected feat_type found u :
  dict_mem (add_found collected feat_type found) u
  = dict_mem collected u || dict_mem found u.
Proof.
  unfold add_found. revert collected.
  induction found as [|[k e] l IH]; intro c; cbn [fold_left].
  - cbn. now rewrite orb_false_r.
  - rewrite IH, dict_mem_set. unfold dict_mem at 4. cbn [dict_get].
    rewrite (String.eqb_sym u k). fold (dict_mem l u).
    destruct (String.eqb k u); [now rewrite !orb_true_r|].
    now rewrite orb_false_r.
Qed.

(** After a step of the closure the features of its type that link to a
    target are collected. *)
Lemma find_add_has st features_by_type collected feat_type targets found :
  find_referencing st features_by_type collected feat_type targets = Ok found ->
  forall feats u r e,
    dict_get features_by_type feat_type = Some feats ->
    In (u, r) feats ->
    deref st r = Ok e ->
    set_meets (get_xlink_hrefs e) targets = true ->
    dict_mem (add_found collected feat_type found) u = true.
Proof.
  intros H feats u r e Hf Hin He Hm. rewrite add_found_mem.
  destruct (dict_mem collected u) eqn:Ec; [reflexivity|]. cbn [orb].
  apply (find_referencing_mem _ _ _ _ _ _ _ Hf H). split; [exact Ec | eauto].
Qed.

(** The features of the closure that link to the airport itself. *)
Lemma airport_closure_has st features_by_type ahp c :
  airport_closure st features_by_type ahp = Ok c ->
  forall t feats u r e,
    In t ["Runway"; "TouchDownLiftOff"; "Taxiway"; "Apron"; "AircraftStand"] ->
    dict_get features_by_type t = Some feats ->
    In (u, r) feats ->
    deref st r = Ok e ->
    set_mem EADD_UUID (get_xlink_hrefs e) = true ->
    dict_mem c u = true.
Proof.
  unfold airport_closure. cbv zeta. intro H.
  apply rbind_ok in H as (f1 & F1 & H).
  apply rbind_ok in H as (f2 & F2 & H).
  apply rbind_ok in H as (f3 & F3 & H).
  apply rbind_ok in H as (f4 & F4 & H).
  apply rbind_ok in H as (f5 & F5 & H).
  apply rbind_ok in H as (f6 & F6 & H).
  apply rbind_ok in H as (f7 & F7 & H).
  apply rbind_ok in H as (f8 & F8 & H).
  apply rbind_ok in H as (f9 & F9 & H).
  apply rbind_ok in H as (f10 & F10 & H).
  inversion H; subst c. clear H.
  intros t feats u r e Ht Hf Hin He Hm.
  assert (Hmeet : forall targets, set_mem EADD_UUID targets = true ->
                    set_meets (get_xlink_hrefs e) targets = true).
  { intros targets Htg. eapply set_meets_intro; eauto. }
  assert (Hkeep : forall c t found,
             dict_mem c u = true -> dict_mem (add_found c t found) u = true).
  { intros c t0 found Hc. now rewrite add_found_mem, Hc. }
  assert (Hunion : forall a b,
             set_mem EADD_UUID a = true \/ set_mem EADD_UUID b = true ->
             set_mem EADD_UUID (set_union a b) = true).
  { intros a b Hab. rewrite set_mem_union. now apply orb_true_iff. }
  cbn [In] in Ht. destruct Ht as [<-|[<-|[<-|[<-|[<-|[]]]]]].
  - do 9 apply Hkeep.
    eapply find_add_has; [exact F1 | exact Hf | exact Hin | exact He |].
    apply Hmeet. reflexivity.
  - do 5 apply Hkeep.
    eapply find_add_has; [exact F5 | exact Hf | exact Hin | exact He |].
    apply Hmeet, Hunion. left. reflexivity.
  - do 4 apply Hkeep.
    eapply find_add_has; [exact F6 | exact Hf | exact Hin | exact He |].
    apply Hmeet. reflexivity.
  - do 2 apply Hkeep.
    eapply find_add_has; [exact F8 | exact Hf | exact Hin | exact He |].
    apply Hmeet. reflexivity.
  - eapply find_add_has; [exact F10 | exact Hf | exact Hin | exact He |].
    apply Hmeet, Hunion. right. reflexivity.
Qed.

(** The airspaces the designator test selects are collected. *)
Lemma airspace_pass_has st features_by_type c c' :
  airspace_pass st features_by_type c = Ok c' ->
  forall feats u r e,
    dict_get features_by_type "Airspace" = Some feats ->
    In (u, r) feats ->
    deref st r = Ok e ->
    airspace_selected e = true ->
    dict_mem c' u = true.
Proof.
  unfold airspace_pass. intro H.
  apply rbind_ok in H as (feats & Hf & H). apply dict_index_ok in Hf.
  apply (rfold_inv _ (fun _ => True)
           (fun (a : string * ref) (c1 : dict (string * ref)) =>
              forall e, deref st (snd a) = Ok e ->
                        airspace_selected e = true ->
                        dict_mem c1 (fst a) = true)) in H.
  - intros feats' u r e Hf' Hin He Hsel. rewrite Hf in Hf'.
    inversion Hf'; subst. exact (proj2 H _ Hin e He Hsel).
  - intros c1 [fuuid felem] c2 Hin _ Hs. split; [exact I|]. cbn [fst snd].
    intros e He Hsel. destruct (dict_mem c1 fuuid) eqn:Em.
    + inversion Hs; subst. exact Em.
    + apply rbind_ok in Hs as (e' & He' & Hs). rewrite He in He'.
      inversion He'; subst e'. rewrite Hsel in Hs. inversion Hs; subst.
      rewrite dict_mem_set, String.eqb_refl. apply orb_true_r.
  - intros [u r] [fuuid felem] c1 c2 Hin Hg _ Hs. cbn [fst snd] in *.
    intros e He Hsel. specialize (Hg e He Hsel).
    destruct (dict_mem c1 fuuid).
    + inversion Hs; subst. exact Hg.
    + apply rbind_ok in Hs as (e' & _ & Hs). inversion Hs; subst.
      destruct (airspace_selected e'); [|exact Hg].
      rewrite dict_mem_set, Hg. reflexivity.
  - exact I.
Qed.

(** The uuids the bottom-up loops note are keys of the type they run
    over. *)
Lemma collect_all_noted st (t : string) (feats : dict ref) targets
      (c : dict (string * ref)) lr c' lr' :
  rfold
    (fun '(collected, eadd_navaid_uuids) '(fuuid, felem) =>
       if negb (dict_mem collected fuuid) then
         refs <- hrefs_at st felem ;;
         Ok (dict_set collected fuuid (t, felem),
             if set_meets refs targets
             then set_add eadd_navaid_uuids fuuid else eadd_navaid_uuids)
       else Ok (collected, eadd_navaid_uuids))
    feats (c, lr) = Ok (c', lr') ->
  forall x, set_mem x lr' = true ->
            set_mem x lr = true \/ dict_mem feats x = true.
Proof.
  intro H.
  apply (rfold_inv _
           (fun s : dict (string * ref) * pyset =>
              forall x, set_mem x (snd s) = true ->
                        set_mem x lr = true \/ dict_mem feats x = true)
           (fun _ _ => True)) in H.
  - exact (proj1 H).
  - intros [c1 lr1] [fuuid felem] [c2 lr2] Hin Hi Hs. cbn [fst snd] in *.
    split; [|exact I].
    destruct (dict_mem c1 fuuid); cbn [negb] in Hs.
    + inversion Hs; subst. exact Hi.
    + apply rbind_ok in Hs as (refs & _ & Hs). inversion Hs; subst.
      destruct (set_meets refs targets); [|exact Hi].
      intros x Hx. rewrite set_mem_add in Hx.
      apply orb_true_iff in Hx as [Hx|Hx]; [now apply Hi|].
      apply String.eqb_eq in Hx. subst. right. eapply In_dict_mem; eauto.
  - intros; exact I.
  - cbn [snd]. auto.
Qed.

Lemma bottom_up_noted st features_by_type c c' lr' :
  bottom_up st features_by_type c = Ok (c', lr') ->
  forall x, set_mem x lr' = true -> navaid_kind features_by_type x.
Proof.
  unfold bottom_up. intro H. apply rbind_ok in H as ([c1 lr1] & H1 & H2).
  cbn [snd] in H2.
  assert (K1 : forall x, set_mem x lr1 = true -> navaid_kind features_by_type x).
  { unfold navaid_pass in H1. apply rbind_ok in H1 as (feats & Hf & H1).
    apply dict_index_ok in Hf. intros x Hx.
    destruct (collect_all_noted _ _ _ _ _ _ _ _ H1 x Hx) as [Hx'|Hx'];
      [discriminate|].
    exists "Navaid", feats. split; [now left | auto]. }
  unfold equipment_pass in H2.
  apply (rfold_inv _
           (fun s : dict (string * ref) * pyset =>
              forall x, set_mem x (snd s) = true ->
                        navaid_kind features_by_type x)
           (fun _ _ => True)) in H2.
  - exact (proj1 H2).
  - intros [c2 lr2] t [c3 lr3] Hin Hi Hs. cbn [fst snd] in *.
    split; [|exact I].
    apply rbind_ok in Hs as (feats & Hf & Hs). apply dict_index_ok in Hf.
    intros x Hx.
    destruct (collect_all_noted _ _ _ _ _ _ _ _ Hs x Hx) as [Hx'|Hx'];
      [now apply Hi|].
    exists t, feats. split; [now right | auto].
  - intros; exact I.
  - exact K1.
Qed.

(** The steps a run of the collector that reaches its last line went
    through. *)
Lemma collect_eadd_features_stages st features_by_type c lr :
  collect_eadd_features st features_by_type = Ok (RetPair c lr) ->
  exists airports ahp c1 c2 lr2 c3,
    dict_get features_by_type "AirportHeliport" = Some airports
    /\ dict_get airports EADD_UUID = Some ahp
    /\ airport_closure st features_by_type ahp = Ok c1
    /\ bottom_up st features_by_type c1 = Ok (c2, lr2)
    /\ topdown_pass st features_by_type lr2 = Ok lr
    /\ vertical_structure_pass features_by_type c2 = Ok c3
    /\ airspace_pass st features_by_type c3 = Ok c.
Proof.
  unfold collect_eadd_features. cbv zeta. intro H.
  apply rbind_ok in H as (airports & Ha & H). apply dict_index_ok in Ha.
  destruct (dict_get airports EADD_UUID) as [ahp|] eqn:Eahp; [|discriminate].
  apply rbind_ok in H as (c1 & H1 & H).
  apply rbind_ok in H as ([c2 lr2] & H2 & H).
  apply rbind_ok in H as (lr3 & H3 & H).
  apply rbind_ok in H as (c3 & H4 & H).
  apply rbind_ok in H as (c4 & H5 & H).
  inversion H; subst. exists airports, ahp, c1, c2, lr2, c3. auto 10.
Qed.

(** X13: when the collector reaches its last line, the airport EADD is
    collected as an AirportHeliport with its element of the catalog; every
    collected uuid stands once; every collected feature is the element the
    catalog has under that uuid and that type, and a collected Airspace is
    one whose first AirspaceTimeSlice has a designator of
    AIRSPACE_DESIGNATORS. *)
Theorem collect_eadd_features_admissible st features_by_type c lr :
  collect_eadd_features st features_by_type = Ok (RetPair c lr) ->
  (exists airports ahp,
      dict_get features_by_type "AirportHeliport" = Some airports
      /\ dict_get airports EADD_UUID = Some ahp
      /\ dict_get c EADD_UUID = Some ("AirportHeliport", ahp))
  /\ NoDup (dict_keys c)
  /\ forall u t r,
      dict_get c u = Some (t, r) ->
      (exists feats, dict_get features_by_type t = Some feats /\ In (u, r) feats)
      /\ (t = "Airspace" ->
          exists e, deref st r = Ok e /\ airspace_selected e = true).
Proof.
  intro H.
  apply collect_eadd_features_stages in H
    as (airports & ahp & c1 & c2 & lr2 & c3 & Ha & Hahp & H1 & H2 & H3 & H4 & H5).
  apply airport_closure_ok in H1.
  apply bottom_up_ok in H2 as (G2 & _).
  apply (vertical_structure_pass_ok st) in H4 as (G4 & _).
  apply airspace_pass_ok in H5.
  pose proof (grows_step _ _ _ _ _ _
                (grows_step _ _ _ _ _ _
                   (grows_step _ _ _ _ _ _ H1 G2) G4) H5)
    as (Hext & _ & Hnd & Hcat).
  split; [|split].
  - exists airports, ahp. split; [exact Ha | split; [exact Hahp|]].
    apply Hext. cbn [dict_set dict_get]. now rewrite String.eqb_refl.
  - apply Hnd. cbn. repeat constructor. intros [].
  - apply Hcat. intros u t r Hg. cbn [dict_set dict_get] in Hg.
    destruct (String.eqb_spec EADD_UUID u) as [<-|_]; [|discriminate].
    inversion Hg; subst. apply dict_get_In in Hahp.
    eapply admissible_other; eauto. discriminate.
Qed.

(** X14: when the collector reaches its last line it has collected every
    Navaid, every navaid equipment and every VerticalStructure of the
    catalog, every Airspace whose first AirspaceTimeSlice has a designator
    of AIRSPACE_DESIGNATORS, and every Runway, TouchDownLiftOff, Taxiway,
    Apron and AircraftStand that links to the airport EADD. *)
Theorem collect_eadd_features_complete st features_by_type c lr :
  collect_eadd_features st features_by_type = Ok (RetPair c lr) ->
  (forall t feats u,
      In t ("Navaid" :: NAVAID_EQUIPMENT_TYPES ++ ["VerticalStructure"]) ->
      dict_get features_by_type t = Some feats ->
      dict_mem feats u = true ->
      dict_mem c u = true)
  /\ (forall feats u r e,
         dict_get features_by_type "Airspace" = Some feats ->
         In (u, r) feats ->
         deref st r = Ok e ->
         airspace_selected e = true ->
         dict_mem c u = true)
  /\ (forall t feats u r e,
         In t ["Runway"; "TouchDownLiftOff"; "Taxiway"; "Apron"; "AircraftStand"] ->
         dict_get features_by_type t = Some feats ->
         In (u, r) feats ->
         deref st r = Ok e ->
         set_mem EADD_UUID (get_xlink_hrefs e) = true ->
         dict_mem c u = true).
Proof.
  intro H.
  apply collect_eadd_features_stages in H
    as (airports & ahp & c1 & c2 & lr2 & c3 & Ha & Hahp & H1 & H2 & H3 & H4 & H5).
  pose proof (airport_closure_has _ _ _ _ H1) as Hclo.
  pose proof (airspace_pass_has _ _ _ _ H5) as Hsel.
  apply bottom_up_ok in H2 as ((_ & M2 & _) & Hnav & _).
  apply (vertical_structure_pass_ok st) in H4 as ((_ & M4 & _) & Hvs).
  apply airspace_pass_ok in H5 as (_ & M5 & _).
  split; [|split].
  - intros t feats u Ht Hf Hu. apply M5.
    change ("Navaid" :: NAVAID_EQUIPMENT_TYPES ++ ["VerticalStructure"])
      with (("Navaid" :: NAVAID_EQUIPMENT_TYPES) ++ ["VerticalStructure"]) in Ht.
    apply in_app_or in Ht as [Ht|[<-|[]]].
    + apply M4. eapply Hnav; eauto.
    + eapply Hvs; eauto.
  - exact Hsel.
  - intros t feats u r e Ht Hf Hin He Hm. apply M5, M4, M2.
    eapply Hclo; eauto.
Qed.

(** X15: find_referencing returns features of the type asked for, with
    their elements, and its keys are exactly the uuids of that type that
    are not collected yet and have an element linking to one of the target
    uuids. *)
Theorem find_referencing_spec st features_by_type collected feat_type targets
        found :
  find_referencing st features_by_type collected feat_type targets = Ok found ->
  exists feats,
    dict_get features_by_type feat_type = Some feats
    /\ (forall u r, In (u, r) found -> In (u, r) feats)
    /\ forall u,
        dict_mem found u = true <->
        (dict_mem collected u = false /\
         exists r e, In (u, r) feats /\ deref st r = Ok e /\
                     set_meets (get_xlink_hrefs e) targets = true).
Proof.
  intro H. destruct (find_referencing_new _ _ _ _ _ _ H) as (feats & Hf & Hall).
  exists feats. split; [exact Hf | split].
  - intros u r Hin. exact (proj2 (Hall u r Hin)).
  - exact (find_referencing_mem _ _ _ _ _ _ _ Hf H).
Qed.

(** X16: every uuid of the set eadd_navaid_uuids the collector returns is
    the uuid of a Navaid or of a navaid equipment of the catalog, and is
    one of the collected features. *)
Theorem collect_eadd_features_noted st features_by_type c lr :
  collect_eadd_features st features_by_type = Ok (RetPair c lr) ->
  forall x,
    set_mem x lr = true ->
    dict_mem c x = true
    /\ exists t feats,
        In t ("Navaid" :: NAVAID_EQUIPMENT_TYPES)
        /\ dict_get features_by_type t = Some feats
        /\ dict_mem feats x = true.
Proof.
  intro H.
  apply collect_eadd_features_stages in H
    as (airports & ahp & c1 & c2 & lr2 & c3 & Ha & Hahp & H1 & H2 & H3 & H4 & H5).
  pose proof (bottom_up_noted _ _ _ _ _ H2) as Hk2.
  apply bottom_up_ok in H2 as (_ & Hnav & Hn2).
  apply (vertical_structure_pass_ok st) in H4 as ((_ & M4 & _) & _).
  apply airspace_pass_ok in H5 as (_ & M5 & _).
  intros x Hx. split.
  - apply M5, M4.
    revert x Hx. eapply topdown_pass_inv; [| exact Hn2 | exact H3].
    intros t feats u Ht Hf Hu. eapply Hnav; eauto. now right.
  - revert x Hx.
    apply (topdown_pass_inv st features_by_type (navaid_kind features_by_type)
             lr2 lr); [| exact Hk2 | exact H3].
    intros t feats u Ht Hf Hu. exists t, feats. split; [now right | auto].
Qed.

(** ** The catalog read from the document *)

Lemma rfold_total_inv {A S} (f : S -> A -> result S) (I : S -> Prop) l :
  (forall s a, In a l -> I s -> exists s', f s a = Ok s' /\ I s') ->
  forall s, I s -> exists s', rfold f l s = Ok s' /\ I s'.
Proof.
  induction l as [|a l IH]; intros Hstep s Hi.
  - exists s. split; [reflexivity | exact Hi].
  - destruct (Hstep s a (or_introl eq_refl) Hi) as (s1 & E1 & Hi1).
    destruct (IH (fun s a0 Ha => Hstep s a0 (or_intror Ha)) s1 Hi1)
      as (s' & E' & Hi').
    exists s'. cbn [rfold]. rewrite E1. split; [exact E' | exact Hi'].
Qed.

Lemma elem_find_tag e name c :
  elem_find e name = Some c -> In c (children e) /\ tag c = Some name.
Proof.
  unfold elem_find. intro H. apply find_some in H as [Hin Ht].
  split; [exact Hin|]. unfold tag_is in Ht. destruct (tag c) as [t|]; [|discriminate].
  apply String.eqb_eq in Ht. now subst.
Qed.

Lemma member_feature_some member types ft e :
  member_feature member types = Some (ft, e) ->
  In ft types /\ elem_find member (qname AIXM_NS ft) = Some e.
Proof.
  induction types as [|t types IH]; [discriminate|]. cbn [member_feature].
  destruct (elem_find member (qname AIXM_NS t)) as [c|] eqn:E; intro H.
  - inversion H; subst. split; [now left | exact E].
  - destruct (IH H) as [Hin He]. split; [now right | exact He].
Qed.

Lemma dict_keys_set_mem {V} (d : dict V) k v :
  dict_mem d k = true -> dict_keys (dict_set d k v) = dict_keys d.
Proof. intro H. now rewrite dict_keys_set, H. Qed.

Lemma dict_mem_of_keys {V} (d : dict V) k :
  In k (dict_keys d) -> dict_mem d k = true.
Proof. intro H. rewrite dict_mem_keys. now apply set_mem_In. Qed.

(** One member of the document: a step that keeps the keys of the catalog
    never fails. *)
Lemma extract_member_keys st fbt member :
  dict_keys fbt = FEATURE_TYPES ->
  exists st' fbt',
    extract_member (st, fbt) member = Ok (st', fbt')
    /\ dict_keys fbt' = FEATURE_TYPES.
Proof.
  intro Hk. unfold extract_member.
  destruct (member_feature member FEATURE_TYPES) as [[ft elem]|] eqn:Em;
    [|eauto].
  destruct (get_feature_uuid elem) as [u|]; [|eauto].
  destruct (nonempty u); [|eauto].
  apply member_feature_some in Em as [Hin _].
  assert (Hm : dict_mem fbt ft = true).
  { apply dict_mem_of_keys. now rewrite Hk. }
  destruct (dict_index_mem _ _ Hm) as (feats & Ef). rewrite Ef. cbn [rbind].
  eexists _, _. split; [reflexivity|]. now rewrite dict_keys_set_mem.
Qed.

Lemma nth_error_app_old {A} (l : list A) x r a :
  nth_error l r = Some a -> nth_error (l ++ [x]) r = Some a.
Proof.
  intro H. rewrite nth_error_app1; [exact H|].
  apply nth_error_Some. congruence.
Qed.

Lemma nonempty_neq s : nonempty s = true <-> s <> "".
Proof. destruct s; cbn; split; intro H; congruence. Qed.

Lemma extract_member_ok root st fbt member st' fbt' :
  In member (members root) ->
  extract_member (st, fbt) member = Ok (st', fbt') ->
  (forall ft feats u r,
      dict_get fbt ft = Some feats -> In (u, r) feats ->
      entry_of root st ft u r) ->
  (forall ft feats u r,
      dict_get fbt' ft = Some feats -> In (u, r) feats ->
      entry_of root st' ft u r)
  /\ (forall ft e u,
         member_feature member FEATURE_TYPES = Some (ft, e) ->
         get_feature_uuid e = Some u -> u <> "" ->
         exists feats, dict_get fbt' ft = Some feats /\ dict_mem feats u = true)
  /\ (forall ft feats u,
         dict_get fbt ft = Some feats -> dict_mem feats u = true ->
         exists feats', dict_get fbt' ft = Some feats'
                        /\ dict_mem feats' u = true).
Proof.
  intros Hmem H Hi. unfold extract_member in H.
  assert (Hsame : (st', fbt') = (st, fbt) ->
            (forall ft feats u r,
                dict_get fbt' ft = Some feats -> In (u, r) feats ->
                entry_of root st' ft u r)
            /\ (forall ft feats u,
                   dict_get fbt ft = Some feats -> dict_mem feats u = true ->
                   exists feats', dict_get fbt' ft = Some feats'
                                  /\ dict_mem feats' u = true)).
  { intro E. inversion E; subst. split; [exact Hi | eauto]. }
  destruct (member_feature member FEATURE_TYPES) as [[ft elem]|] eqn:Em.
  2:{ inversion H; subst. destruct (Hsame eq_refl) as [A B].
      split; [exact A | split; [discriminate | exact B]]. }
  destruct (get_feature_uuid elem) as [u|] eqn:Eu.
  2:{ inversion H; subst. destruct (Hsame eq_refl) as [A B].
      split; [exact A | split; [|exact B]].
      intros ft' e' u' E1 E2. inversion E1; subst. congruence. }
  destruct (nonempty u) eqn:En.
  2:{ inversion H; subst. destruct (Hsame eq_refl) as [A B].
      split; [exact A | split; [|exact B]].
      intros ft' e' u' E1 E2 Hne. inversion E1; subst.
      rewrite Eu in E2. inversion E2; subst.
      apply nonempty_neq in Hne. congruence. }
  clear Hsame. apply rbind_ok in H as (feats0 & Ef & H).
  apply dict_index_ok in Ef. inversion H; subst st' fbt'. clear H.
  assert (Hold : forall ft' u' r', entry_of root st ft' u' r' ->
                                   entry_of root (st ++ [elem]) ft' u' r').
  { intros ft' u' r' (m & e & H1 & H2 & H3 & H4).
    exists m, e. split; [exact H1 | split; [exact H2 | split; [|exact H4]]].
    unfold deref in *. destruct (nth_error st r') as [x|] eqn:Ex; [|discriminate].
    now rewrite (nth_error_app_old _ elem _ _ Ex). }
  split; [|split].
  - intros ft' feats u' r' Hg Hin.
    destruct (String.eqb_spec ft' ft) as [->|Hne].
    + rewrite dict_get_set_same in Hg. inversion Hg; subst feats. clear Hg.
      apply In_dict_set in Hin as [[-> ->]|Hin]; [|eapply Hold, Hi; eauto].
      exists member, elem. split; [exact Hmem | split; [exact Em|]].
      split; [apply deref_app_len|].
      apply member_feature_some in Em as [_ Ee].
      apply elem_find_tag in Ee as [_ Et].
      split; [exact Et | split; [exact Eu | now apply nonempty_neq]].
    + rewrite dict_get_set_other in Hg by exact Hne. eapply Hold, Hi; eauto.
  - intros ft' e' u' E1 E2 _. inversion E1; subst ft' e'.
    rewrite Eu in E2. inversion E2; subst u'.
    exists (dict_set feats0 u (List.length st)).
    split; [apply dict_get_set_same|].
    rewrite dict_mem_set, String.eqb_refl. apply orb_true_r.
  - intros ft' feats u' Hg Hu.
    destruct (String.eqb_spec ft' ft) as [->|Hne].
    + rewrite Ef in Hg. inversion Hg; subst feats.
      exists (dict_set feats0 u (List.length st)).
      split; [apply dict_get_set_same|]. now rewrite dict_mem_set, Hu.
    + exists feats. split; [|exact Hu].
      now rewrite dict_get_set_other by exact Hne.
Qed.

Lemma extract_features_by_type_total :
  forall root,
    exists st features_by_type,
      extract_features_by_type root = Ok (st, features_by_type)
      /\ dict_keys features_by_type = FEATURE_TYPES.
Proof.
  intro root. unfold extract_features_by_type.
  destruct (rfold_total_inv extract_member
              (fun s : list Element * features =>
                 dict_keys (snd s) = FEATURE_TYPES)
              (members root)) with
      (s := (@nil Element,
             fold_left (fun (d : features) ft => dict_set d ft [])
                       FEATURE_TYPES [])) as ([st fbt] & E & Hk).
  - intros [st fbt] member _ Hk. cbn [snd] in Hk.
    destruct (extract_member_keys st fbt member Hk) as (st' & fbt' & E & Hk').
    exists (st', fbt'). split; [exact E | exact Hk'].
  - reflexivity.
  - exists st, fbt. split; [exact E | exact Hk].
Qed.

Lemma extract_features_by_type_catalog :
  forall root st features_by_type,
    extract_features_by_type root = Ok (st, features_by_type) ->
    (forall ft feats u r,
        dict_get features_by_type ft = Some feats ->
        In (u, r) feats ->
        entry_of root st ft u r)
    /\ (forall member ft e u,
           In member (members root) ->
           member_feature member FEATURE_TYPES = Some (ft, e) ->
           get_feature_uuid e = Some u ->
           u <> "" ->
           exists feats,
             dict_get features_by_type ft = Some feats
             /\ dict_mem feats u = true).
Proof.
  intros root st fbt H. unfold extract_features_by_type in H.
  apply (rfold_inv _
           (fun s : list Element * features =>
              forall ft feats u r,
                dict_get (snd s) ft = Some feats -> In (u, r) feats ->
                entry_of root (fst s) ft u r)
           (fun (member : Element) (s : list Element * features) =>
              forall ft e u,
                member_feature member FEATURE_TYPES = Some (ft, e) ->
                get_feature_uuid e = Some u -> u <> "" ->
                exists feats, dict_get (snd s) ft = Some feats
                              /\ dict_mem feats u = true)) in H.
  - cbn [fst snd] in H. destruct H as [Hi Hall]. split.
    + exact Hi.
    + intros member ft e u Hm. exact (Hall member Hm ft e u).
  - intros [st1 fbt1] member [st2 fbt2] Hm Hi Hs. cbn [fst snd] in *.
    destruct (extract_member_ok _ _ _ _ _ _ Hm Hs Hi) as (A & B & _).
    split; [exact A | exact B].
  - intros a member [st1 fbt1] [st2 fbt2] Hm Hg Hi Hs. cbn [fst snd] in *.
    destruct (extract_member_ok _ _ _ _ _ _ Hm Hs Hi) as (_ & _ & C).
    intros ft e u E1 E2 Hne. destruct (Hg ft e u E1 E2 Hne) as (feats & F1 & F2).
    exact (C ft feats u F1 F2).
  - cbn [fst snd]. intros ft feats u r Hg Hin. exfalso.
    apply dict_get_In in Hg. cbv in Hg.
    repeat (destruct Hg as [Hg|Hg]; [inversion Hg; subst; destruct Hin|]).
    destruct Hg.
Qed.

(** ** The collector on a catalog read from a document *)

Lemma rfold_total {A S} (f : S -> A -> result S) l :
  (forall s a, In a l -> exists s', f s a = Ok s') ->
  forall s, exists s', rfold f l s = Ok s'.
Proof.
  intros Hstep s.
  destruct (rfold_total_inv f (fun _ => True) l) with (s := s) as (s' & E & _).
  - intros s0 a Ha _. destruct (Hstep s0 a Ha) as (s1 & E1). eauto.
  - exact I.
  - eauto.
Qed.

Lemma deref_total st r :
  (r < List.length st)%nat -> exists e, deref st r = Ok e.
Proof.
  intro H. unfold deref. destruct (nth_error st r) as [e|] eqn:E; [eauto|].
  apply nth_error_None in E. lia.
Qed.

Lemma catalog_index st features_by_type t :
  catalog_ok st features_by_type ->
  In t FEATURE_TYPES ->
  exists feats,
    dict_index features_by_type t = Ok feats
    /\ forall u r, In (u, r) feats ->
                   exists e, deref st r = Ok e
                             /\ hrefs_at st r = Ok (get_xlink_hrefs e).
Proof.
  intros [Hk Hr] Ht. destruct (dict_index_mem _ _ (Hk t Ht)) as (feats & E).
  exists feats. split; [exact E|]. intros u r Hin.
  destruct (deref_total st r) as (e & He).
  - eapply Hr; [apply dict_index_ok; exact E | exact Hin].
  - exists e. split; [exact He|]. unfold hrefs_at. now rewrite He.
Qed.

Ltac in_types := repeat (first [left; reflexivity | right]).

Lemma find_referencing_total st features_by_type collected feat_type targets :
  catalog_ok st features_by_type ->
  In feat_type FEATURE_TYPES ->
  exists found,
    find_referencing st features_by_type collected feat_type targets = Ok found.
Proof.
  intros Hok Ht. unfold find_referencing.
  destruct (catalog_index _ _ _ Hok Ht) as (feats & E & Hall).
  rewrite E. cbn [rbind]. apply rfold_total.
  intros s [fuuid felem] Hin. destruct (dict_mem collected fuuid); [eauto|].
  destruct (Hall _ _ Hin) as (e & _ & Hh). rewrite Hh. cbn [rbind]. eauto.
Qed.

Lemma airport_closure_total st features_by_type ahp :
  catalog_ok st features_by_type ->
  exists c, airport_closure st features_by_type ahp = Ok c.
Proof.
  intro Hok. unfold airport_closure. cbv zeta.
  do 10 (match goal with
         | |- exists c, rbind (find_referencing ?a ?b ?c0 ?t ?tg) _ = Ok c =>
             let f := fresh "f" in
             let E := fresh "E" in
             destruct (find_referencing_total a b c0 t tg Hok) as (f & E);
             [in_types | rewrite E; cbn [rbind]]
         end).
  eauto.
Qed.

Lemma collect_all_total st (t : string) (feats : dict ref) targets
      (acc : dict (string * ref) * pyset) :
  (forall u r, In (u, r) feats ->
               exists e, deref st r = Ok e
                         /\ hrefs_at st r = Ok (get_xlink_hrefs e)) ->
  exists acc',
    rfold
      (fun '(collected, eadd_navaid_uuids) '(fuuid, felem) =>
         if negb (dict_mem collected fuuid) then
           refs <- hrefs_at st felem ;;
           Ok (dict_set collected fuuid (t, felem),
               if set_meets refs targets
               then set_add eadd_navaid_uuids fuuid else eadd_navaid_uuids)
         else Ok (collected, eadd_navaid_uuids))
      feats acc = Ok acc'.
Proof.
  intro Hall. apply rfold_total. intros [c lr] [fuuid felem] Hin.
  destruct (dict_mem c fuuid); cbn [negb]; [eauto|].
  destruct (Hall _ _ Hin) as (e & _ & Hh). rewrite Hh. cbn [rbind]. eauto.
Qed.

Lemma bottom_up_total st features_by_type c :
  catalog_ok st features_by_type ->
  exists acc, bottom_up st features_by_type c = Ok acc.
Proof.
  intro Hok. unfold bottom_up. cbv zeta. unfold navaid_pass.
  destruct (catalog_index st features_by_type "Navaid" Hok) as (navaids & E & Hall);
    [in_types|].
  rewrite E. cbn [rbind].
  destruct (collect_all_total st "Navaid" navaids (dict_keys c)
              (c, []) Hall) as (acc1 & E1).
  rewrite E1. cbn [rbind]. unfold equipment_pass. apply rfold_total.
  intros acc t Ht.
  destruct (catalog_index st features_by_type t Hok) as (feats & Ef & Hf).
  { revert Ht. clear. unfold NAVAID_EQUIPMENT_TYPES, FEATURE_TYPES. cbn [In].
    intros [<-|[<-|[<-|[<-|[<-|[<-|[]]]]]]]; in_types. }
  rewrite Ef. cbn [rbind]. now apply collect_all_total.
Qed.

Lemma topdown_pass_total st features_by_type lr :
  catalog_ok st features_by_type ->
  exists lr', topdown_pass st features_by_type lr = Ok lr'.
Proof.
  intro Hok. unfold topdown_pass. apply rfold_total. intros marked fuuid _.
  destruct (catalog_index st features_by_type "Navaid" Hok) as (navaids & E & Hall);
    [in_types|].
  pose proof (dict_index_ok _ _ _ E) as Eg. rewrite Eg. cbn [or_else].
  destruct (dict_get navaids fuuid) as [felem|] eqn:Ef; [|eauto].
  rewrite E. cbn [rbind]. unfold dict_index at 1. rewrite Ef. cbn [rbind].
  destruct (Hall _ _ (dict_get_In _ _ _ Ef)) as (e & _ & Hh).
  rewrite Hh. cbn [rbind]. apply rfold_total. intros m ref_uuid _.
  unfold mark_equipment. apply rfold_total. intros m' t Ht.
  destruct (catalog_index st features_by_type t Hok) as (feats & Efe & _).
  { revert Ht. clear. unfold NAVAID_EQUIPMENT_TYPES, FEATURE_TYPES. cbn [In].
    intros [<-|[<-|[<-|[<-|[<-|[<-|[]]]]]]]; in_types. }
  rewrite Efe. cbn [rbind]. eauto.
Qed.

Lemma collect_eadd_features_total st features_by_type :
  catalog_ok st features_by_type ->
  exists r,
    collect_eadd_features st features_by_type = Ok r
    /\ ((exists c lr, r = RetPair c lr) <->
        (exists airports,
            dict_get features_by_type "AirportHeliport" = Some airports
            /\ dict_mem airports EADD_UUID = true)).
Proof.
  intro Hok. unfold collect_eadd_features. cbv zeta.
  destruct (catalog_index st features_by_type "AirportHeliport" Hok)
    as (airports & E & _); [in_types|].
  rewrite E. cbn [rbind]. apply dict_index_ok in E.
  destruct (dict_get airports EADD_UUID) as [ahp|] eqn:Eahp.
  - destruct (airport_closure_total st features_by_type ahp Hok) as (c1 & E1).
    rewrite E1. cbn [rbind].
    destruct (bottom_up_total st features_by_type c1 Hok) as ([c2 lr2] & E2).
    rewrite E2. cbn [rbind].
    destruct (topdown_pass_total st features_by_type lr2 Hok) as (lr3 & E3).
    rewrite E3. cbn [rbind]. unfold vertical_structure_pass.
    destruct (catalog_index st features_by_type "VerticalStructure" Hok)
      as (vs & Ev & _); [in_types|].
    rewrite Ev. cbn [rbind]. unfold airspace_pass.
    destruct (catalog_index st features_by_type "Airspace" Hok)
      as (ase & Ea & Hall); [in_types|].
    rewrite Ea. cbn [rbind].
    match goal with
    | |- exists r, rbind (rfold ?f ?l ?s0) _ = _ /\ _ =>
        assert (Ht : exists c4, rfold f l s0 = Ok c4)
    end.
    { apply rfold_total. intros c [fuuid felem] Hin. destruct (dict_mem c fuuid); [eauto|].
      destruct (Hall _ _ Hin) as (e & He & _). rewrite He. cbn [rbind]. eauto. }
    destruct Ht as (c4 & E4). rewrite E4. cbn [rbind].
    eexists. split; [reflexivity|].
    split; [|eauto]. intros _. exists airports. split; [exact E|].
    unfold dict_mem. now rewrite Eahp.
  - eexists. split; [reflexivity|]. split.
    + intros (c & lr & Hr). discriminate.
    + intros (airports' & Ha & Hm). rewrite E in Ha. inversion Ha; subst.
      unfold dict_mem in Hm. rewrite Eahp in Hm. discriminate.
Qed.

Lemma extract_features_by_type_catalog_ok root st features_by_type :
  extract_features_by_type root = Ok (st, features_by_type) ->
  catalog_ok st features_by_type.
Proof.
  intro H.
  destruct (extract_features_by_type_total root) as (st' & fbt' & E & Hk).
  rewrite H in E. inversion E; subst st' fbt'. clear E.
  apply extract_features_by_type_catalog in H as [Hs _]. split.
  - intros t Ht. apply dict_mem_of_keys. now rewrite Hk.
  - intros t feats u r Hg Hin.
    destruct (Hs _ _ _ _ Hg Hin) as (_ & e & _ & _ & Hd & _).
    unfold deref in Hd. apply nth_error_Some.
    destruct (nth_error st r); [discriminate | discriminate].
Qed.

(** X17: extract_features_by_type never fails; the catalog it returns has
    exactly the types of FEATURE_TYPES as keys, in that order, and every
    element it refers to is one of the elements read. *)
Theorem extract_features_by_type_keys :
  forall root,
    exists st features_by_type,
      extract_features_by_type root = Ok (st, features_by_type)
      /\ dict_keys features_by_type = FEATURE_TYPES
      /\ forall t feats u r,
          dict_get features_by_type t = Some feats ->
          In (u, r) feats ->
          exists e, deref st r = Ok e.
Proof.
  intro root.
  destruct (extract_features_by_type_total root) as (st & fbt & E & Hk).
  exists st, fbt. split; [exact E | split; [exact Hk|]].
  intros t feats u r Hg Hin.
  destruct (extract_features_by_type_catalog_ok _ _ _ E) as [_ Hr].
  apply deref_total. eauto.
Qed.

(** X18: every entry of the catalog extract_features_by_type returns comes
    from a hasMember child of the root: the stored element is the first
    child of that member with the tag of a type of FEATURE_TYPES, taking
    the types in their order; it is stored under that type, and its key is
    the stripped, non-empty text of its gml:identifier.  Conversely every
    such feature has its uuid among the keys of its type. *)
Theorem extract_features_by_type_entries :
  forall root st features_by_type,
    extract_features_by_type root = Ok (st, features_by_type) ->
    (forall ft feats u r,
        dict_get features_by_type ft = Some feats ->
        In (u, r) feats ->
        exists member e,
          In member (members root)
          /\ member_feature member FEATURE_TYPES = Some (ft, e)
          /\ deref st r = Ok e
          /\ tag e = Some (qname AIXM_NS ft)
          /\ get_feature_uuid e = Some u
          /\ u <> "")
    /\ (forall member ft e u,
           In member (members root) ->
           member_feature member FEATURE_TYPES = Some (ft, e) ->
           get_feature_uuid e = Some u ->
           u <> "" ->
           exists feats,
             dict_get features_by_type ft = Some feats
             /\ dict_mem feats u = true).
Proof.
  intros root st fbt H.
  exact (extract_features_by_type_catalog root st fbt H).
Qed.

(** X19: on the catalog read from any document collect_eadd_features
    raises nothing, and it returns the pair of its last line exactly when
    some hasMember of the document holds an AirportHeliport whose
    gml:identifier is EADD_UUID; otherwise it returns the bare dict. *)
Theorem collect_after_extract :
  forall root,
    exists st features_by_type r,
      extract_features_by_type root = Ok (st, features_by_type)
      /\ collect_eadd_features st features_by_type = Ok r
      /\ ((exists c lr, r = RetPair c lr) <->
          (exists member e,
              In member (members root)
              /\ member_feature member FEATURE_TYPES
                 = Some ("AirportHeliport", e)
              /\ get_feature_uuid e = Some EADD_UUID)).
Proof.
  intro root.
  destruct (extract_features_by_type_total root) as (st & fbt & E & Hk).
  pose proof (extract_features_by_type_catalog_ok _ _ _ E) as Hok.
  destruct (extract_features_by_type_catalog _ _ _ E) as [Hs Hc].
  destruct (collect_eadd_features_total st fbt Hok) as (r & Er & Hr).
  exists st, fbt, r. split; [exact E | split; [exact Er|]].
  rewrite Hr. split.
  - intros (airports & Ha & Hm). apply dict_mem_In in Hm as (ref0 & Hin).
    destruct (Hs _ _ _ _ Ha Hin) as (member & e & H1 & H2 & _ & _ & H5 & _).
    eauto.
  - intros (member & e & H1 & H2 & H3).
    apply (Hc member "AirportHeliport" e EADD_UUID H1 H2 H3). discriminate.
Qed.

(** ** Coordinates and labels *)

(** X20: a feature in which no gml:pos and no gml:posList has text other
    than white space comes out of offset_all_coordinates as it went in,
    whatever the offsets. *)
Theorem offset_all_coordinates_none :
  forall feature_elem lat_offset lon_offset,
    forallb (fun x => negb (has_coordinates x)) (elem_iter feature_elem) = true ->
    offset_all_coordinates feature_elem lat_offset lon_offset = feature_elem.
Proof.
  intros e lat lon H. rewrite forallb_forall in H.
  assert (H1 : iter_update (offset_pos lat lon) e = e).
  { apply iter_update_id. intros x Hx. specialize (H x Hx).
    unfold has_coordinates in H. unfold offset_pos.
    destruct (tag_is GML_POS x); [|reflexivity]. cbn [orb andb] in H.
    destruct (text x) as [s|]; [|reflexivity].
    destruct (nonempty s && nonempty (str_strip s)); [discriminate | reflexivity]. }
  unfold offset_all_coordinates. rewrite H1.
  apply iter_update_id. intros x Hx. specialize (H x Hx).
  unfold has_coordinates in H. unfold offset_poslist.
  destruct (tag_is GML_POSLIST x); [|reflexivity].
  rewrite orb_true_r in H. cbn [andb] in H.
  destruct (text x) as [s|]; [|reflexivity].
  destruct (nonempty s && nonempty (str_strip s)); [discriminate | reflexivity].
Qed.

Lemma to_int_not_nil n :
  Z.to_int n <> Decimal.Pos Decimal.Nil /\ Z.to_int n <> Decimal.Neg Decimal.Nil.
Proof.
  assert (H : Z.to_int n = Decimal.norm (Z.to_int n)).
  { rewrite <- DecimalZ.to_of. now rewrite DecimalZ.of_to. }
  destruct (Z.to_int n) as [u|u]; split; intro E; inversion E; subst;
    discriminate.
Qed.

Lemma str_of_int_inj n m : str_of_int n = str_of_int m -> n = m.
Proof.
  unfold str_of_int. intro H.
  apply (f_equal NilZero.int_of_string) in H.
  rewrite !NilZero.isi in H by apply to_int_not_nil.
  inversion H as [H']. apply (f_equal Z.of_int) in H'.
  now rewrite !DecimalZ.of_to in H'.
Qed.

Lemma to_int_norm m : Z.to_int m = Decimal.norm (Z.to_int m).
Proof. rewrite <- DecimalZ.to_of. now rewrite DecimalZ.of_to. Qed.

(** A number printed on two characters or more does not start with a
    padding zero. *)
Lemma str_of_int_no_pad m c : str_of_int m <> String "0" (String c "").
Proof.
  unfold str_of_int. intro H.
  pose proof (NilZero.isi (Z.to_int m) (proj1 (to_int_not_nil m))
                (proj2 (to_int_not_nil m))) as Hm.
  rewrite H in Hm. pose proof (to_int_norm m) as Hn.
  remember (Z.to_int m) as d eqn:Ed. clear Ed H.
  destruct c as [b0 b1 b2 b3 b4 b5 b6 b7].
  destruct b0, b1, b2, b3, b4, b5, b6, b7; vm_compute in Hm;
    first [discriminate Hm
          | inversion Hm; subst d; vm_compute in Hn; discriminate Hn].
Qed.

Lemma fmt_02d_inj n m : fmt_02d n = fmt_02d m -> n = m.
Proof.
  unfold fmt_02d. cbv zeta.
  destruct (Nat.ltb (String.length (str_of_int n)) 2) eqn:En;
    destruct (Nat.ltb (String.length (str_of_int m)) 2) eqn:Em; intro H.
  - cbn [String.append] in H. inversion H. now apply str_of_int_inj.
  - exfalso. cbn [String.append] in H.
    apply Nat.ltb_lt in En. apply Nat.ltb_ge in Em. rewrite <- H in Em.
    destruct (str_of_int n) as [|c [|c' r]]; cbn [String.length] in *; try lia.
    exact (str_of_int_no_pad m c (eq_sym H)).
  - exfalso. cbn [String.append] in H.
    apply Nat.ltb_lt in Em. apply Nat.ltb_ge in En. rewrite H in En.
    destruct (str_of_int m) as [|c [|c' r]]; cbn [String.length] in *; try lia.
    exact (str_of_int_no_pad n c H).
  - now apply str_of_int_inj.
Qed.

Lemma append_length a b : String.length (a ^^ b) = (String.length a + String.length b)%nat.
Proof. induction a as [|c a IH]; cbn; [reflexivity | now rewrite IH]. Qed.

Lemma append_cancel_r a b c : a ^^ c = b ^^ c -> a = b.
Proof.
  revert b. induction a as [|x a IH]; intros [|y b] H.
  - reflexivity.
  - apply (f_equal String.length) in H. cbn in H. rewrite append_length in H. lia.
  - apply (f_equal String.length) in H. cbn in H. rewrite append_length in H. lia.
  - cbn in H. inversion H. f_equal. now apply IH.
Qed.

(** X21: two copies with different indexes never share a label: the
    airport designators E<nn>D, the airport names DONLON INTL. <nn> and the
    suffixes -<nn> of different indexes are different texts. *)
Theorem copy_labels_distinct :
  forall i j : Z,
    i <> j ->
    airport_designator i <> airport_designator j
    /\ airport_name i <> airport_name j
    /\ copy_suffix i <> copy_suffix j.
Proof.
  intros i j Hij.
  assert (Hf : fmt_02d (i + 1) <> fmt_02d (j + 1)).
  { intro H. apply fmt_02d_inj in H. lia. }
  unfold airport_designator, airport_name, copy_suffix.
  split; [|split]; intro H; apply Hf.
  - cbn [String.append] in H. inversion H as [H'].
    now apply append_cancel_r in H'.
  - cbn [String.append] in H. now inversion H.
  - cbn [String.append] in H. now inversion H.
Qed.

Lemma tag_is_suffix_text name suffix c :
  tag_is name (suffix_text suffix c) = tag_is name c.
Proof.
  unfold suffix_text. destruct (text c) as [s|]; [|reflexivity].
  destruct (nonempty s); [apply tag_is_set_text | reflexivity].
Qed.

(** The relabelled navaid, equipment or airspace: its first version-block
    is found where it was, with the designator and the name suffixed. *)
Lemma relabel_suffix_fields index e ts :
  find_first_desc is_timeslice e = Some ts ->
  exists ts',
    find_first_desc is_timeslice (relabel_suffix index e) = Some ts'
    /\ forall name d,
        In name [AIXM_DESIGNATOR; AIXM_NAME] ->
        elem_find ts name = Some d ->
        elem_find ts' name = Some (suffix_text (copy_suffix index) d).
Proof.
  intro Hts. unfold relabel_suffix.
  set (f := fun child =>
              update_child AIXM_NAME (suffix_text (copy_suffix index))
                (update_child AIXM_DESIGNATOR
                   (suffix_text (copy_suffix index)) child)).
  assert (Hf : forall x, is_timeslice x = true -> is_timeslice (f x) = true).
  { intros [? ? ? ?] Hx. exact Hx. }
  pose proof (update_first_desc_find is_timeslice f
                (tag_contains_node "TimeSlice") Hf e) as H.
  rewrite Hts in H. destruct H as (e' & -> & Hfind). cbn [or_else].
  exists (f ts). split; [exact Hfind|]. unfold f, update_child, elem_find.
  destruct ts as [t a x cs]. cbn [set_children children tag attrib text].
  intros name d [<-|[<-|[]]] Hd.
  - rewrite find_update_child_other;
      [| discriminate | intro; apply tag_is_suffix_text].
    rewrite find_update_child_same by (intro; apply tag_is_suffix_text).
    unfold elem_find in Hd. cbn [children] in Hd. now rewrite Hd.
  - rewrite find_update_child_same by (intro; apply tag_is_suffix_text).
    rewrite find_update_child_other;
      [| discriminate | intro; apply tag_is_suffix_text].
    unfold elem_find in Hd. cbn [children] in Hd. now rewrite Hd.
Qed.

(** X22: in the clone with index [i] of a Navaid, a navaid equipment or an
    Airspace, the first TimeSlice below the feature is where it was, and
    its designator and its name read as before followed by [-] and
    [i + 1] on two digits when they had text; one without text stays as
    it is. *)
Theorem relabel_suffix_clone_fields :
  forall feat_type index e ts,
    In feat_type ("Airspace" :: navaid_types) ->
    find_first_desc is_timeslice e = Some ts ->
    exists ts',
      find_first_desc is_timeslice (relabel feat_type index e) = Some ts'
      /\ forall name d,
          In name [AIXM_DESIGNATOR; AIXM_NAME] ->
          elem_find ts name = Some d ->
          (forall s, text d = Some s -> s <> "" ->
                     exists d', elem_find ts' name = Some d'
                                /\ text d' = Some (s ^^ "-" ^^ fmt_02d (index + 1)))
          /\ (text d = None \/ text d = Some "" ->
              elem_find ts' name = Some d).
Proof.
  intros feat_type index e ts Hty Hts.
  assert (Hrel : relabel feat_type index e = relabel_suffix index e).
  { cbv [navaid_types NAVAID_EQUIPMENT_TYPES In] in Hty.
    destruct Hty as [<-|[<-|[<-|[<-|[<-|[<-|[<-|[<-|[]]]]]]]]]; reflexivity. }
  rewrite Hrel.
  destruct (relabel_suffix_fields index e ts Hts) as (ts' & Hfind & Hfields).
  exists ts'. split; [exact Hfind|].
  intros name d Hname Hd. rewrite (Hfields name d Hname Hd). split.
  - intros s Hs Hne. eexists. split; [reflexivity|].
    unfold suffix_text. rewrite Hs. apply nonempty_neq in Hne. rewrite Hne.
    destruct d; reflexivity.
  - intros [Hn|Hn]; unfold suffix_text; rewrite Hn; reflexivity.
Qed.

End Donlon.

(** * Instances on the small dataset *)

Lemma calculate_grid_offset_formula_7_6_30 :
  calculate_grid_offset 7 6 30
  = Ok ((1 * 30 * (1 / 60))%float, (1 * 30 * (1 / (60 * 0.6157)))%float).
Proof.
  apply (proj1 calculate_grid_offset_formula 7%Z 6%Z 30%float 1%float 1%float).
  - lia.
  - reflexivity.
  - reflexivity.
Defined.

Lemma main_core_anchor_absent_demo :
  collect_eadd_features (store demo_state) demo_features_no_airport
  = Ok (RetDict [])
  /\ main_core demo_float demo_repr demo_int demo_uuid4
       demo_features_no_airport 5 6 30 30 demo_state
     = Raise ValueError.
Proof.
  apply (main_core_anchor_absent demo_float demo_repr demo_int demo_uuid4
           demo_features_no_airport [] 5%Z 6%Z 30%float 30%Z demo_state).
  - reflexivity.
  - reflexivity.
  - reflexivity.
Defined.

Lemma offset_pos_list_odd_demo :
  let values := str_split (str_strip "52 -32 53 -31 54") in
  let pairs := coord_pairs demo_float demo_repr (removelast values) 1 1 in
  offset_pos_list demo_float demo_repr "52 -32 53 -31 54" 1 1 200
  = str_join newline (wrap_lines 200 pairs)
  /\ List.length pairs = List.length values / 2.
Proof.
  pose proof (offset_pos_list_odd_drops_last demo_float demo_repr
                "52 -32 53 -31 54" 1%float 1%float 200) as H.
  cbv zeta in H. destruct (H eq_refl) as (H1 & H2 & _).
  cbv zeta. split; [exact H1 | exact H2].
Defined.

Lemma update_feature_ids_defaults_demo :
  exists e' ts',
    update_feature_ids demo_int demo_ndb "00000000-0000-4000-8000-000000000004"
    = Ok e'
    /\ find_first_desc is_timeslice e' = Some ts'
    /\ elem_get ts' GML_ID
       = Some ("id_" ^^ "00000000-0000-4000-8000-000000000004" ^^ "_"
               ^^ str_of_int 1 ^^ "_" ^^ str_of_int 0 ^^ "_B").
Proof.
  pose proof (update_feature_ids_defaults demo_int demo_ndb
                "00000000-0000-4000-8000-000000000004") as H.
  edestruct H as (_ & _ & H3).
  - vm_compute. reflexivity.
  - apply H3; reflexivity.
Defined.

Lemma topdown_marks_linked_equipment_demo :
  exists ahp collected0 collected1 marked_bottom_up,
    airport_closure demo_store demo_features ahp = Ok collected0
    /\ bottom_up demo_store demo_features collected0
       = Ok (collected1, marked_bottom_up)
    /\ (forall x,
           set_mem x marked_bottom_up = true ->
           set_mem x [NAV_UUID; VOR_UUID] = true)
    /\ forall navaids nav_uuid nav_ref nav_elem eq_type equipment eq_uuid,
        dict_get demo_features "Navaid" = Some navaids ->
        dict_get navaids nav_uuid = Some nav_ref ->
        deref demo_store nav_ref = Ok nav_elem ->
        set_mem nav_uuid marked_bottom_up = true ->
        In eq_type NAVAID_EQUIPMENT_TYPES ->
        dict_get demo_features eq_type = Some equipment ->
        dict_mem equipment eq_uuid = true ->
        set_mem eq_uuid (get_xlink_hrefs nav_elem) = true ->
        set_mem eq_uuid [NAV_UUID; VOR_UUID] = true.
Proof.
  apply (topdown_marks_linked_equipment demo_store demo_features demo_collected
           [NAV_UUID; VOR_UUID]).
  vm_compute. reflexivity.
Defined.

Lemma clone_feature_set_length_demo :
  exists cloned new_ahp s',
    clone_feature_set demo_float demo_repr demo_int demo_uuid4
      demo_collected 0 6 30 None demo_state = Ok ((cloned, new_ahp), s')
    /\ List.length cloned = List.length demo_collected.
Proof.
  destruct (proj2 (clone_feature_set_length demo_float demo_repr demo_int
                     demo_uuid4)
              demo_collected 0%Z 6%Z 30%float None demo_state)
    as (cloned & new_ahp & s' & E).
  - lia.
  - reflexivity.
  - reflexivity.
  - reflexivity.
  - repeat constructor; eexists; split; reflexivity.
  - exists cloned, new_ahp, s'. split; [exact E|].
    apply (proj1 (clone_feature_set_length demo_float demo_repr demo_int
                    demo_uuid4) _ _ _ _ _ _ _ _ _ E).
Defined.

Lemma cloned_links_mapped_or_outside_demo :
  (exists old j,
      dict_get (uuid_map_from demo_uuid4 (dict_keys demo_collected) []
                  (drawn demo_state)) old
      = Some "00000000-0000-4000-8000-000000000000"
      /\ drawn demo_state <= j < drawn demo_state + List.length demo_collected
      /\ "00000000-0000-4000-8000-000000000000" = demo_uuid4 j)
  \/ (dict_mem demo_collected "00000000-0000-4000-8000-000000000000" = false
      /\ set_mem "00000000-0000-4000-8000-000000000000"
           (get_xlink_hrefs demo_runway) = true).
Proof.
  eapply proj1.
  eapply (cloned_links_mapped_or_outside demo_float demo_repr demo_int demo_uuid4
            demo_collected 0%Z 6%Z 30%float None demo_state)
    with (k := 1) (old_uuid := RWY_UUID) (feat_type := "Runway") (orig_ref := 1)
         (orig := demo_runway) (new_ref := 8).
  - vm_compute. reflexivity.
  - intros j [_ Hj]. do 7 (destruct j as [|j]; [reflexivity|]).
    cbn in Hj. lia.
  - reflexivity.
  - reflexivity.
  - reflexivity.
  - vm_compute. reflexivity.
  - vm_compute. reflexivity.
Defined.

Lemma clone_offset_choice_demo :
  exists cloned new_ahp s',
    clone_feature_set demo_float demo_repr demo_int demo_uuid4
      demo_collected 7 6 600 (Some [NAV_UUID; VOR_UUID]) demo_state
    = Ok ((cloned, new_ahp), s')
    /\ calculate_grid_offset 7 6 600 = Ok (10, 16.241676140977749)%float
    /\ calculate_grid_offset 7 6 (600 / 10)%float
       = Ok (1, 1.6241676140977748)%float
    /\ (exists new_ref clone,
           nth_error cloned 4 = Some ("NDB", new_ref)
           /\ nth_error (store s') new_ref = Some clone
           /\ texts_of GML_POS demo_ndb = [Some "40 -20"]
           /\ texts_of GML_POS clone = [Some "41.0 -18.0"])
    /\ (exists new_ref clone,
           nth_error cloned 3 = Some ("VOR", new_ref)
           /\ nth_error (store s') new_ref = Some clone
           /\ texts_of GML_POS demo_vor = [Some "52 -31"]
           /\ texts_of GML_POS clone = [Some "62.0 -14.0"])
    /\ (exists new_ref clone,
           nth_error cloned 6 = Some ("Airspace", new_ref)
           /\ nth_error (store s') new_ref = Some clone
           /\ texts_of GML_POSLIST demo_airspace = [Some "52 -32 53 -31 54"]
           /\ texts_of GML_POSLIST clone = [Some "62.0 -15.0 63.0 -14.0"]).
Proof.
  eexists _, _, _. split; [vm_compute; reflexivity|].
  eassert (E : clone_feature_set demo_float demo_repr demo_int demo_uuid4
                 demo_collected 7 6 600 (Some [NAV_UUID; VOR_UUID]) demo_state
               = Ok (_, _, _)).
  { vm_compute. reflexivity. }
  destruct (clone_offset_choice _ _ _ _ _ _ _ _ _ _ _ _ _ E)
    as (primary & secondary & H1 & H2 & Hall).
  split; [vm_compute; reflexivity|]. split; [vm_compute; reflexivity|].
  vm_compute in H1. vm_compute in H2.
  injection H1 as <-. injection H2 as <-.
  split; [|split].
  - destruct (Hall 4 NDB_UUID "NDB" 4 demo_ndb eq_refl eq_refl)
      as (new_ref & clone & new_uuid & ids_done & Hc & Hs & _ & _ & _ & _ & _ & Heq).
    exists new_ref, clone. split; [exact Hc|]. split; [exact Hs|].
    split; [reflexivity|].
    destruct Heq as [Hpos _]; [discriminate|]. rewrite Hpos.
    vm_compute. reflexivity.
  - destruct (Hall 3 VOR_UUID "VOR" 3 demo_vor eq_refl eq_refl)
      as (new_ref & clone & new_uuid & ids_done & Hc & Hs & _ & _ & _ & _ & _ & Heq).
    exists new_ref, clone. split; [exact Hc|]. split; [exact Hs|].
    split; [reflexivity|].
    destruct Heq as [Hpos _]; [discriminate|]. rewrite Hpos.
    vm_compute. reflexivity.
  - destruct (Hall 6 ASE_UUID "Airspace" 6 demo_airspace eq_refl eq_refl)
      as (new_ref & clone & new_uuid & ids_done & Hc & Hs & _ & _ & _ & _ & _ & Heq).
    exists new_ref, clone. split; [exact Hc|]. split; [exact Hs|].
    split; [reflexivity|].
    destruct Heq as [_ Hlist]; [discriminate|]. rewrite Hlist.
    vm_compute. reflexivity.
Defined.

Lemma vertical_structure_clone_demo :
  exists cloned new_ahp s',
    clone_feature_set demo_float demo_repr demo_int demo_uuid4
      demo_collected 0 6 30 None demo_state = Ok ((cloned, new_ahp), s')
    /\ nth_error (store s') 5 = Some demo_obstacle
    /\ exists new_ref clone,
        nth_error cloned 5 = Some ("VerticalStructure", new_ref)
        /\ List.length (store demo_state) <= new_ref
        /\ nth_error (store s') new_ref = Some clone
        /\ forall ts prop,
            find_first_desc is_timeslice clone = Some ts ->
            In prop VS_PROPERTIES_TO_REMOVE ->
            elem_find ts (qname AIXM_NS prop) = None.
Proof.
  eexists _, _, _. split; [vm_compute; reflexivity|].
  eassert (E : clone_feature_set demo_float demo_repr demo_int demo_uuid4
                 demo_collected 0 6 30 None demo_state
               = Ok (_, _, _)).
  { vm_compute. reflexivity. }
  apply (proj2 (vertical_structure_clone_without_properties _ _ _ _ _ _ _ _ _ _
                  _ _ _ E) 5 VS_UUID 5 demo_obstacle eq_refl eq_refl).
Defined.

Lemma airport_clone_designator_demo :
  exists cloned new_ahp s',
    clone_feature_set demo_float demo_repr demo_int demo_uuid4
      demo_collected 0 6 30 None demo_state = Ok ((cloned, new_ahp), s')
    /\ exists new_ref clone ts' d',
    nth_error cloned 0 = Some ("AirportHeliport", new_ref)
    /\ nth_error (store s') new_ref = Some clone
    /\ find_first is_airport_timeslice clone = Some ts'
    /\ elem_find ts' AIXM_DESIGNATOR = Some d'
    /\ text d' = Some ("E" ^^ fmt_02d (0 + 1) ^^ "D").
Proof.
  eexists _, _, _. split; [vm_compute; reflexivity|].
  eassert (E : clone_feature_set demo_float demo_repr demo_int demo_uuid4
                 demo_collected 0 6 30 None demo_state
               = Ok (_, _, _)).
  { vm_compute. reflexivity. }
  edestruct (proj1 (airport_clone_designator_and_name demo_float demo_repr
                      demo_int demo_uuid4) _ _ _ _ _ _ _ _ _ E
               0 EADD_UUID 0 demo_airport)
    as (new_ref & clone & ts' & Hc & Hs & Hts & Hd & _).
  - reflexivity.
  - reflexivity.
  - vm_compute. reflexivity.
  - edestruct Hd as (d' & Hfd & Htd).
    + vm_compute. reflexivity.
    + exists new_ref, clone, ts', d'. repeat (split; [assumption|]). exact Htd.
Defined.

Lemma clone_feature_set_raises_demo :
  clone_feature_set demo_float demo_repr demo_int demo_uuid4
    [] 0 6 30 None demo_state = Raise KeyError.
Proof.
  apply (proj1 (clone_feature_set_raises demo_float demo_repr demo_int
                  demo_uuid4)).
  - lia.
  - reflexivity.
  - reflexivity.
  - reflexivity.
  - constructor.
Defined.

Lemma update_feature_ids_bad_number_demo :
  update_feature_ids demo_int
    (feature "VOR" VOR_UUID "VORTimeSlice"
       [Elem (aixm "sequenceNumber") [] (Some "one") []])
    "00000000-0000-4000-8000-000000000003"
  = Raise ValueError.
Proof.
  eapply (update_feature_ids_bad_number demo_int) with (s := "one").
  - vm_compute. reflexivity.
  - reflexivity.
  - reflexivity.
  - left. reflexivity.
Defined.

Lemma main_core_copies_demo :
  exists copies s' collected eadd_navaid_uuids extra,
    main_core demo_float demo_repr demo_int demo_uuid4
      demo_features 1 2 30 30 demo_state = Ok (copies, s')
    /\ collect_eadd_features (store demo_state) demo_features
       = Ok (RetPair collected eadd_navaid_uuids)
    /\ List.length copies = Z.to_nat (Z.min 30 (1 * 2))
    /\ Forall (fun c : list (string * ref) =>
                 List.length c = List.length collected) copies
    /\ drawn s' = drawn demo_state + List.length copies * List.length collected
    /\ store s' = store demo_state ++ extra
    /\ List.length extra = List.length copies * List.length collected.
Proof.
  eassert (E : main_core demo_float demo_repr demo_int demo_uuid4
                 demo_features 1 2 30 30 demo_state = Ok (_, _)).
  { vm_compute. reflexivity. }
  destruct (main_core_copies _ _ _ _ _ _ _ _ _ _ _ _ E)
    as (collected & lr & extra & H).
  eexists _, _, collected, lr, extra. split; [exact E | exact H].
Defined.

Lemma update_xlink_refs_targets_demo :
  link_targets
    (update_xlink_refs demo_navaid
       [(VOR_UUID, "00000000-0000-4000-8000-000000000003")])
  = map (fun t =>
           or_else
             (dict_get [(VOR_UUID, "00000000-0000-4000-8000-000000000003")] t) t)
        (link_targets demo_navaid).
Proof.
  apply update_xlink_refs_targets.
  intros old_uuid new_uuid H. cbn [dict_get] in H.
  destruct (String.eqb VOR_UUID old_uuid); [|discriminate].
  inversion H. reflexivity.
Defined.

Lemma update_xlink_refs_outside_demo :
  update_xlink_refs demo_obstacle [(EADD_UUID, "00000000-0000-4000-8000-000000000000")]
  = demo_obstacle.
Proof.
  apply update_xlink_refs_outside.
  intros t Ht. vm_compute in Ht.
  destruct Ht as [<-|[<-|[]]]; reflexivity.
Defined.

Lemma build_uuid_map_bijection_demo :
  exists uuid_map,
    build_uuid_map demo_uuid4 (dict_keys demo_collected) [] demo_state
    = Ok (uuid_map,
          mkState (store demo_state)
            (drawn demo_state + List.length (dict_keys demo_collected)))
    /\ (forall k, dict_mem uuid_map k = set_mem k (dict_keys demo_collected))
    /\ (forall i k,
           nth_error (dict_keys demo_collected) i = Some k ->
           dict_get uuid_map k = Some (demo_uuid4 (drawn demo_state + i)))
    /\ (NoDup (map demo_uuid4
                 (seq (drawn demo_state)
                    (List.length (dict_keys demo_collected)))) ->
        forall k1 k2 u,
          dict_get uuid_map k1 = Some u -> dict_get uuid_map k2 = Some u ->
          k1 = k2).
Proof.
  apply (build_uuid_map_bijection demo_uuid4).
  vm_compute. repeat (constructor; [cbn; intuition discriminate|]). constructor.
Defined.

Lemma offset_pos_list_tokens_demo :
  str_split (offset_pos_list demo_float demo_repr "a b c" 1 1 200)
  = firstn (2 * (List.length (str_split (str_strip "a b c")) / 2))
           (str_split (str_strip "a b c")).
Proof.
  apply (proj2 (offset_pos_list_tokens demo_float demo_repr "a b c"
                  1%float 1%float 200)).
  repeat constructor.
Defined.

Lemma offset_coordinate_cases_demo :
  offset_coordinate demo_float demo_repr "52 -32 17" 1 1
  = demo_repr (52 + 1) ^^ " " ^^ demo_repr (-32 + 1).
Proof.
  apply (proj1 (proj2 (proj2 (offset_coordinate_cases demo_float demo_repr
                                "52 -32 17" 1%float 1%float))
                  "52" "-32" ["17"] 52%float (-32)%float
                  eq_refl eq_refl eq_refl)).
Defined.

Lemma update_feature_ids_numbering_demo :
  exists e' ts',
    update_feature_ids demo_int demo_obstacle "NEW" = Ok e'
    /\ find_first_desc is_timeslice e' = Some ts'
    /\ gml_ids (descendants ts') = ["id_NEW_1_0_B_1"; "id_NEW_1_0_B_2"].
Proof.
  edestruct (update_feature_ids_numbering demo_int demo_obstacle "NEW")
    as (e' & ts' & H1 & H2 & H3).
  - vm_compute. reflexivity.
  - reflexivity.
  - reflexivity.
  - exists e', ts'. split; [exact H1|]. split; [exact H2|].
    rewrite H3. reflexivity.
Defined.

Lemma update_feature_ids_root_demo :
  exists e',
    update_feature_ids demo_int demo_ndb "NEW" = Ok e'
    /\ elem_get e' GML_ID = Some ("uuid." ^^ "NEW")
    /\ skeleton e' = skeleton demo_ndb.
Proof.
  eassert (E : update_feature_ids demo_int demo_ndb "NEW" = Ok _).
  { vm_compute. reflexivity. }
  eexists. split; [exact E|].
  destruct (update_feature_ids_root demo_int _ _ _ E) as (H1 & _ & H3).
  - discriminate.
  - split; [exact H1 | exact H3].
Defined.

Lemma clone_feature_set_root_ids_demo :
  exists cloned new_ahp s',
    clone_feature_set demo_float demo_repr demo_int demo_uuid4
      demo_collected 0 6 30 None demo_state = Ok ((cloned, new_ahp), s')
    /\ dict_get (uuid_map_from demo_uuid4 (dict_keys demo_collected) []
                   (drawn demo_state)) EADD_UUID = Some new_ahp
    /\ exists new_uuid clone,
        dict_get (uuid_map_from demo_uuid4 (dict_keys demo_collected) []
                    (drawn demo_state)) EADD_UUID = Some new_uuid
        /\ nth_error cloned 0
           = Some ("AirportHeliport", List.length (store demo_state) + 0)
        /\ nth_error (store s') (List.length (store demo_state) + 0) = Some clone
        /\ elem_get clone GML_ID = Some ("uuid." ^^ new_uuid).
Proof.
  eexists _, _, _. split; [vm_compute; reflexivity|].
  eassert (E : clone_feature_set demo_float demo_repr demo_int demo_uuid4
                 demo_collected 0 6 30 None demo_state = Ok (_, _, _)).
  { vm_compute. reflexivity. }
  destruct (clone_feature_set_root_ids _ _ _ _ _ _ _ _ _ _ _ _ _ E) as [Ha Hall].
  split; [exact Ha|].
  apply (Hall 0 EADD_UUID "AirportHeliport" 0 demo_airport eq_refl eq_refl).
  discriminate.
Defined.

Lemma collect_eadd_features_admissible_demo :
  collect_eadd_features demo_store demo_features
  = Ok (RetPair demo_collected [NAV_UUID; VOR_UUID])
  /\ (exists airports ahp,
         dict_get demo_features "AirportHeliport" = Some airports
         /\ dict_get airports EADD_UUID = Some ahp
         /\ dict_get demo_collected EADD_UUID = Some ("AirportHeliport", ahp))
  /\ NoDup (dict_keys demo_collected)
  /\ forall u t r,
      dict_get demo_collected u = Some (t, r) ->
      (exists feats, dict_get demo_features t = Some feats /\ In (u, r) feats)
      /\ (t = "Airspace" ->
          exists e, deref demo_store r = Ok e /\ airspace_selected e = true).
Proof.
  split; [vm_compute; reflexivity|].
  apply (collect_eadd_features_admissible demo_store demo_features
           demo_collected [NAV_UUID; VOR_UUID]).
  vm_compute. reflexivity.
Defined.

Lemma collect_eadd_features_complete_demo :
  collect_eadd_features demo_store demo_features
  = Ok (RetPair demo_collected [NAV_UUID; VOR_UUID])
  /\ (forall t feats u,
         In t ("Navaid" :: NAVAID_EQUIPMENT_TYPES ++ ["VerticalStructure"]) ->
         dict_get demo_features t = Some feats ->
         dict_mem feats u = true ->
         dict_mem demo_collected u = true)
  /\ (forall feats u r e,
         dict_get demo_features "Airspace" = Some feats ->
         In (u, r) feats ->
         deref demo_store r = Ok e ->
         airspace_selected e = true ->
         dict_mem demo_collected u = true)
  /\ (forall t feats u r e,
         In t ["Runway"; "TouchDownLiftOff"; "Taxiway"; "Apron"; "AircraftStand"] ->
         dict_get demo_features t = Some feats ->
         In (u, r) feats ->
         deref demo_store r = Ok e ->
         set_mem EADD_UUID (get_xlink_hrefs e) = true ->
         dict_mem demo_collected u = true).
Proof.
  split; [vm_compute; reflexivity|].
  apply (collect_eadd_features_complete demo_store demo_features
           demo_collected [NAV_UUID; VOR_UUID]).
  vm_compute. reflexivity.
Defined.

Lemma find_referencing_spec_demo :
  find_referencing demo_store demo_features
    [(EADD_UUID, ("AirportHeliport", 0))] "Runway" [EADD_UUID]
  = Ok [(RWY_UUID, 1)]
  /\ exists feats,
      dict_get demo_features "Runway" = Some feats
      /\ (forall u r, In (u, r) [(RWY_UUID, 1)] -> In (u, r) feats)
      /\ forall u,
          dict_mem [(RWY_UUID, 1)] u = true <->
          (dict_mem [(EADD_UUID, ("AirportHeliport", 0))] u = false /\
           exists r e, In (u, r) feats /\ deref demo_store r = Ok e /\
                       set_meets (get_xlink_hrefs e) [EADD_UUID] = true).
Proof.
  split; [vm_compute; reflexivity|].
  apply (find_referencing_spec demo_store demo_features
           [(EADD_UUID, ("AirportHeliport", 0))] "Runway" [EADD_UUID]
           [(RWY_UUID, 1)]).
  vm_compute. reflexivity.
Defined.

Lemma collect_eadd_features_noted_demo :
  collect_eadd_features demo_store demo_features
  = Ok (RetPair demo_collected [NAV_UUID; VOR_UUID])
  /\ forall x,
      set_mem x [NAV_UUID; VOR_UUID] = true ->
      dict_mem demo_collected x = true
      /\ exists t feats,
          In t ("Navaid" :: NAVAID_EQUIPMENT_TYPES)
          /\ dict_get demo_features t = Some feats
          /\ dict_mem feats x = true.
Proof.
  split; [vm_compute; reflexivity|].
  apply (collect_eadd_features_noted demo_store demo_features
           demo_collected [NAV_UUID; VOR_UUID]).
  vm_compute. reflexivity.
Defined.

Lemma extract_features_by_type_entries_demo :
  extract_features_by_type demo_root = Ok (demo_store, demo_features)
  /\ (forall ft feats u r,
         dict_get demo_features ft = Some feats ->
         In (u, r) feats ->
         exists member e,
           In member (members demo_root)
           /\ member_feature member FEATURE_TYPES = Some (ft, e)
           /\ deref demo_store r = Ok e
           /\ tag e = Some (qname AIXM_NS ft)
           /\ get_feature_uuid e = Some u
           /\ u <> "")
  /\ (forall member ft e u,
         In member (members demo_root) ->
         member_feature member FEATURE_TYPES = Some (ft, e) ->
         get_feature_uuid e = Some u ->
         u <> "" ->
         exists feats,
           dict_get demo_features ft = Some feats
           /\ dict_mem feats u = true).
Proof.
  split; [vm_compute; reflexivity|].
  apply (extract_features_by_type_entries demo_root demo_store demo_features).
  vm_compute. reflexivity.
Defined.

Lemma offset_all_coordinates_none_demo :
  offset_all_coordinates demo_float demo_repr demo_runway 1 1 = demo_runway.
Proof.
  apply (offset_all_coordinates_none demo_float demo_repr demo_runway
           1%float 1%float).
  vm_compute. reflexivity.
Defined.

Lemma copy_labels_distinct_demo :
  airport_designator 0 <> airport_designator 9
  /\ airport_name 0 <> airport_name 9
  /\ copy_suffix 0 <> copy_suffix 9.
Proof.
  apply (copy_labels_distinct 0 9). lia.
Defined.

Lemma relabel_suffix_clone_fields_demo :
  exists ts ts' d',
    find_first_desc is_timeslice demo_navaid = Some ts
    /\ find_first_desc is_timeslice (relabel "Navaid" 4 demo_navaid) = Some ts'
    /\ elem_find ts' AIXM_DESIGNATOR = Some d'
    /\ text d' = Some "BOR-05".
Proof.
  eassert (E : find_first_desc is_timeslice demo_navaid = Some _).
  { vm_compute. reflexivity. }
  destruct (relabel_suffix_clone_fields "Navaid" 4 demo_navaid _
              (or_intror (or_introl eq_refl)) E) as (ts' & Hfind & Hfields).
  destruct (Hfields AIXM_DESIGNATOR
              (Elem (aixm "designator") [] (Some "BOR") [])
              (or_introl eq_refl) eq_refl) as [Hs _].
  destruct (Hs "BOR" eq_refl) as (d' & Hd' & Ht); [discriminate|].
  eexists _, ts', d'. split; [exact E|]. split; [exact Hfind|].
  split; [exact Hd' | exact Ht].
Defined.
